(** * libxyzimage: the XYZ container codec (src/xyzimage.c), embedded in Rocq

    The development follows the current revision of [src/xyzimage.c] (the one
    with [xyzimage_get_buffer] and the capacity-doubling retries).

    - integers are [Z] with the C conversions written out ([u16], [u32],
      [usize]; [size_t] and [uLong] are taken as 64 bits wide);
    - bytes are [Byte.byte], buffers are [list byte];
    - a pointer that may be NULL is an [option]; a function that takes a
      handle pointer takes what the pointer refers to, and what [free] does
      to the handle's block is part of the result ([block]); the allocated
      blocks and their addresses are the [Heap];
    - the out-parameter [xyzimage_error_t* error] is an [errptr]: [None] is a
      NULL pointer, [Some e] a pointer to a cell that holds [e];
    - callbacks ([read_func], [write_func], [compress_func]) are functions
      that thread the caller's [userdata] and report what they store through
      their own [error] argument;
    - zlib, the allocator and the byte order of the host are parameters of the
      development (class [Platform]). *)

From Stdlib Require Import ZArith List Bool Lia.
From Stdlib.Strings Require Import Byte.
Import ListNotations.
Local Open Scope Z_scope.

(** ** Machine integers *)

Definition u16 (z : Z) : Z := z mod 2 ^ 16.
Definition u32 (z : Z) : Z := z mod 2 ^ 32.
Definition usize (z : Z) : Z := z mod 2 ^ 64.

Definition len {A} (l : list A) : Z := Z.of_nat (length l).

(** ** Bytes *)

Definition byte_to_Z (b : byte) : Z := Z.of_N (Byte.to_N b).

Definition byte_of_Z (z : Z) : byte :=
  match Byte.of_N (Z.to_N (z mod 256)) with
  | Some b => b
  | None => x00
  end.

Fixpoint bytes_eqb (a b : list byte) : bool :=
  match a, b with
  | [], [] => true
  | x :: a', y :: b' => Byte.eqb x y && bytes_eqb a' b'
  | _, _ => false
  end.

(** [memcpy dst off src n]: the buffer [dst] after [memcpy(dst + off, src, n)]. *)
Definition memcpy (dst : list byte) (off : Z) (src : list byte) (n : Z) : list byte :=
  firstn (Z.to_nat off) dst ++ firstn (Z.to_nat n) src
    ++ skipn (Z.to_nat (off + n)) dst.

(** A fresh buffer of [n] bytes; the content of uninitialised memory is
    represented by zero bytes. *)
Definition fresh (n : Z) : list byte := repeat x00 (Z.to_nat n).

(** ** xyzimage.h *)

Definition XYZIMAGE_PALETTE_ENTRIES : Z := 256.
Definition XYZIMAGE_PALETTE_SIZE : Z := XYZIMAGE_PALETTE_ENTRIES * 3.

Record XYZImage_PaletteEntry := mkEntry {
  red : byte;
  green : byte;
  blue : byte
}.

Record XYZImage_Palette := mkPalette {
  entry : list XYZImage_PaletteEntry
}.

(** Modelled from the spec: the header of this revision, which declares
    XYZIMAGE_ERROR_IO_READ_IMAGE_TOO_BIG (the spec's oversized-stream
    classification) and XYZIMAGE_ERROR_IO_READ_IMAGE_TOO_SMALL (its
    truncated-or-corrupt-stream classification), is not among the sources;
    the constructors are the codes [xyzimage_get_error_message] switches
    over, in its order.  [XYZIMAGE_ERROR_OK] is the code 0. *)
Inductive xyzimage_error_t :=
| XYZIMAGE_ERROR_OK
| XYZIMAGE_ERROR_IO_READ_GENERIC
| XYZIMAGE_ERROR_IO_READ_BAD_HEADER
| XYZIMAGE_ERROR_IO_READ_IMAGE_TOO_BIG
| XYZIMAGE_ERROR_IO_READ_IMAGE_TOO_SMALL
| XYZIMAGE_ERROR_IO_READ_END_OF_FILE
| XYZIMAGE_ERROR_IO_WRITE
| XYZIMAGE_ERROR_IO_COMPRESS
| XYZIMAGE_ERROR_XYZIMAGE_INVALID
| XYZIMAGE_ERROR_BUFFER_TOO_SMALL
| XYZIMAGE_ERROR_IMAGE_TOO_MANY_COLORS
| XYZIMAGE_ERROR_IMAGE_ALPHA_CHANNEL
| XYZIMAGE_ERROR_IMAGE_NOT_INDEXED
| XYZIMAGE_ERROR_POINTER_BAD
| XYZIMAGE_ERROR_OUT_OF_MEMORY
| XYZIMAGE_ERROR_ZLIB
| XYZIMAGE_ERROR_NOT_IMPLEMENTED
| XYZIMAGE_ERROR_FORMAT_NOT_SUPPORTED.

Definition error_eqb (a b : xyzimage_error_t) : bool :=
  match a, b with
  | XYZIMAGE_ERROR_OK, XYZIMAGE_ERROR_OK
  | XYZIMAGE_ERROR_IO_READ_GENERIC, XYZIMAGE_ERROR_IO_READ_GENERIC
  | XYZIMAGE_ERROR_IO_READ_BAD_HEADER, XYZIMAGE_ERROR_IO_READ_BAD_HEADER
  | XYZIMAGE_ERROR_IO_READ_IMAGE_TOO_BIG, XYZIMAGE_ERROR_IO_READ_IMAGE_TOO_BIG
  | XYZIMAGE_ERROR_IO_READ_IMAGE_TOO_SMALL, XYZIMAGE_ERROR_IO_READ_IMAGE_TOO_SMALL
  | XYZIMAGE_ERROR_IO_READ_END_OF_FILE, XYZIMAGE_ERROR_IO_READ_END_OF_FILE
  | XYZIMAGE_ERROR_IO_WRITE, XYZIMAGE_ERROR_IO_WRITE
  | XYZIMAGE_ERROR_IO_COMPRESS, XYZIMAGE_ERROR_IO_COMPRESS
  | XYZIMAGE_ERROR_XYZIMAGE_INVALID, XYZIMAGE_ERROR_XYZIMAGE_INVALID
  | XYZIMAGE_ERROR_BUFFER_TOO_SMALL, XYZIMAGE_ERROR_BUFFER_TOO_SMALL
  | XYZIMAGE_ERROR_IMAGE_TOO_MANY_COLORS, XYZIMAGE_ERROR_IMAGE_TOO_MANY_COLORS
  | XYZIMAGE_ERROR_IMAGE_ALPHA_CHANNEL, XYZIMAGE_ERROR_IMAGE_ALPHA_CHANNEL
  | XYZIMAGE_ERROR_IMAGE_NOT_INDEXED, XYZIMAGE_ERROR_IMAGE_NOT_INDEXED
  | XYZIMAGE_ERROR_POINTER_BAD, XYZIMAGE_ERROR_POINTER_BAD
  | XYZIMAGE_ERROR_OUT_OF_MEMORY, XYZIMAGE_ERROR_OUT_OF_MEMORY
  | XYZIMAGE_ERROR_ZLIB, XYZIMAGE_ERROR_ZLIB
  | XYZIMAGE_ERROR_NOT_IMPLEMENTED, XYZIMAGE_ERROR_NOT_IMPLEMENTED
  | XYZIMAGE_ERROR_FORMAT_NOT_SUPPORTED, XYZIMAGE_ERROR_FORMAT_NOT_SUPPORTED => true
  | _, _ => false
  end.

Inductive XYZImage_Format :=
| XYZIMAGE_FORMAT_NONE
| XYZIMAGE_FORMAT_DEFAULT.

(** [xyzimage_error_t* error]: [None] is the NULL pointer. *)
Definition errptr := option xyzimage_error_t.

(** What a callback stores through the [error] pointer it is given:
    [None] when it leaves the cell alone. *)
Definition errset := option xyzimage_error_t.

(** [size_t compress(buffer_in, size_in, buffer_out, size_out, error)]:
    the returned count, the output buffer after the call, and the code stored
    through [error]. *)
Definition xyzimage_compress_func_t : Type :=
  list byte -> Z -> list byte -> Z -> Z * list byte * errset.

(** [size_t read(userdata, buffer, amount, error)]: the bytes delivered into
    [buffer] (their number is the returned count), the code stored through
    [error], and [userdata] after the call. *)
Definition xyzimage_read_func_t (U : Type) : Type :=
  U -> Z -> list byte * errset * U.

(** [size_t write(userdata, buffer, amount, error)]: the buffer is passed as
    its first [amount] bytes; the returned count, the code stored through
    [error], and [userdata] after the call. *)
Definition xyzimage_write_func_t (U : Type) : Type :=
  U -> list byte -> Z * errset * U.

(** ** xyzimage.c: the handle *)

Definition XYZPRIV_CURRENT_STRUCT_VERSION : Z := 1.
Definition XYZPRIV_HEADER_SIZE : Z := 8.

Record XYZImage := mkXYZImage {
  header : list byte;
  version : Z;
  width : Z;
  height : Z;
  format : XYZImage_Format;
  palette : XYZImage_Palette;
  data_len : Z;
  data_len_compressed : Z;
  data : option (list byte);
  compress_func : xyzimage_compress_func_t
}.

(** What a call leaves of the block its argument [image] refers to.
    [Kept m]: the pointer is NULL ([m] is [None]) or its block is still
    allocated and holds [m].  [Freed last]: the call handed the block, and the
    pixel buffer it owns, back to the allocator with [free]; [last] is what
    the struct held at that moment.  Nothing keeps those bytes in place
    afterwards: the memory is the allocator's, to hand out again. *)
Inductive block :=
| Kept (image : option XYZImage)
| Freed (last : XYZImage).

(** The characters the source spells out. *)
Definition chr_L : byte := x4c.
Definition chr_X : byte := x58.
Definition chr_Y : byte := x59.
Definition chr_Z : byte := x5a.
Definition chr_1 : byte := x31.
Definition chr_bang : byte := x21.
Definition chr_question : byte := x3f.

Definition xyzpriv_set_error (error : errptr) (which : xyzimage_error_t) : errptr :=
  match error with
  | Some _ => Some which
  | None => None
  end.

(** The store a callback makes through the [error] pointer it was handed. *)
Definition callback_error (error : errptr) (s : errset) : errptr :=
  match s with
  | Some which => xyzpriv_set_error error which
  | None => error
  end.

(** The C test [(error && *error != 0)]. *)
Definition error_is_set (error : errptr) : bool :=
  match error with
  | Some e => negb (error_eqb e XYZIMAGE_ERROR_OK)
  | None => false
  end.

(** ** Instrumentation

    The calls [xyzimage_open] and [xyzimage_write] make to their
    collaborators, in order: requests for their two scratch buffers (with the
    requested size, whether granted or not) and calls of the callbacks. *)

Inductive scratch := compressed_xyz | decompressed_xyz.

Inductive event :=
| EvAlloc (b : scratch) (size : Z)
| EvRead (amount : Z)
| EvCompress (size_out : Z)
| EvWrite (bytes : list byte).

(** The output capacities of the calls of the compression function. *)
Fixpoint compress_calls (log : list event) : list Z :=
  match log with
  | [] => []
  | EvCompress n :: log' => n :: compress_calls log'
  | _ :: log' => compress_calls log'
  end.

(** The buffers handed to the write function. *)
Fixpoint write_calls (log : list event) : list (list byte) :=
  match log with
  | [] => []
  | EvWrite bs :: log' => bs :: write_calls log'
  | _ :: log' => write_calls log'
  end.

(** The sizes requested for the scratch buffer [b]. *)
Fixpoint alloc_sizes (b : scratch) (log : list event) : list Z :=
  match log with
  | [] => []
  | EvAlloc compressed_xyz n :: log' =>
      match b with
      | compressed_xyz => n :: alloc_sizes b log'
      | decompressed_xyz => alloc_sizes b log'
      end
  | EvAlloc decompressed_xyz n :: log' =>
      match b with
      | compressed_xyz => alloc_sizes b log'
      | decompressed_xyz => n :: alloc_sizes b log'
      end
  | _ :: log' => alloc_sizes b log'
  end.

(** ** A buffered file stream ([FILE*])

    [f_bytes] is what is still to be read of a stream opened for reading, and
    what has been written of a stream opened for writing; [f_eof] is the
    end-of-file indicator; a stream with [f_fault] transfers nothing. *)

Record FILE := mkFILE {
  f_bytes : list byte;
  f_eof : bool;
  f_fault : bool
}.

Definition fread (file : FILE) (amount : Z) : list byte * FILE :=
  if f_fault file then ([], file)
  else
    let got := firstn (Z.to_nat amount) (f_bytes file) in
    (got, mkFILE (skipn (Z.to_nat amount) (f_bytes file))
                 (f_eof file || (len got <? amount)) false).

Definition feof (file : FILE) : bool := f_eof file.

Definition fwrite (file : FILE) (buffer : list byte) : Z * FILE :=
  if f_fault file then (0, file)
  else (len buffer, mkFILE (f_bytes file ++ buffer) (f_eof file) false).

(** ** zlib constants *)

Definition Z_OK : Z := 0.
Definition Z_BEST_COMPRESSION : Z := 9.

(** ** Results of the decoder and of the encoder

    What the call returns, the cell [error] points to, [userdata] and the
    log after the call; for the encoder also the block [image] points to. *)

Record open_result (U : Type) := mkOpen {
  o_image : option XYZImage;
  o_error : errptr;
  o_userdata : U;
  o_log : list event
}.
Arguments mkOpen {U}.
Arguments o_image {U}.
Arguments o_error {U}.
Arguments o_userdata {U}.
Arguments o_log {U}.

Record write_result (U : Type) := mkWrite {
  w_ret : Z;
  w_image : block;
  w_error : errptr;
  w_userdata : U;
  w_log : list event
}.
Arguments mkWrite {U}.
Arguments w_ret {U}.
Arguments w_image {U}.
Arguments w_error {U}.
Arguments w_userdata {U}.
Arguments w_log {U}.

(** ** The platform

    The host's byte order and allocator, and zlib.
    - [host_is_big]: what the union test of [xyzpriv_swap_when_big] finds;
    - [malloc_ok n]: whether a request for [n] bytes is granted;
    - [compressBound sourceLen];
    - [compress2 source destLen level] and [uncompress source destLen]: the
      return code and the bytes stored in [dest] (their number is [*destLen]
      on return). *)
Class Platform := {
  host_is_big : bool;
  malloc_ok : Z -> bool;
  compressBound : Z -> Z;
  compress2 : list byte -> Z -> Z -> Z * list byte;
  uncompress : list byte -> Z -> Z * list byte
}.

Section Codec.

Context {P : Platform}.

Definition xyzpriv_swap_when_big (us : Z) : Z :=
  let is_big := host_is_big in
  if negb is_big then us
  else u16 (Z.lor (Z.shiftr us 8) (Z.shiftl us 8)).

(** A [uint16_t] object and the two bytes of memory that hold it. *)
Definition load_u16 (bs : list byte) : Z :=
  let b0 := byte_to_Z (nth 0 bs x00) in
  let b1 := byte_to_Z (nth 1 bs x00) in
  if host_is_big then b0 * 256 + b1 else b1 * 256 + b0.

Definition store_u16 (v : Z) : list byte :=
  if host_is_big then [byte_of_Z (v / 256); byte_of_Z v]
  else [byte_of_Z v; byte_of_Z (v / 256)].

Definition xyzpriv_fread_func : xyzimage_read_func_t (option FILE) :=
  fun userdata amount =>
    match userdata with
    | None => ([], Some XYZIMAGE_ERROR_POINTER_BAD, userdata)
    | Some file =>
        let '(got, file) := fread file amount in
        let res := len got in
        if negb (res =? amount) then
          if feof file
          then (got, Some XYZIMAGE_ERROR_IO_READ_END_OF_FILE, Some file)
          else (got, Some XYZIMAGE_ERROR_IO_READ_GENERIC, Some file)
        else (got, None, Some file)
    end.

Definition xyzpriv_compress_func : xyzimage_compress_func_t :=
  fun buffer_in len_in buffer_out len_out =>
    let comp_size := compressBound len_in in
    if comp_size >? len_out then
      (0, buffer_out, Some XYZIMAGE_ERROR_BUFFER_TOO_SMALL)
    else if negb (malloc_ok comp_size) then
      (0, buffer_out, Some XYZIMAGE_ERROR_OUT_OF_MEMORY)
    else
      let '(error_code, buffer_out_tmp) :=
        compress2 (firstn (Z.to_nat len_in) buffer_in) comp_size Z_BEST_COMPRESSION in
      let comp_size := len buffer_out_tmp in
      if negb (error_code =? Z_OK) then
        (0, buffer_out, Some XYZIMAGE_ERROR_IO_COMPRESS)
      else
        (comp_size, memcpy buffer_out 0 buffer_out_tmp comp_size, None).

Definition xyzpriv_fwrite_func : xyzimage_write_func_t (option FILE) :=
  fun userdata buffer =>
    let amount := len buffer in
    match userdata with
    | None => (0, Some XYZIMAGE_ERROR_POINTER_BAD, userdata)
    | Some file =>
        let '(res, file) := fwrite file buffer in
        if negb (res =? amount)
        then (res, Some XYZIMAGE_ERROR_IO_WRITE, Some file)
        else (res, None, Some file)
    end.

Definition zero_entry : XYZImage_PaletteEntry := mkEntry x00 x00 x00.

(** The struct's own [malloc] is not checked by the source before the fields
    are stored; it is taken to succeed.  [width] and [height] are left
    unset by the source and are 0 here. *)
Definition xyzpriv_alloc : option XYZImage :=
  Some {| header := [chr_L; chr_X; chr_Y; chr_Z];
          version := XYZPRIV_CURRENT_STRUCT_VERSION;
          width := 0;
          height := 0;
          format := XYZIMAGE_FORMAT_DEFAULT;
          palette := mkPalette (repeat zero_entry (Z.to_nat XYZIMAGE_PALETTE_ENTRIES));
          data_len := 0;
          data_len_compressed := 0;
          data := None;
          compress_func := xyzpriv_compress_func |}.

Definition set_dims (img : XYZImage) (w h : Z) : XYZImage :=
  {| header := header img; version := version img;
     width := w; height := h;
     format := format img; palette := palette img;
     data_len := data_len img; data_len_compressed := data_len_compressed img;
     data := data img; compress_func := compress_func img |}.

Definition set_data_len (img : XYZImage) (n : Z) : XYZImage :=
  {| header := header img; version := version img;
     width := width img; height := height img;
     format := format img; palette := palette img;
     data_len := n; data_len_compressed := data_len_compressed img;
     data := data img; compress_func := compress_func img |}.

Definition set_data (img : XYZImage) (d : option (list byte)) : XYZImage :=
  {| header := header img; version := version img;
     width := width img; height := height img;
     format := format img; palette := palette img;
     data_len := data_len img; data_len_compressed := data_len_compressed img;
     data := d; compress_func := compress_func img |}.

Definition set_palette (img : XYZImage) (p : XYZImage_Palette) : XYZImage :=
  {| header := header img; version := version img;
     width := width img; height := height img;
     format := format img; palette := p;
     data_len := data_len img; data_len_compressed := data_len_compressed img;
     data := data img; compress_func := compress_func img |}.

Definition set_data_len_compressed (img : XYZImage) (n : Z) : XYZImage :=
  {| header := header img; version := version img;
     width := width img; height := height img;
     format := format img; palette := palette img;
     data_len := data_len img; data_len_compressed := n;
     data := data img; compress_func := compress_func img |}.

Definition set_compress (img : XYZImage) (f : xyzimage_compress_func_t) : XYZImage :=
  {| header := header img; version := version img;
     width := width img; height := height img;
     format := format img; palette := palette img;
     data_len := data_len img; data_len_compressed := data_len_compressed img;
     data := data img; compress_func := f |}.

Definition set_header0 (img : XYZImage) (c : byte) : XYZImage :=
  {| header := c :: tl (header img); version := version img;
     width := width img; height := height img;
     format := format img; palette := palette img;
     data_len := data_len img; data_len_compressed := data_len_compressed img;
     data := data img; compress_func := compress_func img |}.

Definition xyzimage_alloc (width height : Z) (format : XYZImage_Format)
    (error : errptr) : option XYZImage * errptr :=
  let error := xyzpriv_set_error error XYZIMAGE_ERROR_OK in
  match format with
  | XYZIMAGE_FORMAT_DEFAULT =>
      let multiplier := 1 in
      match xyzpriv_alloc with
      | None => (None, xyzpriv_set_error error XYZIMAGE_ERROR_OUT_OF_MEMORY)
      | Some image =>
          let image := set_dims image width height in
          let image := set_data_len image (u32 (u32 (width * height) * multiplier)) in
          if negb (malloc_ok (data_len image)) then
            (None, xyzpriv_set_error error XYZIMAGE_ERROR_OUT_OF_MEMORY)
          else
            (Some (set_data image (Some (fresh (data_len image)))), error)
      end
  | _ => (None, xyzpriv_set_error error XYZIMAGE_ERROR_FORMAT_NOT_SUPPORTED)
  end.

Definition xyzimage_is_valid (image : option XYZImage) : bool :=
  match image with
  | None => false
  | Some image =>
      if negb (bytes_eqb (firstn 4 (header image)) [chr_L; chr_X; chr_Y; chr_Z])
      then false
      else if negb (version image =? 1) then false
      else true
  end.

(** The returned flag and what is left of the block: on success the struct
    is scrubbed, its pixel buffer is freed ([free(image->data)]) and then the
    struct itself ([free(image)]). *)
Definition xyzimage_free (image : option XYZImage) : Z * block :=
  if negb (xyzimage_is_valid image) then (0, Kept image)
  else
    match image with
    | None => (0, Kept image)
    | Some img =>
        let img := set_header0 img chr_bang in
        let img := set_data img None in
        let img := set_data_len img 0 in
        (1, Freed img)
    end.

Definition xyzimage_get_width (image : option XYZImage) : Z :=
  if negb (xyzimage_is_valid image) then 0
  else match image with Some img => width img | None => 0 end.

Definition xyzimage_get_height (image : option XYZImage) : Z :=
  if negb (xyzimage_is_valid image) then 0
  else match image with Some img => height img | None => 0 end.

Definition xyzimage_get_palette (image : option XYZImage) (error : errptr)
    : option XYZImage_Palette * errptr :=
  let error := xyzpriv_set_error error XYZIMAGE_ERROR_OK in
  if negb (xyzimage_is_valid image) then
    (None, xyzpriv_set_error error XYZIMAGE_ERROR_XYZIMAGE_INVALID)
  else
    match image with
    | None => (None, xyzpriv_set_error error XYZIMAGE_ERROR_XYZIMAGE_INVALID)
    | Some img =>
        match format img with
        | XYZIMAGE_FORMAT_DEFAULT => (Some (palette img), error)
        | _ => (None, xyzpriv_set_error error XYZIMAGE_ERROR_IMAGE_NOT_INDEXED)
        end
    end.

Definition xyzimage_get_format (image : option XYZImage) : XYZImage_Format :=
  if negb (xyzimage_is_valid image) then XYZIMAGE_FORMAT_NONE
  else match image with Some img => format img | None => XYZIMAGE_FORMAT_NONE end.

(** [lenp] is the cell [len] points to ([None]: a NULL [len]). *)
Definition xyzimage_get_buffer (image : option XYZImage) (lenp : option Z)
    : option (list byte) * option Z :=
  if negb (xyzimage_is_valid image) then (None, lenp)
  else
    match image with
    | None => (None, lenp)
    | Some img =>
        (data img, match lenp with Some _ => Some (data_len img) | None => None end)
    end.

Definition xyzimage_get_filesize (image : option XYZImage) : Z :=
  if negb (xyzimage_is_valid image) then 0
  else
    match image with
    | None => 0
    | Some img =>
        usize (u32 (u32 (u32 (width img * height img) + XYZPRIV_HEADER_SIZE)
                    + XYZIMAGE_PALETTE_SIZE))
    end.

Definition xyzimage_get_compressed_filesize (image : option XYZImage) : Z :=
  if negb (xyzimage_is_valid image) then 0
  else
    match image with
    | None => 0
    | Some img => usize (data_len_compressed img + XYZPRIV_HEADER_SIZE)
    end.

(** The memory [image] points to after the call. *)
Definition xyzimage_set_compress_func (image : option XYZImage)
    (compress_func : option xyzimage_compress_func_t) : option XYZImage :=
  if negb (xyzimage_is_valid image) then image
  else
    match image with
    | None => image
    | Some img =>
        match compress_func with
        | None => Some (set_compress img xyzpriv_compress_func)
        | Some f => Some (set_compress img f)
        end
    end.

(** ** Decoding *)

Definition xyz_magic : list byte := [chr_X; chr_Y; chr_Z; chr_1].

(** [realloc(p, n)]: the old content, cut or extended to [n] bytes. *)
Definition realloc (old : list byte) (n : Z) : list byte :=
  firstn (Z.to_nat n) (old ++ fresh (n - len old)).

(** The palette loop of [xyzimage_open]: entry [i] is read from bytes
    [3i], [3i+1], [3i+2] of the inflated buffer, for [i] from 0 to 255. *)
Definition read_palette (decompressed : list byte) : XYZImage_Palette :=
  mkPalette
    (map (fun i => mkEntry (nth (i * 3) decompressed x00)
                           (nth (i * 3 + 1) decompressed x00)
                           (nth (i * 3 + 2) decompressed x00))
         (seq 0 (Z.to_nat XYZIMAGE_PALETTE_ENTRIES))).

(** [xyzimage_open], from "Fill the data structures" to its end. *)
Definition xyzimage_open_fill {U} (image : XYZImage) (decompressed : list byte)
    (error : errptr) (userdata : U) (log : list event) : open_result U :=
  let image := set_palette image (read_palette decompressed) in
  let '(img_buffer, img_buffer_len) := xyzimage_get_buffer (Some image) (Some 0) in
  match img_buffer, img_buffer_len with
  | Some buf, Some n =>
      let buf := memcpy buf 0 (skipn (Z.to_nat XYZIMAGE_PALETTE_SIZE) decompressed) n in
      mkOpen (Some (set_data image (Some buf))) error userdata log
  | _, _ => mkOpen None error userdata log
  end.

(** [xyzimage_open], from "Decompress the XYZ image" on: [compressed] holds
    the [res] bytes that were read. *)
Definition xyzimage_open_inflate {U} (image : XYZImage) (xyz_size : Z)
    (compressed : list byte) (res : Z)
    (error : errptr) (userdata : U) (log : list event) : open_result U :=
  let image := set_data_len_compressed image res in
  let '(zlib_error, out) := uncompress (firstn (Z.to_nat res) compressed) xyz_size in
  let decompressed := memcpy (fresh xyz_size) 0 out (len out) in
  let xyz_size_out := len out in
  if negb (zlib_error =? Z_OK) then
    mkOpen None (xyzpriv_set_error error XYZIMAGE_ERROR_ZLIB) userdata log
  else if negb (xyz_size_out =? xyz_size) then
    mkOpen None (xyzpriv_set_error error XYZIMAGE_ERROR_IO_READ_IMAGE_TOO_SMALL)
           userdata log
  else xyzimage_open_fill image decompressed error userdata log.

(** [xyzimage_open], from "Read the XYZ image" on: both scratch buffers
    of [xyz_size] bytes have been obtained. *)
Definition xyzimage_open_payload {U} (read_func : xyzimage_read_func_t U)
    (image : XYZImage) (xyz_size : Z)
    (error : errptr) (userdata : U) (log : list event) : open_result U :=
  let e := XYZIMAGE_ERROR_OK in
  let '(got, s, userdata) := read_func userdata xyz_size in
  let e := match s with Some which => which | None => e end in
  let res := len got in
  let compressed := memcpy (fresh xyz_size) 0 got res in
  let log := log ++ [EvRead xyz_size] in
  if error_eqb e XYZIMAGE_ERROR_OK then
    let log := log ++ [EvAlloc compressed_xyz (usize (xyz_size * 2))] in
    if negb (malloc_ok (usize (xyz_size * 2))) then
      mkOpen None (xyzpriv_set_error error XYZIMAGE_ERROR_OUT_OF_MEMORY) userdata log
    else
      let compressed := realloc compressed (usize (xyz_size * 2)) in
      let '(got, s, userdata) := read_func userdata xyz_size in
      let e := match s with Some which => which | None => e end in
      let compressed := memcpy compressed xyz_size got (len got) in
      let res := usize (res + len got) in
      let log := log ++ [EvRead xyz_size] in
      if negb (error_eqb e XYZIMAGE_ERROR_IO_READ_END_OF_FILE) then
        if error_eqb e XYZIMAGE_ERROR_OK then
          mkOpen None (xyzpriv_set_error error XYZIMAGE_ERROR_IO_READ_IMAGE_TOO_BIG)
                 userdata log
        else mkOpen None (xyzpriv_set_error error e) userdata log
      else xyzimage_open_inflate image xyz_size compressed res error userdata log
  else
    if negb (error_eqb e XYZIMAGE_ERROR_IO_READ_END_OF_FILE) then
      if error_eqb e XYZIMAGE_ERROR_OK then
        mkOpen None (xyzpriv_set_error error XYZIMAGE_ERROR_IO_READ_IMAGE_TOO_BIG)
               userdata log
      else mkOpen None (xyzpriv_set_error error e) userdata log
    else xyzimage_open_inflate image xyz_size compressed res error userdata log.

(** [xyzimage_open].  On its failure paths the source releases the handle it
    built and its scratch buffers before it returns NULL; as nothing of them
    is returned, these releases leave no trace in the result. *)
Definition xyzimage_open {U} (userdata : U)
    (read_func : option (xyzimage_read_func_t U)) (error : errptr) : open_result U :=
  let error := xyzpriv_set_error error XYZIMAGE_ERROR_OK in
  match read_func with
  | None => mkOpen None (xyzpriv_set_error error XYZIMAGE_ERROR_POINTER_BAD) userdata []
  | Some read_func =>
    let '(xyz_header, s, userdata) := read_func userdata 4 in
    let error := callback_error error s in
    let res := len xyz_header in
    let log := [EvRead 4] in
    if negb (res =? 4) || error_is_set error then mkOpen None error userdata log
    else if negb (bytes_eqb (firstn 4 xyz_header) xyz_magic) then
      mkOpen None (xyzpriv_set_error error XYZIMAGE_ERROR_IO_READ_BAD_HEADER) userdata log
    else
    let '(got, s, userdata) := read_func userdata 2 in
    let error := callback_error error s in
    let res := len got in
    let log := log ++ [EvRead 2] in
    if negb (res =? 2) || error_is_set error then mkOpen None error userdata log
    else
    let width0 := xyzpriv_swap_when_big (load_u16 got) in
    let '(got, s, userdata) := read_func userdata 2 in
    let error := callback_error error s in
    let res := len got in
    let log := log ++ [EvRead 2] in
    if negb (res =? 2) || error_is_set error then mkOpen None error userdata log
    else
    let height0 := xyzpriv_swap_when_big (load_u16 got) in
    let '(image, error) := xyzimage_alloc width0 height0 XYZIMAGE_FORMAT_DEFAULT error in
    match image with
    | None => mkOpen None error userdata log
    | Some image =>
      if error_is_set error then mkOpen None error userdata log
      else
      let xyz_size :=
        usize (u32 (XYZIMAGE_PALETTE_SIZE + u32 (width image * height image))) in
      let log := log ++ [EvAlloc compressed_xyz xyz_size] in
      if negb (malloc_ok xyz_size) then
        mkOpen None (xyzpriv_set_error error XYZIMAGE_ERROR_OUT_OF_MEMORY) userdata log
      else
      let log := log ++ [EvAlloc decompressed_xyz xyz_size] in
      if negb (malloc_ok xyz_size) then
        mkOpen None (xyzpriv_set_error error XYZIMAGE_ERROR_OUT_OF_MEMORY) userdata log
      else xyzimage_open_payload read_func image xyz_size error userdata log
    end
  end.

Definition xyzimage_fopen (file : option FILE) (error : errptr)
    : open_result (option FILE) :=
  let error := xyzpriv_set_error error XYZIMAGE_ERROR_OK in
  match file with
  | None => mkOpen None (xyzpriv_set_error error XYZIMAGE_ERROR_POINTER_BAD) file []
  | Some _ => xyzimage_open file (Some xyzpriv_fread_func) error
  end.

(** ** Encoding *)

(** The palette loop of [xyzimage_write]: bytes [3i], [3i+1], [3i+2] of the
    buffer receive entry [i], for [i] from 0 to 255. *)
Definition palette_bytes (p : XYZImage_Palette) : list byte :=
  flat_map (fun i => let e := nth i (entry p) zero_entry in [red e; green e; blue e])
           (seq 0 (Z.to_nat XYZIMAGE_PALETTE_ENTRIES)).

Definition data_bytes (image : XYZImage) : list byte :=
  match data image with Some d => d | None => [] end.

(** [xyzimage_write], "Fill the buffer": the fresh buffer of [xyz_size]
    bytes after the palette loop and the [memcpy] of the pixel data. *)
Definition xyzimage_write_fill (image : XYZImage) (xyz_size : Z) : list byte :=
  let decompressed := fresh xyz_size in
  let decompressed :=
    memcpy decompressed 0 (palette_bytes (palette image)) XYZIMAGE_PALETTE_SIZE in
  memcpy decompressed XYZIMAGE_PALETTE_SIZE (data_bytes image) (data_len image).

(** [xyzimage_write], from the test of the compression result on:
    [compressed] holds [compressed_size] bytes. *)
Definition xyzimage_write_emit {U} (write_func : xyzimage_write_func_t U)
    (image : XYZImage) (compressed : list byte) (compressed_size : Z)
    (error : errptr) (userdata : U) (log : list event) : write_result U :=
  if (compressed_size =? 0) || error_is_set error then
    mkWrite 0 (Kept (Some image)) error userdata log
  else
  let image := set_data_len_compressed image compressed_size in
  let xyz_header := [chr_X; chr_Y; chr_Z; chr_1] in
  let '(res, s, userdata) := write_func userdata xyz_header in
  let error := callback_error error s in
  let log := log ++ [EvWrite xyz_header] in
  if negb (res =? 4) || error_is_set error then
    mkWrite 0 (Kept (Some image)) error userdata log
  else
  let width0 := xyzpriv_swap_when_big (width image) in
  let '(res, s, userdata) := write_func userdata (store_u16 width0) in
  let error := callback_error error s in
  let log := log ++ [EvWrite (store_u16 width0)] in
  if negb (res =? 2) || error_is_set error then
    mkWrite 0 (Kept (Some image)) error userdata log
  else
  let height0 := xyzpriv_swap_when_big (height image) in
  let '(res, s, userdata) := write_func userdata (store_u16 height0) in
  let error := callback_error error s in
  let log := log ++ [EvWrite (store_u16 height0)] in
  if negb (res =? 2) || error_is_set error then
    mkWrite 0 (Kept (Some image)) error userdata log
  else
  let payload := firstn (Z.to_nat compressed_size) compressed in
  let '(res, s, userdata) := write_func userdata payload in
  let error := callback_error error s in
  let log := log ++ [EvWrite payload] in
  if negb (res =? compressed_size) || error_is_set error then
    mkWrite 0 (Kept (Some image)) error userdata log
  else mkWrite 1 (Kept (Some image)) error userdata log.

(** [xyzimage_write].  The handle belongs to the caller: [w_image] is what
    the call leaves of its block.  When the [realloc] of the compressed
    buffer is refused the source calls [xyzimage_free] on the handle. *)
Definition xyzimage_write {U} (image : option XYZImage) (userdata : U)
    (write_func : option (xyzimage_write_func_t U)) (error : errptr) : write_result U :=
  let error := xyzpriv_set_error error XYZIMAGE_ERROR_OK in
  if negb (xyzimage_is_valid image) then
    mkWrite 0 (Kept image) (xyzpriv_set_error error XYZIMAGE_ERROR_XYZIMAGE_INVALID) userdata []
  else
  match image with
  | None =>
    mkWrite 0 (Kept image) (xyzpriv_set_error error XYZIMAGE_ERROR_XYZIMAGE_INVALID) userdata []
  | Some img =>
  match write_func with
  | None => mkWrite 0 (Kept image) (xyzpriv_set_error error XYZIMAGE_ERROR_POINTER_BAD) userdata []
  | Some write_func =>
  match format img with
  | XYZIMAGE_FORMAT_DEFAULT =>
    let xyz_size :=
      usize (u32 (XYZIMAGE_PALETTE_SIZE + u32 (width img * height img))) in
    let log := [EvAlloc decompressed_xyz xyz_size] in
    if negb (malloc_ok xyz_size) then
      mkWrite 0 (Kept image) (xyzpriv_set_error error XYZIMAGE_ERROR_OUT_OF_MEMORY) userdata log
    else
    let decompressed := xyzimage_write_fill img xyz_size in
    let log := log ++ [EvAlloc compressed_xyz xyz_size] in
    if negb (malloc_ok xyz_size) then
      mkWrite 0 (Kept image) (xyzpriv_set_error error XYZIMAGE_ERROR_OUT_OF_MEMORY) userdata log
    else
    let compressed := fresh xyz_size in
    let e := XYZIMAGE_ERROR_OK in
    let '(compressed_size, compressed, s) :=
      compress_func img decompressed xyz_size compressed xyz_size in
    let e := match s with Some which => which | None => e end in
    let log := log ++ [EvCompress xyz_size] in
    if error_eqb e XYZIMAGE_ERROR_BUFFER_TOO_SMALL then
      let log := log ++ [EvAlloc compressed_xyz (usize (xyz_size * 2))] in
      if negb (malloc_ok (usize (xyz_size * 2))) then
        mkWrite 0 (snd (xyzimage_free image))
                (xyzpriv_set_error error XYZIMAGE_ERROR_OUT_OF_MEMORY) userdata log
      else
      let compressed := realloc compressed (usize (xyz_size * 2)) in
      let '(compressed_size, compressed, s) :=
        compress_func img decompressed xyz_size compressed (usize (xyz_size * 2)) in
      let error := callback_error error s in
      let log := log ++ [EvCompress (usize (xyz_size * 2))] in
      xyzimage_write_emit write_func img compressed compressed_size error userdata log
    else
      let error := xyzpriv_set_error error e in
      xyzimage_write_emit write_func img compressed compressed_size error userdata log
  | _ =>
    mkWrite 0 (Kept image) (xyzpriv_set_error error XYZIMAGE_ERROR_FORMAT_NOT_SUPPORTED)
            userdata []
  end
  end
  end.

Definition xyzimage_fwrite (image : option XYZImage) (file : option FILE)
    (error : errptr) : write_result (option FILE) :=
  let error := xyzpriv_set_error error XYZIMAGE_ERROR_OK in
  if negb (xyzimage_is_valid image) then
    mkWrite 0 (Kept image) (xyzpriv_set_error error XYZIMAGE_ERROR_XYZIMAGE_INVALID) file []
  else
    match file with
    | None => mkWrite 0 (Kept image) (xyzpriv_set_error error XYZIMAGE_ERROR_POINTER_BAD) file []
    | Some _ => xyzimage_write image file (Some xyzpriv_fwrite_func) error
    end.

End Codec.

(** ** The nominal size and the conditions the theorems speak of *)

Definition nominal (w h : Z) : Z := 768 + w * h.

(** The documented behaviour of zlib the round trip relies on:
    [compressBound] stays below twice the source length from 768 bytes on;
    [compress2] succeeds when given [compressBound] bytes of room and
    produces a non-empty stream within that bound; [uncompress] gives back
    the source of a stream [compress2] produced, when given enough room. *)
Definition zlib_contract {P : Platform} : Prop :=
  (forall n, 768 <= n -> 0 <= compressBound n < 2 * n) /\
  (forall src lvl,
      fst (compress2 src (compressBound (len src)) lvl) = Z_OK /\
      0 < len (snd (compress2 src (compressBound (len src)) lvl))
        <= compressBound (len src)) /\
  (forall src cap lvl out room,
      compress2 src cap lvl = (Z_OK, out) ->
      len src <= room ->
      uncompress out room = (Z_OK, src)).

(** The three bytes of a palette entry in the payload. *)
Definition triple (e : XYZImage_PaletteEntry) : list byte := [red e; green e; blue e].

(** The code the first compression call leaves in the local cell [e]. *)
Definition first_code (s : errset) : xyzimage_error_t :=
  match s with Some which => which | None => XYZIMAGE_ERROR_OK end.

(** ** What a read source delivers *)

(** The callback stored no failure code. *)
Definition quiet (s : errset) : Prop :=
  s = None \/ s = Some XYZIMAGE_ERROR_OK.

(** A 16-bit value on the wire: low byte, then high byte. *)
Definition le16 (v : Z) : list byte := [byte_of_Z v; byte_of_Z (v / 256)].

(** From [ud] the source delivers the magic and the dimensions [w] and [h],
    each by a read that stores no failure code, and is then in [ud']. *)
Definition reads_header {U} (rd : xyzimage_read_func_t U) (ud : U) (w h : Z) (ud' : U)
    : Prop :=
  exists s0 ud1 s1 ud2 s2,
    rd ud 4 = (xyz_magic, s0, ud1) /\ quiet s0 /\
    rd ud1 2 = (le16 w, s1, ud2) /\ quiet s1 /\
    rd ud2 2 = (le16 h, s2, ud') /\ quiet s2.

(** From [ud] the source delivers [payload] and signals the end of the
    stream, either in the first read of [n] bytes or, after a first read
    that delivered [n] bytes and stored no failure code, in the second. *)
Definition reads_payload {U} (rd : xyzimage_read_func_t U) (ud : U) (n : Z)
    (payload : list byte) (ud' : U) : Prop :=
  (rd ud n = (payload, Some XYZIMAGE_ERROR_IO_READ_END_OF_FILE, ud') /\
   len payload <= n) \/
  (exists p1 s ud1 p2,
      rd ud n = (p1, s, ud1) /\ quiet s /\ len p1 = n /\
      rd ud1 n = (p2, Some XYZIMAGE_ERROR_IO_READ_END_OF_FILE, ud') /\
      len p2 <= n /\ payload = p1 ++ p2).

(** The allocator grants every request a decode of a [w] x [h] image makes. *)
Definition decode_memory {P : Platform} (w h : Z) : Prop :=
  malloc_ok (w * h) = true /\
  malloc_ok (nominal w h) = true /\
  malloc_ok (2 * nominal w h) = true.

(** The handle [xyzimage_alloc] returns for [w] x [h]. *)
Definition blank_image {P : Platform} (w h : Z) : XYZImage :=
  {| header := [chr_L; chr_X; chr_Y; chr_Z];
     version := 1;
     width := w;
     height := h;
     format := XYZIMAGE_FORMAT_DEFAULT;
     palette := mkPalette (repeat zero_entry 256);
     data_len := w * h;
     data_len_compressed := 0;
     data := Some (fresh (w * h));
     compress_func := xyzpriv_compress_func |}.

(** The handle [xyzimage_open] builds from [w] x [h], a compressed size, a
    palette and pixels. *)
Definition decoded_image {P : Platform} (w h csize : Z) (p : XYZImage_Palette) (d : list byte)
    : XYZImage :=
  set_data (set_palette (set_data_len_compressed (blank_image w h) csize) p) (Some d).

(** ** The public operations on a handle

    A call of the API that takes a handle, and what the call leaves of the
    handle's block.  The accessors store nothing through the handle. *)
Inductive public_call (U : Type) :=
| call_is_valid
| call_get_width
| call_get_height
| call_get_palette (error : errptr)
| call_get_format
| call_get_buffer (lenp : option Z)
| call_get_filesize
| call_get_compressed_filesize
| call_set_compress_func (compress_func : option xyzimage_compress_func_t)
| call_write (userdata : U) (write_func : option (xyzimage_write_func_t U))
             (error : errptr)
| call_fwrite (file : option FILE) (error : errptr)
| call_free.
Arguments call_is_valid {U}.
Arguments call_get_width {U}.
Arguments call_get_height {U}.
Arguments call_get_palette {U}.
Arguments call_get_format {U}.
Arguments call_get_buffer {U}.
Arguments call_get_filesize {U}.
Arguments call_get_compressed_filesize {U}.
Arguments call_set_compress_func {U}.
Arguments call_write {U}.
Arguments call_fwrite {U}.
Arguments call_free {U}.

Definition after_call {P : Platform} {U} (c : public_call U) (image : option XYZImage)
    : block :=
  match c with
  | call_set_compress_func f => Kept (xyzimage_set_compress_func image f)
  | call_write userdata write_func error =>
      w_image (xyzimage_write image userdata write_func error)
  | call_fwrite file error => w_image (xyzimage_fwrite image file error)
  | call_free => snd (xyzimage_free image)
  | _ => Kept image
  end.

(** The path of [xyzimage_write] on which the [realloc] of the compressed
    buffer is asked for and refused: a write function is given, the format is
    the default one, both scratch buffers of [n] bytes are granted, the first
    call of the handle's compression function stores
    XYZIMAGE_ERROR_BUFFER_TOO_SMALL and the request for [2 * n] bytes is
    refused. *)
Definition realloc_refused {P : Platform} {U} (img : XYZImage)
    (write_func : option (xyzimage_write_func_t U)) : Prop :=
  let n := usize (u32 (XYZIMAGE_PALETTE_SIZE + u32 (width img * height img))) in
  write_func <> None /\
  format img = XYZIMAGE_FORMAT_DEFAULT /\
  malloc_ok n = true /\
  snd (compress_func img (xyzimage_write_fill img n) n (fresh n) n)
    = Some XYZIMAGE_ERROR_BUFFER_TOO_SMALL /\
  malloc_ok (usize (n * 2)) = false.

(** The allocator grants every request an encode followed by a decode of a
    [w] x [h] image makes. *)
Definition memory_suffices {P : Platform} (w h : Z) : Prop :=
  decode_memory w h /\
  malloc_ok (compressBound (nominal w h)) = true.

(** A live handle as [xyzimage_alloc] and [xyzimage_open] build it. *)
Definition handle_invariant (img : XYZImage) : Prop :=
  0 <= width img < 2 ^ 16 /\
  0 <= height img < 2 ^ 16 /\
  data_len img = width img * height img /\
  (exists d, data img = Some d /\ len d = data_len img) /\
  len (entry (palette img)) = XYZIMAGE_PALETTE_ENTRIES.

(** The amounts asked of the read function. *)
Fixpoint read_calls (log : list event) : list Z :=
  match log with
  | [] => []
  | EvRead n :: log' => n :: read_calls log'
  | _ :: log' => read_calls log'
  end.

(** ** Handles in memory

    The functions of the codec take what the pointer [image] refers to.
    Which block that is, is settled by the heap: [xyzimage_alloc] obtains the
    block from [malloc], [xyzimage_free] hands it back with [free], and the
    allocator may hand the same address out again.  A heap is the list of the
    blocks that are allocated, with their addresses; a pointer is an address
    or NULL.  A call that reads through a pointer to an address that is not
    allocated has no defined result ([Undefined]). *)
Module Heap.

Definition address := nat.
Definition pointer := option address.
Definition heap := list (address * XYZImage).

Inductive outcome (A : Type) :=
| Returns (a : A)
| Undefined.
Arguments Returns {A}.
Arguments Undefined {A}.

Fixpoint lookup (h : heap) (a : address) : option XYZImage :=
  match h with
  | [] => None
  | (b, img) :: h' => if Nat.eqb a b then Some img else lookup h' a
  end.

Fixpoint remove (h : heap) (a : address) : heap :=
  match h with
  | [] => []
  | (b, img) :: h' => if Nat.eqb a b then remove h' a else (b, img) :: remove h' a
  end.

(** The heap with [img] stored in the block at [a]. *)
Fixpoint store (h : heap) (a : address) (img : XYZImage) : heap :=
  match h with
  | [] => [(a, img)]
  | (b, old) :: h' =>
      if Nat.eqb a b then (b, img) :: h' else (b, old) :: store h' a img
  end.

(** What a function finds behind [image]: nothing is read for NULL. *)
Definition deref (h : heap) (image : pointer) : outcome (option XYZImage) :=
  match image with
  | None => Returns None
  | Some a =>
      match lookup h a with
      | Some img => Returns (Some img)
      | None => Undefined
      end
  end.

(** The heap after a call that leaves [b] of the block behind [image]. *)
Definition settle (h : heap) (image : pointer) (b : block) : heap :=
  match image, b with
  | Some a, Kept (Some img) => store h a img
  | Some a, Freed _ => remove h a
  | _, _ => h
  end.

(** A function that reads through the handle and stores nothing. *)
Definition reading {A} (f : option XYZImage -> A) (h : heap) (image : pointer)
    : outcome A :=
  match deref h image with
  | Returns m => Returns (f m)
  | Undefined => Undefined
  end.

Definition xyzimage_is_valid := reading xyzimage_is_valid.
Definition xyzimage_get_width := reading xyzimage_get_width.
Definition xyzimage_get_height := reading xyzimage_get_height.
Definition xyzimage_get_format := reading xyzimage_get_format.
Definition xyzimage_get_filesize := reading xyzimage_get_filesize.
Definition xyzimage_get_compressed_filesize := reading xyzimage_get_compressed_filesize.

Definition xyzimage_get_palette (h : heap) (image : pointer) (error : errptr) :=
  reading (fun m => xyzimage_get_palette m error) h image.

Definition xyzimage_get_buffer (h : heap) (image : pointer) (lenp : option Z) :=
  reading (fun m => xyzimage_get_buffer m lenp) h image.

(** [xyzimage_alloc]; [at_address] is the address [malloc] hands out for the
    struct, should the call come to ask for it: one that is not allocated,
    which may be one that was freed before.  When the [calloc] of the pixel
    buffer is refused the source returns NULL and leaves the struct
    allocated. *)
Definition xyzimage_alloc {P : Platform} (h : heap) (at_address : address)
    (width height : Z) (format : XYZImage_Format) (error : errptr)
    : pointer * errptr * heap :=
  match xyzimage_alloc width height format error with
  | (Some img, error) => (Some at_address, error, store h at_address img)
  | (None, error) =>
      match format, xyzpriv_alloc with
      | XYZIMAGE_FORMAT_DEFAULT, Some img =>
          (None, error, store h at_address (set_data_len (set_dims img width height) 0))
      | _, _ => (None, error, h)
      end
  end.

Definition xyzimage_free (h : heap) (image : pointer) : outcome (Z * heap) :=
  match deref h image with
  | Returns m =>
      let '(res, b) := xyzimage_free m in
      Returns (res, settle h image b)
  | Undefined => Undefined
  end.

Definition xyzimage_write {P : Platform} {U} (h : heap) (image : pointer) (userdata : U)
    (write_func : option (xyzimage_write_func_t U)) (error : errptr)
    : outcome (write_result U * heap) :=
  match deref h image with
  | Returns m =>
      let r := xyzimage_write m userdata write_func error in
      Returns (r, settle h image (w_image r))
  | Undefined => Undefined
  end.

End Heap.

(** ** The older revision of the file

    The second half of [src/xyzimage.c] is an older revision of the same
    functions.  Its compression function compresses first and compares the
    size produced, not the bound, with the capacity. *)
Module Legacy.

Definition xyzpriv_compress_func {P : Platform} : xyzimage_compress_func_t :=
  fun buffer_in len_in buffer_out len_out =>
    let comp_size := compressBound len_in in
    if negb (malloc_ok comp_size) then
      (0, buffer_out, Some XYZIMAGE_ERROR_OUT_OF_MEMORY)
    else
      let '(error_code, buffer_out_tmp) :=
        compress2 (firstn (Z.to_nat len_in) buffer_in) comp_size Z_BEST_COMPRESSION in
      let comp_size := len buffer_out_tmp in
      if negb (error_code =? Z_OK) then
        (0, buffer_out, Some XYZIMAGE_ERROR_IO_COMPRESS)
      else if comp_size >? len_out then
        (0, buffer_out, Some XYZIMAGE_ERROR_BUFFER_TOO_SMALL)
      else
        (comp_size, memcpy buffer_out 0 buffer_out_tmp comp_size, None).

End Legacy.

(** ** A stand-in for zlib that stores the data behind a one-byte tag, on
    hosts of either byte order whose allocator grants every request *)

Module Stored.

Definition Z_BUF_ERROR : Z := -5.
Definition Z_DATA_ERROR : Z := -3.

Definition stored_compressBound (n : Z) : Z :=
  n + Z.shiftr n 12 + Z.shiftr n 14 + Z.shiftr n 25 + 13.

Definition stored_compress2 (src : list byte) (room level : Z) : Z * list byte :=
  if len src + 1 <=? room then (Z_OK, x78 :: src) else (Z_BUF_ERROR, []).

Definition stored_uncompress (src : list byte) (room : Z) : Z * list byte :=
  match src with
  | x78 :: rest => if len rest <=? room then (Z_OK, rest) else (Z_BUF_ERROR, [])
  | _ => (Z_DATA_ERROR, [])
  end.

Definition little : Platform :=
  {| host_is_big := false;
     malloc_ok := fun _ => true;
     compressBound := stored_compressBound;
     compress2 := stored_compress2;
     uncompress := stored_uncompress |}.

Definition big : Platform :=
  {| host_is_big := true;
     malloc_ok := fun _ => true;
     compressBound := stored_compressBound;
     compress2 := stored_compress2;
     uncompress := stored_uncompress |}.

(** The image of the concrete scenario: 2 x 2, every pixel 5, palette entry
    5 = (10, 20, 30), on the platform [P]. *)
Definition scenario_palette : XYZImage_Palette :=
  mkPalette (repeat zero_entry 5 ++ [mkEntry x0a x14 x1e] ++ repeat zero_entry 250).

Definition scenario_image {P : Platform} : XYZImage :=
  {| header := [chr_L; chr_X; chr_Y; chr_Z];
     version := 1;
     width := 2;
     height := 2;
     format := XYZIMAGE_FORMAT_DEFAULT;
     palette := scenario_palette;
     data_len := 4;
     data_len_compressed := 0;
     data := Some [x05; x05; x05; x05];
     compress_func := xyzpriv_compress_func |}.

(** A 258 x 1 image (width 0x0102), every pixel 5. *)
Definition wide_image {P : Platform} : XYZImage :=
  {| header := [chr_L; chr_X; chr_Y; chr_Z];
     version := 1;
     width := 258;
     height := 1;
     format := XYZIMAGE_FORMAT_DEFAULT;
     palette := scenario_palette;
     data_len := 258;
     data_len_compressed := 0;
     data := Some (repeat x05 258);
     compress_func := xyzpriv_compress_func |}.

(** A compression function that asks for more room when given 772 bytes or
    fewer, and fails otherwise; and the scenario image with it installed. *)
Definition stubborn_compress : xyzimage_compress_func_t :=
  fun buffer_in len_in buffer_out len_out =>
    if len_out <=? 772
    then (0, buffer_out, Some XYZIMAGE_ERROR_BUFFER_TOO_SMALL)
    else (0, buffer_out, Some XYZIMAGE_ERROR_IO_COMPRESS).

Definition stubborn_image {P : Platform} : XYZImage :=
  set_compress scenario_image stubborn_compress.

(** A struct whose marker does not match: memory that is not a handle. *)
Definition not_a_handle {P : Platform} : XYZImage :=
  set_header0 scenario_image chr_question.

Definition empty_file : FILE := mkFILE [] false false.

Definition file_of (bs : list byte) : FILE := mkFILE bs false false.

(** A stream that starts with "ABCD". *)
Definition bad_magic_file : FILE := file_of [x41; x42; x43; x44].

(** The header of a 0 x 0 image followed by 1600 bytes: more than twice
    the nominal 768. *)
Definition oversized_file : FILE :=
  file_of (xyz_magic ++ le16 0 ++ le16 0 ++ repeat x00 1600).

(** The header of a 2 x 2 image followed by a stream that inflates to 770
    bytes instead of 772. *)
Definition short_payload : list byte := x78 :: repeat x00 770.

Definition short_payload_file : FILE :=
  file_of (xyz_magic ++ le16 2 ++ le16 2 ++ short_payload).

(** A host that grants requests of up to 1000 bytes only. *)
Definition tight : Platform :=
  {| host_is_big := false;
     malloc_ok := fun n => n <=? 1000;
     compressBound := stored_compressBound;
     compress2 := stored_compress2;
     uncompress := stored_uncompress |}.

(** The 2 x 2 scenario as a stream: header, tag, palette and pixels. *)
Definition scenario_stream : list byte :=
  xyz_magic ++ le16 2 ++ le16 2
    ++ x78 :: palette_bytes scenario_palette ++ [x05; x05; x05; x05].

(** The header of a 2 x 2 image followed by bytes that are no stream. *)
Definition garbage_file : FILE :=
  file_of (xyz_magic ++ le16 2 ++ le16 2 ++ [x00; x01; x02]).

(** A stream cut after the magic and the first byte of the width. *)
Definition truncated_file : FILE := file_of (xyz_magic ++ [x02]).

(** A stream whose device fails. *)
Definition faulty_file : FILE := mkFILE [] false true.

End Stored.

(** * Properties *)

(** ** Lists, lengths and buffers *)

Lemma len_nonneg {A} (l : list A) : 0 <= len l.
Proof. unfold len. lia. Qed.

Lemma len_app {A} (a b : list A) : len (a ++ b) = len a + len b.
Proof. unfold len. rewrite length_app. lia. Qed.

Lemma len_cons {A} (x : A) (l : list A) : len (x :: l) = 1 + len l.
Proof. unfold len. cbn [length]. lia. Qed.

Lemma len_nil {A} : len (@nil A) = 0.
Proof. reflexivity. Qed.

Lemma len_fresh n : 0 <= n -> len (fresh n) = n.
Proof. intros H. unfold len, fresh. rewrite repeat_length. lia. Qed.

Lemma len_firstn {A} n (l : list A) :
  0 <= n -> len (firstn (Z.to_nat n) l) = Z.min n (len l).
Proof. intros H. unfold len. rewrite length_firstn. lia. Qed.

Lemma len_skipn {A} n (l : list A) :
  0 <= n -> len (skipn (Z.to_nat n) l) = Z.max 0 (len l - n).
Proof. intros H. unfold len. rewrite length_skipn. lia. Qed.

Lemma firstn_len_all {A} n (l : list A) : len l <= n -> firstn (Z.to_nat n) l = l.
Proof. intros H. apply firstn_all2. unfold len in H. lia. Qed.

Lemma skipn_len_all {A} n (l : list A) : len l <= n -> skipn (Z.to_nat n) l = [].
Proof. intros H. apply skipn_all2. unfold len in H. lia. Qed.

Lemma firstn_len_app {A} (a b : list A) : firstn (Z.to_nat (len a)) (a ++ b) = a.
Proof.
  unfold len. rewrite Nat2Z.id.
  rewrite firstn_app, Nat.sub_diag, firstn_all. cbn. apply app_nil_r.
Qed.

Lemma skipn_len_app {A} (a b : list A) : skipn (Z.to_nat (len a)) (a ++ b) = b.
Proof.
  unfold len. rewrite Nat2Z.id.
  rewrite skipn_app, Nat.sub_diag, skipn_all. reflexivity.
Qed.

(** Copying [n] bytes to the start of a buffer of [n] bytes replaces it. *)
Lemma memcpy_whole dst src :
  len dst = len src -> memcpy dst 0 src (len src) = src.
Proof.
  intros H. unfold memcpy. cbn [Z.to_nat firstn app].
  rewrite firstn_len_all by lia.
  rewrite skipn_len_all by lia. apply app_nil_r.
Qed.

(** Copying to the start of a larger buffer: the copied bytes come first. *)
Lemma memcpy_head dst src :
  len src <= len dst ->
  firstn (Z.to_nat (len src)) (memcpy dst 0 src (len src)) = src.
Proof.
  intros H. unfold memcpy. cbn [Z.to_nat firstn app].
  rewrite (firstn_len_all (len src) src) by lia.
  apply firstn_len_app.
Qed.

Lemma len_memcpy dst off src n :
  0 <= off -> 0 <= n -> n <= len src -> off + n <= len dst ->
  len (memcpy dst off src n) = len dst.
Proof.
  intros Ho Hn Hs Hd. unfold memcpy.
  rewrite !len_app, !len_firstn, len_skipn by lia. lia.
Qed.

Lemma bytes_eqb_eq a b : bytes_eqb a b = true <-> a = b.
Proof.
  revert b. induction a as [| x a IH]; intros [| y b]; cbn; split;
    try congruence; try reflexivity.
  - intros H. apply andb_prop in H as [Hx Hr].
    apply Byte.byte_dec_bl in Hx. apply IH in Hr. congruence.
  - intros H. inversion H; subst.
    rewrite (Byte.byte_dec_lb eq_refl). cbn. apply IH. reflexivity.
Qed.

Lemma bytes_eqb_neq a b : a <> b -> bytes_eqb a b = false.
Proof.
  intros H. destruct (bytes_eqb a b) eqn:E; [|reflexivity].
  apply bytes_eqb_eq in E. contradiction.
Qed.

(** ** Bytes and 16-bit words *)

Lemma byte_to_Z_range b : 0 <= byte_to_Z b < 256.
Proof.
  unfold byte_to_Z. pose proof (Byte.to_N_bounded b). lia.
Qed.

Lemma byte_of_to_Z b : byte_of_Z (byte_to_Z b) = b.
Proof.
  unfold byte_of_Z. pose proof (byte_to_Z_range b).
  rewrite Z.mod_small by lia. unfold byte_to_Z.
  rewrite N2Z.id, Byte.of_to_N. reflexivity.
Qed.

Lemma byte_to_of_Z z : byte_to_Z (byte_of_Z z) = z mod 256.
Proof.
  unfold byte_of_Z, byte_to_Z.
  pose proof (Z.mod_pos_bound z 256 ltac:(lia)) as Hb.
  destruct (Byte.of_N (Z.to_N (z mod 256))) as [b|] eqn:E.
  - apply Byte.to_of_N in E. rewrite E. lia.
  - apply Byte.of_N_None_iff in E. lia.
Qed.

(** A value below [2^8] shares no bit with a multiple of [2^8]. *)
Lemma land_low_high a b : 0 <= a < 256 -> Z.land a (b * 256) = 0.
Proof.
  intros Ha. apply Z.bits_inj'. intros n Hn.
  rewrite Z.land_spec, Z.bits_0.
  destruct (Z.ltb_spec n 8) as [Hlt|Hge].
  - change 256 with (2 ^ 8). rewrite Z.mul_pow2_bits_low by lia.
    apply andb_false_r.
  - replace (Z.testbit a n) with false; [reflexivity|].
    symmetry. destruct (Z.eq_dec a 0) as [E|E].
    + rewrite E. apply Z.bits_0.
    + apply Z.bits_above_log2; [lia|].
      apply Z.lt_le_trans with 8; [|lia].
      apply Z.log2_lt_pow2; [lia|]. change (2 ^ 8) with 256. lia.
Qed.

(** The exchange of the two bytes of a 16-bit word, in arithmetic. *)
Lemma swap_bytes_arith v :
  0 <= v < 2 ^ 16 ->
  u16 (Z.lor (Z.shiftr v 8) (Z.shiftl v 8)) = v / 256 + (v mod 256) * 256.
Proof.
  intros Hv. unfold u16.
  rewrite Z.shiftr_div_pow2, Z.shiftl_mul_pow2 by lia.
  change (2 ^ 8) with 256.
  rewrite <- Z.land_ones by lia.
  rewrite Z.land_lor_distr_l, !Z.land_ones by lia.
  assert (Hhi : 0 <= v / 256 < 256).
  { split; [apply Z.div_pos | apply Z.div_lt_upper_bound]; lia. }
  pose proof (Z.mod_pos_bound v 256 ltac:(lia)) as Hlo.
  rewrite (Z.mod_small (v / 256)) by lia.
  assert (Hm : (v * 256) mod 2 ^ 16 = (v mod 256) * 256).
  { rewrite (Z.div_mod v 256) at 1 by lia.
    replace ((256 * (v / 256) + v mod 256) * 256)
      with ((v mod 256) * 256 + (v / 256) * 2 ^ 16) by lia.
    rewrite Z.mod_add by lia. apply Z.mod_small. lia. }
  rewrite Hm.
  pose proof (land_low_high (v / 256) (v mod 256) Hhi) as Hl.
  rewrite <- Z.lxor_lor by exact Hl.
  symmetry. apply Z.add_nocarry_lxor. exact Hl.
Qed.

Lemma byte_of_Z_mod a b : a mod 256 = b mod 256 -> byte_of_Z a = byte_of_Z b.
Proof. intros H. unfold byte_of_Z. rewrite H. reflexivity. Qed.

Lemma le16_value v :
  0 <= v < 2 ^ 16 ->
  byte_to_Z (nth 0 (le16 v) x00) + 256 * byte_to_Z (nth 1 (le16 v) x00) = v.
Proof.
  intros Hv. cbn [le16 nth]. rewrite !byte_to_of_Z.
  rewrite (Z.mod_small (v / 256)).
  - rewrite (Z.div_mod v 256) at 3 by lia. lia.
  - split; [apply Z.div_pos | apply Z.div_lt_upper_bound]; lia.
Qed.

(** ** The palette loops *)

Lemma flat_map_nth_seq (l : list XYZImage_PaletteEntry) d :
  flat_map (fun i => triple (nth i l d)) (seq 0 (length l)) = flat_map triple l.
Proof.
  induction l as [| e l IH]; [reflexivity|].
  cbn [length seq flat_map nth]. f_equal.
  rewrite <- seq_shift, flat_map_concat_map, map_map.
  rewrite <- flat_map_concat_map. exact IH.
Qed.

Lemma palette_bytes_flat p :
  len (entry p) = XYZIMAGE_PALETTE_ENTRIES ->
  palette_bytes p = flat_map triple (entry p).
Proof.
  intros H. unfold palette_bytes.
  replace (Z.to_nat XYZIMAGE_PALETTE_ENTRIES) with (length (entry p))
    by (unfold len in H; lia).
  apply flat_map_nth_seq.
Qed.

Lemma len_flat_map_triple l : len (flat_map triple l) = 3 * len l.
Proof.
  induction l as [| e l IH]; [reflexivity|].
  cbn [flat_map]. rewrite len_app, IH, len_cons. change (len (triple e)) with 3. lia.
Qed.

Lemma len_palette_bytes p :
  len (entry p) = XYZIMAGE_PALETTE_ENTRIES ->
  len (palette_bytes p) = XYZIMAGE_PALETTE_SIZE.
Proof.
  intros H. rewrite palette_bytes_flat by exact H.
  rewrite len_flat_map_triple, H. reflexivity.
Qed.

(** Reading entry [i] back from bytes [3i], [3i+1], [3i+2]. *)
Lemma read_back_triples l rest :
  map (fun i => mkEntry (nth (i * 3) (flat_map triple l ++ rest) x00)
                        (nth (i * 3 + 1) (flat_map triple l ++ rest) x00)
                        (nth (i * 3 + 2) (flat_map triple l ++ rest) x00))
      (seq 0 (length l)) = l.
Proof.
  induction l as [| e l IH]; [reflexivity|].
  cbn [length seq map]. f_equal.
  - destruct e. reflexivity.
  - rewrite <- seq_shift, map_map.
    etransitivity; [|exact IH].
    apply map_ext. intros i. reflexivity.
Qed.

Lemma read_palette_bytes p rest :
  len (entry p) = XYZIMAGE_PALETTE_ENTRIES ->
  read_palette (palette_bytes p ++ rest) = p.
Proof.
  intros H. unfold read_palette. rewrite palette_bytes_flat by exact H.
  replace (Z.to_nat XYZIMAGE_PALETTE_ENTRIES) with (length (entry p))
    by (unfold len in H; lia).
  rewrite read_back_triples. destruct p. reflexivity.
Qed.

Lemma len_read_palette d : len (entry (read_palette d)) = XYZIMAGE_PALETTE_ENTRIES.
Proof. unfold read_palette, len. cbn [entry]. rewrite length_map, length_seq. reflexivity. Qed.

Section Properties.

Context {P : Platform}.

(** *** Byte order *)

(** On either host the two bytes handed to the sink are low byte, high byte. *)
Lemma store_swapped_is_le16 v :
  0 <= v < 2 ^ 16 -> store_u16 (xyzpriv_swap_when_big v) = le16 v.
Proof.
  intros Hv. unfold store_u16, xyzpriv_swap_when_big, le16.
  destruct host_is_big; cbn [negb]; [|reflexivity].
  rewrite swap_bytes_arith by exact Hv.
  assert (Hhi : 0 <= v / 256 < 256).
  { split; [apply Z.div_pos | apply Z.div_lt_upper_bound]; lia. }
  pose proof (Z.mod_pos_bound v 256 ltac:(lia)) as Hlo.
  f_equal; [|f_equal]; apply byte_of_Z_mod.
  - rewrite Z.div_add by lia. rewrite (Z.div_small (v / 256)) by lia.
    cbn [Z.add]. apply Z.mod_mod. lia.
  - rewrite Z.mod_add by lia. reflexivity.
Qed.

(** On either host two bytes from the source are taken as low byte, high byte. *)
Lemma swapped_load_is_le bs :
  xyzpriv_swap_when_big (load_u16 bs)
  = byte_to_Z (nth 0 bs x00) + 256 * byte_to_Z (nth 1 bs x00).
Proof.
  unfold xyzpriv_swap_when_big, load_u16.
  pose proof (byte_to_Z_range (nth 0 bs x00)) as H0.
  pose proof (byte_to_Z_range (nth 1 bs x00)) as H1.
  destruct host_is_big; cbn [negb]; [|lia].
  rewrite swap_bytes_arith by lia.
  set (b0 := byte_to_Z (nth 0 bs x00)) in *.
  set (b1 := byte_to_Z (nth 1 bs x00)) in *.
  rewrite <- (Z.div_unique (b0 * 256 + b1) 256 b0 b1) by lia.
  rewrite <- (Z.mod_unique (b0 * 256 + b1) 256 b0 b1) by lia.
  lia.
Qed.

Lemma swapped_load_range bs : 0 <= xyzpriv_swap_when_big (load_u16 bs) < 2 ^ 16.
Proof.
  rewrite swapped_load_is_le.
  pose proof (byte_to_Z_range (nth 0 bs x00)).
  pose proof (byte_to_Z_range (nth 1 bs x00)). lia.
Qed.

Lemma swapped_load_le16 v :
  0 <= v < 2 ^ 16 -> xyzpriv_swap_when_big (load_u16 (le16 v)) = v.
Proof. intros Hv. rewrite swapped_load_is_le. apply le16_value. exact Hv. Qed.

(** *** Sizes and the error cell *)

Lemma dims_product_range w h :
  0 <= w < 2 ^ 16 -> 0 <= h < 2 ^ 16 -> 0 <= w * h <= 4294836225.
Proof. intros Hw Hh. change (2 ^ 16) with 65536 in *. nia. Qed.

Lemma u32_dims w h :
  0 <= w < 2 ^ 16 -> 0 <= h < 2 ^ 16 -> u32 (w * h) = w * h.
Proof.
  intros Hw Hh. pose proof (dims_product_range w h Hw Hh).
  unfold u32. apply Z.mod_small. change (2 ^ 32) with 4294967296. lia.
Qed.

(** The C expression for [xyz_size] neither wraps in 32 bits nor in [size_t]. *)
Lemma xyz_size_nominal w h :
  0 <= w < 2 ^ 16 -> 0 <= h < 2 ^ 16 ->
  usize (u32 (XYZIMAGE_PALETTE_SIZE + u32 (w * h))) = nominal w h.
Proof.
  intros Hw Hh. pose proof (dims_product_range w h Hw Hh).
  rewrite u32_dims by assumption.
  unfold usize, u32, nominal, XYZIMAGE_PALETTE_SIZE, XYZIMAGE_PALETTE_ENTRIES.
  change (256 * 3) with 768.
  rewrite (Z.mod_small _ (2 ^ 32)) by (change (2 ^ 32) with 4294967296; lia).
  apply Z.mod_small. change (2 ^ 64) with 18446744073709551616. lia.
Qed.

Lemma double_nominal w h :
  0 <= w < 2 ^ 16 -> 0 <= h < 2 ^ 16 ->
  usize (nominal w h * 2) = 2 * nominal w h.
Proof.
  intros Hw Hh. pose proof (dims_product_range w h Hw Hh).
  unfold usize, nominal. rewrite Z.mod_small; [lia|].
  change (2 ^ 64) with 18446744073709551616. lia.
Qed.

Lemma nominal_range w h :
  0 <= w < 2 ^ 16 -> 0 <= h < 2 ^ 16 -> 768 <= nominal w h < 2 ^ 32.
Proof.
  intros Hw Hh. pose proof (dims_product_range w h Hw Hh).
  unfold nominal. change (2 ^ 32) with 4294967296. lia.
Qed.

Lemma error_not_set error :
  error_is_set (xyzpriv_set_error error XYZIMAGE_ERROR_OK) = false.
Proof. destruct error; reflexivity. Qed.

Lemma set_error_twice error a b :
  xyzpriv_set_error (xyzpriv_set_error error a) b = xyzpriv_set_error error b.
Proof. destruct error; reflexivity. Qed.

Lemma quiet_callback error s :
  quiet s ->
  callback_error (xyzpriv_set_error error XYZIMAGE_ERROR_OK) s
  = xyzpriv_set_error error XYZIMAGE_ERROR_OK.
Proof. intros [-> | ->]; destruct error; reflexivity. Qed.

Lemma quiet_local s :
  quiet s ->
  match s with Some which => which | None => XYZIMAGE_ERROR_OK end = XYZIMAGE_ERROR_OK.
Proof. intros [-> | ->]; reflexivity. Qed.

Lemma error_eqb_eq a b : error_eqb a b = true <-> a = b.
Proof. split; [destruct a, b; cbn; congruence | intros ->; destruct b; reflexivity]. Qed.

(** *** Allocation *)

Lemma alloc_blank w h error :
  0 <= w < 2 ^ 16 -> 0 <= h < 2 ^ 16 ->
  malloc_ok (w * h) = true ->
  xyzimage_alloc w h XYZIMAGE_FORMAT_DEFAULT error
  = (Some (blank_image w h), xyzpriv_set_error error XYZIMAGE_ERROR_OK).
Proof.
  intros Hw Hh Hm. unfold xyzimage_alloc, xyzpriv_alloc.
  cbn [set_dims set_data_len set_data data_len header version width height
       format palette data_len_compressed data compress_func].
  rewrite Z.mul_1_r. rewrite !u32_dims by assumption.
  rewrite Hm. reflexivity.
Qed.

(** *** Decoding: from the header to the payload *)

Lemma alloc_refused w h error :
  0 <= w < 2 ^ 16 -> 0 <= h < 2 ^ 16 ->
  malloc_ok (w * h) = false ->
  xyzimage_alloc w h XYZIMAGE_FORMAT_DEFAULT error
  = (None, xyzpriv_set_error error XYZIMAGE_ERROR_OUT_OF_MEMORY).
Proof.
  intros Hw Hh Hm. unfold xyzimage_alloc, xyzpriv_alloc.
  cbn [set_dims set_data_len set_data data_len header version width height
       format palette data_len_compressed data compress_func].
  rewrite Z.mul_1_r. rewrite !u32_dims by assumption.
  rewrite Hm, set_error_twice. reflexivity.
Qed.

(** What the decoder does once the header has been delivered. *)
Lemma open_after_header {U} (rd : xyzimage_read_func_t U) ud w h ud3 error :
  0 <= w < 2 ^ 16 -> 0 <= h < 2 ^ 16 ->
  reads_header rd ud w h ud3 ->
  xyzimage_open ud (Some rd) error
  = if negb (malloc_ok (w * h)) then
      mkOpen None (xyzpriv_set_error error XYZIMAGE_ERROR_OUT_OF_MEMORY) ud3
             [EvRead 4; EvRead 2; EvRead 2]
    else if negb (malloc_ok (nominal w h)) then
      mkOpen None (xyzpriv_set_error error XYZIMAGE_ERROR_OUT_OF_MEMORY) ud3
             [EvRead 4; EvRead 2; EvRead 2; EvAlloc compressed_xyz (nominal w h)]
    else
      xyzimage_open_payload rd (blank_image w h) (nominal w h)
        (xyzpriv_set_error error XYZIMAGE_ERROR_OK) ud3
        [EvRead 4; EvRead 2; EvRead 2;
         EvAlloc compressed_xyz (nominal w h); EvAlloc decompressed_xyz (nominal w h)].
Proof.
  intros Hw Hh (s0 & ud1 & s1 & ud2 & s2 & R0 & Q0 & R1 & Q1 & R2 & Q2).
  unfold xyzimage_open.
  rewrite R0. cbv beta iota zeta.
  rewrite quiet_callback by exact Q0. rewrite error_not_set.
  change (len xyz_magic =? 4) with true.
  change (bytes_eqb (firstn 4 xyz_magic) xyz_magic) with true.
  cbn [negb orb].
  rewrite R1. cbv beta iota zeta.
  rewrite quiet_callback by exact Q1. rewrite error_not_set.
  change (len (le16 w) =? 2) with true. cbn [negb orb].
  rewrite R2. cbv beta iota zeta.
  rewrite quiet_callback by exact Q2. rewrite error_not_set.
  change (len (le16 h) =? 2) with true. cbn [negb orb].
  rewrite !swapped_load_le16 by assumption.
  destruct (malloc_ok (w * h)) eqn:Mi; cbn [negb].
  - rewrite alloc_blank by assumption.
    rewrite set_error_twice, error_not_set.
    cbn [width height blank_image].
    rewrite xyz_size_nominal by assumption.
    destruct (malloc_ok (nominal w h)); cbn [negb app];
      rewrite ?set_error_twice; reflexivity.
  - rewrite alloc_refused by assumption.
    rewrite set_error_twice. reflexivity.
Qed.

Lemma open_reaches_payload {U} (rd : xyzimage_read_func_t U) ud w h ud3 error :
  0 <= w < 2 ^ 16 -> 0 <= h < 2 ^ 16 ->
  reads_header rd ud w h ud3 ->
  malloc_ok (w * h) = true ->
  malloc_ok (nominal w h) = true ->
  xyzimage_open ud (Some rd) error
  = xyzimage_open_payload rd (blank_image w h) (nominal w h)
      (xyzpriv_set_error error XYZIMAGE_ERROR_OK) ud3
      [EvRead 4; EvRead 2; EvRead 2;
       EvAlloc compressed_xyz (nominal w h); EvAlloc decompressed_xyz (nominal w h)].
Proof.
  intros Hw Hh Hr Mi Mn. rewrite (open_after_header rd ud w h ud3) by assumption.
  rewrite Mi, Mn. reflexivity.
Qed.

Lemma realloc_grow old n :
  len old <= n -> realloc old n = old ++ fresh (n - len old).
Proof.
  intros H. unfold realloc. apply firstn_len_all.
  rewrite len_app, len_fresh by lia. lia.
Qed.

(** A source that signals the end of the stream within two reads: the
    decoder inflates exactly the bytes it delivered. *)
Lemma payload_reaches_inflate {U} (rd : xyzimage_read_func_t U)
    img n payload ud ud' error log0 :
  0 <= n -> usize (n * 2) = 2 * n ->
  reads_payload rd ud n payload ud' ->
  malloc_ok (2 * n) = true ->
  exists compressed log,
    xyzimage_open_payload rd img n error ud log0
    = xyzimage_open_inflate img n compressed (len payload) error ud' log /\
    firstn (Z.to_nat (len payload)) compressed = payload.
Proof.
  intros Hn Hdbl Hrd Hm. unfold xyzimage_open_payload.
  destruct Hrd as [[R Hl] | (p1 & s & ud1 & p2 & R1 & Q & L1 & R2 & L2 & ->)].
  - rewrite R. cbv beta iota zeta. cbn [error_eqb negb].
    eexists _, _. split; [reflexivity|].
    apply memcpy_head. rewrite len_fresh; lia.
  - rewrite R1. cbv beta iota zeta. rewrite (quiet_local s Q).
    cbn [error_eqb]. rewrite Hdbl, Hm. cbn [negb].
    rewrite R2. cbv beta iota zeta. cbn [error_eqb negb].
    eexists _, _. split.
    + rewrite len_app. f_equal.
      unfold usize. apply Z.mod_small.
      pose proof (len_nonneg p2).
      assert (2 * n < 2 ^ 64).
      { rewrite <- Hdbl. unfold usize. apply Z.mod_pos_bound. reflexivity. }
      lia.
    + rewrite memcpy_whole by (rewrite len_fresh; lia).
      rewrite realloc_grow by lia.
      unfold memcpy. rewrite <- L1 at 1. rewrite firstn_len_app.
      rewrite (firstn_len_all (len p2) p2) by lia.
      rewrite app_assoc. apply firstn_len_app.
Qed.

Lemma inflate_too_small {U} img n compressed res error (ud : U) log out :
  uncompress (firstn (Z.to_nat res) compressed) n = (Z_OK, out) ->
  len out <> n ->
  xyzimage_open_inflate img n compressed res error ud log
  = mkOpen None (xyzpriv_set_error error XYZIMAGE_ERROR_IO_READ_IMAGE_TOO_SMALL) ud log.
Proof.
  intros Hu Hl. unfold xyzimage_open_inflate. rewrite Hu.
  cbv beta iota zeta. cbn [Z.eqb Z_OK negb].
  apply Z.eqb_neq in Hl. rewrite Hl. reflexivity.
Qed.

Lemma inflate_reaches_fill {U} img n compressed res error (ud : U) log out :
  uncompress (firstn (Z.to_nat res) compressed) n = (Z_OK, out) ->
  len out = n ->
  xyzimage_open_inflate img n compressed res error ud log
  = xyzimage_open_fill (set_data_len_compressed img res) out error ud log.
Proof.
  intros Hu Hl. unfold xyzimage_open_inflate. rewrite Hu.
  cbv beta iota zeta. cbn [Z.eqb Z_OK negb].
  rewrite Hl, Z.eqb_refl. cbn [negb].
  rewrite <- Hl. rewrite memcpy_whole; [reflexivity|].
  rewrite len_fresh; [reflexivity | apply len_nonneg].
Qed.

(** The last stage of decoding on a live handle whose buffer has
    [data_len] bytes: the palette and the pixels are taken from the inflated
    bytes. *)
Lemma fill_result {U} img buf out error (ud : U) log :
  xyzimage_is_valid (Some img) = true ->
  data img = Some buf ->
  len buf = data_len img ->
  len out = XYZIMAGE_PALETTE_SIZE + data_len img ->
  xyzimage_open_fill img out error ud log
  = mkOpen (Some (set_data (set_palette img (read_palette out))
                           (Some (skipn (Z.to_nat XYZIMAGE_PALETTE_SIZE) out))))
           error ud log.
Proof.
  intros Hv Hd Hb Ho. unfold xyzimage_open_fill, xyzimage_get_buffer.
  replace (xyzimage_is_valid (Some (set_palette img (read_palette out)))) with true
    by (symmetry; exact Hv).
  cbn [negb set_palette data data_len]. rewrite Hd.
  do 3 f_equal.
  pose proof (len_nonneg buf) as Hnn.
  assert (Hs : len (skipn (Z.to_nat XYZIMAGE_PALETTE_SIZE) out) = data_len img).
  { rewrite len_skipn by (cbv; congruence). lia. }
  rewrite <- Hs, memcpy_whole by lia. reflexivity.
Qed.

(** *** The file-stream source *)

Lemma fread_exact file a rest :
  f_fault file = false ->
  f_bytes file = a ++ rest ->
  xyzpriv_fread_func (Some file) (len a)
  = (a, None, Some (mkFILE rest (f_eof file) false)).
Proof.
  intros Hf Hb. unfold xyzpriv_fread_func, fread. rewrite Hf, Hb.
  rewrite firstn_len_app, skipn_len_app.
  rewrite Z.ltb_irrefl, orb_false_r, Z.eqb_refl. reflexivity.
Qed.

Lemma fread_short file n :
  f_fault file = false ->
  len (f_bytes file) < n ->
  xyzpriv_fread_func (Some file) n
  = (f_bytes file, Some XYZIMAGE_ERROR_IO_READ_END_OF_FILE, Some (mkFILE [] true false)).
Proof.
  intros Hf Hl. unfold xyzpriv_fread_func, fread. rewrite Hf.
  rewrite firstn_len_all, skipn_len_all by lia.
  apply Z.ltb_lt in Hl as Hlt. rewrite Hlt, orb_true_r.
  replace (len (f_bytes file) =? n) with false by (symmetry; apply Z.eqb_neq; lia).
  reflexivity.
Qed.

Lemma fread_reads_header file w h rest :
  f_fault file = false ->
  f_bytes file = xyz_magic ++ le16 w ++ le16 h ++ rest ->
  reads_header xyzpriv_fread_func (Some file) w h (Some (mkFILE rest (f_eof file) false)).
Proof.
  intros Hf Hb. unfold reads_header.
  exists None, (Some (mkFILE (le16 w ++ le16 h ++ rest) (f_eof file) false)).
  exists None, (Some (mkFILE (le16 h ++ rest) (f_eof file) false)), None.
  repeat split; try (left; reflexivity).
  - exact (fread_exact file xyz_magic _ Hf Hb).
  - exact (fread_exact (mkFILE _ _ false) (le16 w) _ eq_refl eq_refl).
  - exact (fread_exact (mkFILE _ _ false) (le16 h) _ eq_refl eq_refl).
Qed.

Lemma fread_reads_payload c e n :
  len c < 2 * n ->
  reads_payload xyzpriv_fread_func (Some (mkFILE c e false)) n c
                (Some (mkFILE [] true false)).
Proof.
  intros Hl. pose proof (len_nonneg c) as Hc. unfold reads_payload.
  destruct (Z.lt_ge_cases (len c) n) as [Hlt | Hge].
  - left. split; [|lia]. exact (fread_short (mkFILE c e false) n eq_refl Hlt).
  - right.
    assert (L1 : len (firstn (Z.to_nat n) c) = n) by (rewrite len_firstn; lia).
    assert (L2 : len (skipn (Z.to_nat n) c) < n) by (rewrite len_skipn; lia).
    exists (firstn (Z.to_nat n) c), None,
           (Some (mkFILE (skipn (Z.to_nat n) c) e false)), (skipn (Z.to_nat n) c).
    repeat split.
    + rewrite <- L1 at 1.
      apply (fread_exact (mkFILE c e false) _ _ eq_refl).
      cbn [f_bytes]. symmetry. apply firstn_skipn.
    + left. reflexivity.
    + exact L1.
    + exact (fread_short (mkFILE _ e false) n eq_refl L2).
    + lia.
    + symmetry. apply firstn_skipn.
Qed.

(** *** The log of a decode *)

Lemma alloc_sizes_app b l1 l2 :
  alloc_sizes b (l1 ++ l2) = alloc_sizes b l1 ++ alloc_sizes b l2.
Proof.
  induction l1 as [| e l1 IH]; [reflexivity|].
  destruct e as [[] n| | |], b; cbn [app alloc_sizes]; rewrite IH; reflexivity.
Qed.

Lemma fill_log {U} img out error (ud : U) log :
  o_log (xyzimage_open_fill img out error ud log) = log.
Proof.
  unfold xyzimage_open_fill.
  destruct (xyzimage_get_buffer _ _) as [[buf|] [n|]]; reflexivity.
Qed.

Lemma inflate_log {U} img n compressed res error (ud : U) log :
  o_log (xyzimage_open_inflate img n compressed res error ud log) = log.
Proof.
  unfold xyzimage_open_inflate.
  destruct (uncompress _ _) as [code out].
  destruct (negb (code =? Z_OK)); [reflexivity|].
  destruct (negb (len out =? n)); [reflexivity|].
  apply fill_log.
Qed.

Ltac sizes_of_log :=
  cbn [o_log]; rewrite ?alloc_sizes_app; cbn [alloc_sizes app];
  rewrite ?app_nil_r; reflexivity.

(** Whatever the source does, the payload stage asks for the compressed
    buffer at most once more, and then for twice its size. *)
Lemma payload_compressed_sizes {U} (rd : xyzimage_read_func_t U) img n error ud log0 :
  let sizes :=
    alloc_sizes compressed_xyz (o_log (xyzimage_open_payload rd img n error ud log0)) in
  sizes = alloc_sizes compressed_xyz log0 \/
  sizes = alloc_sizes compressed_xyz log0 ++ [usize (n * 2)].
Proof.
  unfold xyzimage_open_payload.
  destruct (rd ud n) as [[got s] ud1]. cbv beta iota zeta.
  destruct (error_eqb _ XYZIMAGE_ERROR_OK).
  - right. destruct (negb (malloc_ok (usize (n * 2)))); [sizes_of_log|].
    destruct (rd ud1 n) as [[got2 s2] ud2]. cbv beta iota zeta.
    destruct (negb (error_eqb _ XYZIMAGE_ERROR_IO_READ_END_OF_FILE)).
    + destruct (error_eqb _ XYZIMAGE_ERROR_OK); sizes_of_log.
    + rewrite inflate_log. sizes_of_log.
  - left. destruct (negb (error_eqb _ XYZIMAGE_ERROR_IO_READ_END_OF_FILE)).
    + sizes_of_log.
    + rewrite inflate_log. sizes_of_log.
Qed.

(** *** Claims about decoding failures *)

(** C3. Bad magic: when the first read delivers four bytes without a failure
    code and they are not "XYZ1", [xyzimage_open] returns NULL, the error
    cell (when there is one) holds XYZIMAGE_ERROR_IO_READ_BAD_HEADER, and
    nothing further is read. *)
Theorem bad_magic_is_malformed_header {U} (rd : xyzimage_read_func_t U)
    ud error hdr s ud' :
  rd ud 4 = (hdr, s, ud') ->
  len hdr = 4 ->
  quiet s ->
  hdr <> xyz_magic ->
  let r := xyzimage_open ud (Some rd) error in
  o_image r = None /\
  o_error r = xyzpriv_set_error error XYZIMAGE_ERROR_IO_READ_BAD_HEADER /\
  o_log r = [EvRead 4].
Proof.
  intros R L Q Hne. unfold xyzimage_open.
  rewrite R. cbv beta iota zeta.
  rewrite quiet_callback by exact Q. rewrite error_not_set.
  rewrite L. cbn [Z.eqb Pos.eqb negb orb].
  rewrite (firstn_all2 (n := 4) hdr) by (unfold len in L; lia).
  rewrite bytes_eqb_neq by exact Hne. cbn [negb o_image o_error o_log].
  rewrite set_error_twice. repeat split.
Qed.

(** C4. Size mismatch: when the header and the payload have been
    delivered (the end of the stream signalled within two reads) and zlib
    inflates the payload successfully to a length other than
    [nominal = 768 + width * height], [xyzimage_open] returns NULL -- no
    handle -- and the error cell holds
    XYZIMAGE_ERROR_IO_READ_IMAGE_TOO_SMALL. *)
Theorem size_mismatch_is_too_small {U} (rd : xyzimage_read_func_t U)
    ud w h ud3 payload ud' out error :
  0 <= w < 2 ^ 16 -> 0 <= h < 2 ^ 16 ->
  reads_header rd ud w h ud3 ->
  decode_memory w h ->
  reads_payload rd ud3 (nominal w h) payload ud' ->
  uncompress payload (nominal w h) = (Z_OK, out) ->
  len out <> nominal w h ->
  let r := xyzimage_open ud (Some rd) error in
  o_image r = None /\
  o_error r = xyzpriv_set_error error XYZIMAGE_ERROR_IO_READ_IMAGE_TOO_SMALL.
Proof.
  intros Hw Hh Hhd (Mi & Mn & M2) Hp Hu Hl.
  pose proof (nominal_range w h Hw Hh) as Hn.
  cbv zeta. rewrite (open_reaches_payload rd ud w h ud3) by assumption.
  destruct (payload_reaches_inflate rd (blank_image w h) (nominal w h) payload ud3 ud'
              (xyzpriv_set_error error XYZIMAGE_ERROR_OK)
              [EvRead 4; EvRead 2; EvRead 2;
               EvAlloc compressed_xyz (nominal w h);
               EvAlloc decompressed_xyz (nominal w h)])
    as (compressed & log & E & F); try assumption; try lia.
  { apply double_nominal; assumption. }
  rewrite E. rewrite (inflate_too_small _ _ _ _ _ _ _ out).
  - cbn [o_image o_error]. rewrite set_error_twice. split; reflexivity.
  - rewrite F. exact Hu.
  - exact Hl.
Qed.

(** A follow-up read that stores a code other than the end-of-stream signal
    makes the decoder fail with that code. *)
Lemma failed_follow_up_read_is_propagated {U} (rd : xyzimage_read_func_t U)
    ud w h ud3 error p1 s1 ud4 p2 c ud5 :
  0 <= w < 2 ^ 16 -> 0 <= h < 2 ^ 16 ->
  reads_header rd ud w h ud3 ->
  decode_memory w h ->
  rd ud3 (nominal w h) = (p1, s1, ud4) -> quiet s1 ->
  rd ud4 (nominal w h) = (p2, Some c, ud5) ->
  c <> XYZIMAGE_ERROR_OK -> c <> XYZIMAGE_ERROR_IO_READ_END_OF_FILE ->
  let r := xyzimage_open ud (Some rd) error in
  o_image r = None /\ o_error r = xyzpriv_set_error error c.
Proof.
  intros Hw Hh Hhd (Mi & Mn & M2) R1 Q1 R2 Hc1 Hc2. cbv zeta.
  rewrite (open_reaches_payload rd ud w h ud3) by assumption.
  unfold xyzimage_open_payload.
  rewrite R1. cbv beta iota zeta. rewrite (quiet_local s1 Q1).
  cbn [error_eqb]. rewrite (double_nominal w h Hw Hh), M2. cbn [negb].
  rewrite R2. cbv beta iota zeta.
  destruct c; try contradiction; cbn [error_eqb negb o_image o_error];
    rewrite set_error_twice; split; reflexivity.
Qed.

(** C2. Oversized stream: once the header for [w] x [h] has been delivered,
    the compressed buffer is never requested with more than
    [2 * nominal] bytes, whatever the source does afterwards; and when the
    first read of [nominal] payload bytes and the follow-up read both end
    with no code stored (so without the end-of-stream signal),
    [xyzimage_open] returns NULL with
    XYZIMAGE_ERROR_IO_READ_IMAGE_TOO_BIG, having requested the compressed
    buffer with [nominal] and then [2 * nominal] bytes. *)
Theorem oversized_stream_is_too_big {U} (rd : xyzimage_read_func_t U)
    ud w h ud3 error :
  0 <= w < 2 ^ 16 -> 0 <= h < 2 ^ 16 ->
  reads_header rd ud w h ud3 ->
  let r := xyzimage_open ud (Some rd) error in
  Forall (fun size => size <= 2 * nominal w h) (alloc_sizes compressed_xyz (o_log r)) /\
  (forall p1 s1 ud4 p2 s2 ud5,
      decode_memory w h ->
      rd ud3 (nominal w h) = (p1, s1, ud4) -> quiet s1 ->
      rd ud4 (nominal w h) = (p2, s2, ud5) -> quiet s2 ->
      o_image r = None /\
      o_error r = xyzpriv_set_error error XYZIMAGE_ERROR_IO_READ_IMAGE_TOO_BIG /\
      alloc_sizes compressed_xyz (o_log r) = [nominal w h; 2 * nominal w h]).
Proof.
  intros Hw Hh Hhd. cbv zeta.
  pose proof (nominal_range w h Hw Hh) as Hn.
  pose proof (double_nominal w h Hw Hh) as Hd.
  split.
  - rewrite (open_after_header rd ud w h ud3) by assumption.
    destruct (malloc_ok (w * h)); cbn [negb]; [|constructor].
    destruct (malloc_ok (nominal w h)); cbn [negb].
    + destruct (payload_compressed_sizes rd (blank_image w h) (nominal w h)
                  (xyzpriv_set_error error XYZIMAGE_ERROR_OK) ud3
                  [EvRead 4; EvRead 2; EvRead 2;
                   EvAlloc compressed_xyz (nominal w h);
                   EvAlloc decompressed_xyz (nominal w h)]) as [E | E];
        rewrite E; cbn [alloc_sizes app]; rewrite ?Hd;
        repeat constructor; lia.
    + cbn [o_log alloc_sizes]. repeat constructor. lia.
  - intros p1 s1 ud4 p2 s2 ud5 (Mi & Mn & M2) R1 Q1 R2 Q2.
    rewrite (open_reaches_payload rd ud w h ud3) by assumption.
    unfold xyzimage_open_payload.
    rewrite R1. cbv beta iota zeta. rewrite (quiet_local s1 Q1).
    cbn [error_eqb]. rewrite Hd, M2. cbn [negb].
    rewrite R2. cbv beta iota zeta. rewrite (quiet_local s2 Q2).
    cbn [error_eqb negb o_image o_error o_log app alloc_sizes].
    rewrite set_error_twice. repeat split.
Qed.

(** *** Encoding: the stages of [xyzimage_write] *)

Lemma compress_calls_app l1 l2 :
  compress_calls (l1 ++ l2) = compress_calls l1 ++ compress_calls l2.
Proof.
  induction l1 as [| e l1 IH]; [reflexivity|].
  destruct e; cbn [app compress_calls]; rewrite IH; reflexivity.
Qed.

Lemma write_calls_app l1 l2 :
  write_calls (l1 ++ l2) = write_calls l1 ++ write_calls l2.
Proof.
  induction l1 as [| e l1 IH]; [reflexivity|].
  destruct e; cbn [app write_calls]; rewrite IH; reflexivity.
Qed.

(** [xyzimage_write] on a live handle of the default format, with a write
    function: the stages up to the emission. *)
Lemma write_stages {U} img (ud : U) wf error :
  xyzimage_is_valid (Some img) = true ->
  format img = XYZIMAGE_FORMAT_DEFAULT ->
  0 <= width img < 2 ^ 16 -> 0 <= height img < 2 ^ 16 ->
  let n := nominal (width img) (height img) in
  let buf := xyzimage_write_fill img n in
  let error0 := xyzpriv_set_error error XYZIMAGE_ERROR_OK in
  xyzimage_write (Some img) ud (Some wf) error
  = if negb (malloc_ok n) then
      mkWrite 0 (Kept (Some img)) (xyzpriv_set_error error XYZIMAGE_ERROR_OUT_OF_MEMORY) ud
              [EvAlloc decompressed_xyz n]
    else
      let '(size1, out1, s1) := compress_func img buf n (fresh n) n in
      if error_eqb (first_code s1) XYZIMAGE_ERROR_BUFFER_TOO_SMALL then
        if negb (malloc_ok (2 * n)) then
          mkWrite 0 (snd (xyzimage_free (Some img)))
                  (xyzpriv_set_error error XYZIMAGE_ERROR_OUT_OF_MEMORY) ud
                  [EvAlloc decompressed_xyz n; EvAlloc compressed_xyz n;
                   EvCompress n; EvAlloc compressed_xyz (2 * n)]
        else
          let '(size2, out2, s2) := compress_func img buf n (realloc out1 (2 * n)) (2 * n) in
          xyzimage_write_emit wf img out2 size2 (callback_error error0 s2) ud
            [EvAlloc decompressed_xyz n; EvAlloc compressed_xyz n;
             EvCompress n; EvAlloc compressed_xyz (2 * n); EvCompress (2 * n)]
      else
        xyzimage_write_emit wf img out1 size1
          (xyzpriv_set_error error (first_code s1)) ud
          [EvAlloc decompressed_xyz n; EvAlloc compressed_xyz n; EvCompress n].
Proof.
  intros Hv Hf Hw Hh. cbv zeta. unfold xyzimage_write.
  rewrite Hv, Hf. cbn [negb].
  rewrite xyz_size_nominal, double_nominal by assumption.
  destruct (malloc_ok (nominal (width img) (height img))); cbn [negb app];
    [|rewrite set_error_twice; reflexivity].
  destruct (compress_func img _ _ _ _) as [[size1 out1] s1].
  fold (first_code s1).
  destruct (error_eqb (first_code s1) XYZIMAGE_ERROR_BUFFER_TOO_SMALL).
  - destruct (malloc_ok (2 * nominal (width img) (height img))); cbn [negb];
      [|rewrite set_error_twice; reflexivity].
    destruct (compress_func img _ _ _ _) as [[size2 out2] s2]. reflexivity.
  - rewrite set_error_twice. reflexivity.
Qed.

(** The emission adds no compression call to the log. *)
Lemma emit_compress_calls {U} wf img compressed size error (ud : U) log :
  compress_calls (w_log (xyzimage_write_emit wf img compressed size error ud log))
  = compress_calls log.
Proof.
  unfold xyzimage_write_emit.
  destruct ((size =? 0) || error_is_set error); [reflexivity|].
  destruct (wf ud _) as [[r1 s1] ud1]. cbv beta iota zeta.
  destruct (_ || _);
    [cbn [w_log]; rewrite ?compress_calls_app; cbn [compress_calls];
     rewrite ?app_nil_r; reflexivity|].
  destruct (wf ud1 _) as [[r2 s2] ud2]. cbv beta iota zeta.
  destruct (_ || _);
    [cbn [w_log]; rewrite ?compress_calls_app; cbn [compress_calls];
     rewrite ?app_nil_r; reflexivity|].
  destruct (wf ud2 _) as [[r3 s3] ud3]. cbv beta iota zeta.
  destruct (_ || _);
    [cbn [w_log]; rewrite ?compress_calls_app; cbn [compress_calls];
     rewrite ?app_nil_r; reflexivity|].
  destruct (wf ud3 _) as [[r4 s4] ud4]. cbv beta iota zeta.
  destruct (_ || _);
    cbn [w_log]; rewrite ?compress_calls_app; cbn [compress_calls];
    rewrite ?app_nil_r; reflexivity.
Qed.

(** A compression result of 0 bytes ends the write at once. *)
Lemma emit_nothing_compressed {U} wf img compressed error (ud : U) log :
  xyzimage_write_emit wf img compressed 0 error ud log
  = mkWrite 0 (Kept (Some img)) error ud log.
Proof. reflexivity. Qed.

(** A successful emission made exactly four write calls: the magic, the
    two dimensions as stored in memory after [xyzpriv_swap_when_big], and
    the compressed bytes. *)
Lemma emit_success {U} wf img compressed size error (ud : U) log :
  w_ret (xyzimage_write_emit wf img compressed size error ud log) = 1 ->
  write_calls (w_log (xyzimage_write_emit wf img compressed size error ud log))
  = write_calls log ++
      [xyz_magic;
       store_u16 (xyzpriv_swap_when_big (width img));
       store_u16 (xyzpriv_swap_when_big (height img));
       firstn (Z.to_nat size) compressed].
Proof.
  unfold xyzimage_write_emit.
  destruct ((size =? 0) || error_is_set error); [discriminate|].
  destruct (wf ud _) as [[r1 s1] ud1]. cbv beta iota zeta.
  destruct (_ || _); [discriminate|].
  destruct (wf ud1 _) as [[r2 s2] ud2]. cbv beta iota zeta.
  destruct (_ || _); [discriminate|].
  destruct (wf ud2 _) as [[r3 s3] ud3]. cbv beta iota zeta.
  destruct (_ || _); [discriminate|].
  destruct (wf ud3 _) as [[r4 s4] ud4]. cbv beta iota zeta.
  destruct (_ || _); [discriminate|].
  intros _. cbn [w_log width height set_data_len_compressed].
  rewrite !write_calls_app. cbn [write_calls].
  rewrite <- !app_assoc. reflexivity.
Qed.

(** The buffer handed to the compression function is the palette bytes
    followed by the pixel bytes. *)
Lemma write_fill_concat img d :
  len (entry (palette img)) = XYZIMAGE_PALETTE_ENTRIES ->
  data img = Some d ->
  len d = data_len img ->
  xyzimage_write_fill img (XYZIMAGE_PALETTE_SIZE + data_len img)
  = palette_bytes (palette img) ++ d.
Proof.
  intros Hp Hd Hl. pose proof (len_palette_bytes _ Hp) as Hpb.
  pose proof (len_nonneg d) as Hd0.
  unfold xyzimage_write_fill, data_bytes. rewrite Hd.
  change XYZIMAGE_PALETTE_SIZE with 768 in *.
  set (X := memcpy (fresh _) 0 (palette_bytes (palette img)) 768).
  assert (HX : firstn (Z.to_nat 768) X = palette_bytes (palette img)).
  { subst X. rewrite <- Hpb. apply memcpy_head.
    rewrite len_fresh; lia. }
  assert (LX : len X = 768 + data_len img).
  { subst X. rewrite len_memcpy; rewrite ?len_fresh; lia. }
  unfold memcpy at 1. rewrite HX.
  rewrite (firstn_len_all (data_len img) d) by lia.
  rewrite skipn_len_all by lia. rewrite app_nil_r. reflexivity.
Qed.

(** The built-in compression function, when zlib keeps its contract and the
    scratch buffer is granted. *)
Lemma default_compress_fits src out cap :
  zlib_contract ->
  malloc_ok (compressBound (len src)) = true ->
  compressBound (len src) <= cap ->
  let c := snd (compress2 src (compressBound (len src)) Z_BEST_COMPRESSION) in
  xyzpriv_compress_func src (len src) out cap = (len c, memcpy out 0 c (len c), None).
Proof.
  intros (_ & Hc & _) Hm Hcap. cbv zeta. unfold xyzpriv_compress_func.
  replace (compressBound (len src) >? cap) with false
    by (symmetry; rewrite Z.gtb_ltb; apply Z.ltb_ge; lia).
  rewrite Hm. cbn [negb].
  rewrite (firstn_len_all (len src) src) by lia.
  destruct (Hc src Z_BEST_COMPRESSION) as [Hok _].
  destruct (compress2 src _ _) as [code c]. cbn [fst snd] in *.
  rewrite Hok. reflexivity.
Qed.

Lemma default_compress_too_small src n out cap :
  cap < compressBound n ->
  xyzpriv_compress_func src n out cap
  = (0, out, Some XYZIMAGE_ERROR_BUFFER_TOO_SMALL).
Proof.
  intros H. unfold xyzpriv_compress_func.
  replace (compressBound n >? cap) with true
    by (symmetry; rewrite Z.gtb_ltb; apply Z.ltb_lt; lia).
  reflexivity.
Qed.

(** A live handle with the built-in compression function reaches the
    emission with the stream [compress2] made of palette and pixels. *)
Lemma write_reaches_emit {U} img d (ud : U) wf error :
  zlib_contract ->
  xyzimage_is_valid (Some img) = true ->
  format img = XYZIMAGE_FORMAT_DEFAULT ->
  compress_func img = xyzpriv_compress_func ->
  handle_invariant img ->
  data img = Some d ->
  memory_suffices (width img) (height img) ->
  let n := nominal (width img) (height img) in
  let c := snd (compress2 (palette_bytes (palette img) ++ d) (compressBound n)
                          Z_BEST_COMPRESSION) in
  exists compressed log,
    xyzimage_write (Some img) ud (Some wf) error
    = xyzimage_write_emit wf img compressed (len c)
        (xyzpriv_set_error error XYZIMAGE_ERROR_OK) ud log /\
    firstn (Z.to_nat (len c)) compressed = c.
Proof.
  intros Hz Hv Hf Hcf (Hw & Hh & Hdl & (d' & Hd' & Hld) & Hp) Hd
         ((Mi & Mn & M2) & Mb).
  rewrite Hd in Hd'. injection Hd' as <-.
  cbv zeta. pose proof (nominal_range _ _ Hw Hh) as Hn.
  rewrite (write_stages img ud wf error) by assumption.
  rewrite Mn. cbn [negb].
  set (n := nominal (width img) (height img)) in *.
  assert (Hbuf : xyzimage_write_fill img n = palette_bytes (palette img) ++ d).
  { subst n. unfold nominal. rewrite <- Hdl.
    apply write_fill_concat; assumption. }
  assert (Hlen : len (palette_bytes (palette img) ++ d) = n).
  { rewrite len_app, len_palette_bytes by exact Hp.
    subst n. unfold nominal. rewrite Hld, Hdl. reflexivity. }
  rewrite Hbuf, Hcf.
  assert (Hfit : forall out cap, compressBound n <= cap ->
            xyzpriv_compress_func (palette_bytes (palette img) ++ d) n out cap
            = (len (snd (compress2 (palette_bytes (palette img) ++ d)
                                   (compressBound n) Z_BEST_COMPRESSION)),
               memcpy out 0
                 (snd (compress2 (palette_bytes (palette img) ++ d)
                                 (compressBound n) Z_BEST_COMPRESSION))
                 (len (snd (compress2 (palette_bytes (palette img) ++ d)
                                      (compressBound n) Z_BEST_COMPRESSION))),
               None)).
  { intros out cap Hcap.
    pose proof (default_compress_fits (palette_bytes (palette img) ++ d) out cap Hz)
      as H.
    rewrite Hlen in H. apply H; assumption. }
  destruct Hz as (Hb & Hc & Hu).
  destruct (Hb n ltac:(lia)) as [Hb0 Hb2].
  destruct (Hc (palette_bytes (palette img) ++ d) Z_BEST_COMPRESSION) as [_ Hcl].
  rewrite Hlen in Hcl.
  destruct (Z.lt_ge_cases n (compressBound n)) as [Hbig | Hsmall].
  - rewrite (default_compress_too_small _ n (fresh n) n) by exact Hbig.
    cbn [first_code error_eqb]. rewrite M2. cbn [negb].
    rewrite Hfit by lia. cbn [callback_error].
    eexists _, _. split; [reflexivity|].
    apply memcpy_head. rewrite realloc_grow; rewrite len_fresh by lia; [|lia].
    rewrite len_app, !len_fresh by lia. lia.
  - rewrite Hfit by lia. cbn [first_code error_eqb].
    eexists _, _. split; [reflexivity|].
    apply memcpy_head. rewrite len_fresh by lia. lia.
Qed.

(** *** The file-stream sink *)

Lemma fwrite_appends file buffer :
  f_fault file = false ->
  xyzpriv_fwrite_func (Some file) buffer
  = (len buffer, None, Some (mkFILE (f_bytes file ++ buffer) (f_eof file) false)).
Proof.
  intros Hf. unfold xyzpriv_fwrite_func, fwrite. rewrite Hf.
  rewrite Z.eqb_refl. reflexivity.
Qed.

(** The emission into a working file stream appends the container. *)
Lemma emit_to_file img compressed c error file log :
  0 <= width img < 2 ^ 16 -> 0 <= height img < 2 ^ 16 ->
  f_fault file = false ->
  0 < len c ->
  firstn (Z.to_nat (len c)) compressed = c ->
  let r := xyzimage_write_emit xyzpriv_fwrite_func img compressed (len c)
             (xyzpriv_set_error error XYZIMAGE_ERROR_OK) (Some file) log in
  w_ret r = 1 /\
  w_image r = Kept (Some (set_data_len_compressed img (len c))) /\
  w_error r = xyzpriv_set_error error XYZIMAGE_ERROR_OK /\
  w_userdata r
  = Some (mkFILE (f_bytes file ++ xyz_magic ++ le16 (width img)
                    ++ le16 (height img) ++ c) (f_eof file) false).
Proof.
  intros Hw Hh Hf Hc Hfc. cbv zeta. unfold xyzimage_write_emit.
  rewrite error_not_set.
  replace (len c =? 0) with false by (symmetry; apply Z.eqb_neq; lia).
  cbn [orb].
  rewrite fwrite_appends by exact Hf. cbv beta iota zeta.
  cbn [callback_error]. rewrite error_not_set.
  change (len [chr_X; chr_Y; chr_Z; chr_1] =? 4) with true. cbn [negb orb].
  cbn [width height set_data_len_compressed].
  rewrite !store_swapped_is_le16 by assumption.
  rewrite fwrite_appends by reflexivity. cbv beta iota zeta.
  cbn [callback_error]. rewrite error_not_set.
  change (len (le16 (width img)) =? 2) with true. cbn [negb orb].
  rewrite fwrite_appends by reflexivity. cbv beta iota zeta.
  cbn [callback_error]. rewrite error_not_set.
  change (len (le16 (height img)) =? 2) with true. cbn [negb orb].
  rewrite fwrite_appends by reflexivity. cbv beta iota zeta.
  cbn [callback_error]. rewrite error_not_set.
  rewrite Hfc, Z.eqb_refl. cbn [negb orb w_ret w_image w_error w_userdata f_bytes f_eof].
  rewrite <- !app_assoc. repeat split.
Qed.

(** *** Claims about encoding *)

(** C9. On either host a successful [xyzimage_write] handed the write
    function, in this order, the 4-byte magic, the width as low byte then
    high byte, the height as low byte then high byte, and the compressed
    bytes; [xyzpriv_swap_when_big] changes nothing on a little-endian host;
    and the width 0x0102 leaves as the byte 0x02 followed by 0x01. *)
Theorem dimensions_are_little_endian_on_the_wire {U} img (ud : U) wf error :
  xyzimage_is_valid (Some img) = true ->
  0 <= width img < 2 ^ 16 -> 0 <= height img < 2 ^ 16 ->
  let r := xyzimage_write (Some img) ud (Some wf) error in
  (w_ret r = 1 ->
   exists payload,
     write_calls (w_log r)
     = [[chr_X; chr_Y; chr_Z; chr_1];
        [byte_of_Z (width img); byte_of_Z (width img / 256)];
        [byte_of_Z (height img); byte_of_Z (height img / 256)];
        payload]) /\
  (host_is_big = false -> forall v, xyzpriv_swap_when_big v = v) /\
  store_u16 (xyzpriv_swap_when_big 258) = [x02; x01].
Proof.
  intros Hv Hw Hh. cbv zeta. split; [|split].
  - destruct (format img) eqn:Hf.
    { unfold xyzimage_write. rewrite Hv, Hf. cbn [negb w_ret]. discriminate. }
    rewrite (write_stages img ud wf error) by assumption.
    destruct (malloc_ok _); cbn [negb]; [|discriminate].
    destruct (compress_func img _ _ _ _) as [[size1 out1] s1].
    destruct (error_eqb _ _).
    + destruct (malloc_ok _); cbn [negb]; [|discriminate].
      destruct (compress_func img _ _ _ _) as [[size2 out2] s2].
      intros Hr. rewrite emit_success by exact Hr.
      rewrite !store_swapped_is_le16 by assumption.
      eexists. reflexivity.
    + intros Hr. rewrite emit_success by exact Hr.
      rewrite !store_swapped_is_le16 by assumption.
      eexists. reflexivity.
  - intros Hb v. unfold xyzpriv_swap_when_big. rewrite Hb. reflexivity.
  - rewrite store_swapped_is_le16 by (cbv; split; congruence). reflexivity.
Qed.

(** C5. On a live handle of the default format, given a write function and
    the scratch buffers, [xyzimage_write] first calls the handle's
    compression function with the capacity [nominal = 768 + width * height].
    If that call stores XYZIMAGE_ERROR_BUFFER_TOO_SMALL it calls the function
    exactly once more, with capacity [2 * nominal]; otherwise it makes no
    second call.  When the last call made fails -- returns 0 and stores a
    code -- the write returns 0, the error cell (when there is one) holds
    that code, and the write function is never called. *)
Theorem compression_retried_once_with_double_capacity {U} img (ud : U) wf error :
  xyzimage_is_valid (Some img) = true ->
  format img = XYZIMAGE_FORMAT_DEFAULT ->
  0 <= width img < 2 ^ 16 -> 0 <= height img < 2 ^ 16 ->
  let n := nominal (width img) (height img) in
  malloc_ok n = true ->
  malloc_ok (2 * n) = true ->
  let buf := xyzimage_write_fill img n in
  let first := compress_func img buf n (fresh n) n in
  let second := compress_func img buf n (realloc (snd (fst first)) (2 * n)) (2 * n) in
  let r := xyzimage_write (Some img) ud (Some wf) error in
  (snd first = Some XYZIMAGE_ERROR_BUFFER_TOO_SMALL ->
     compress_calls (w_log r) = [n; 2 * n] /\
     forall c, fst (fst second) = 0 -> snd second = Some c ->
       w_ret r = 0 /\ w_error r = xyzpriv_set_error error c /\
       write_calls (w_log r) = [] /\ w_userdata r = ud) /\
  (snd first <> Some XYZIMAGE_ERROR_BUFFER_TOO_SMALL ->
     compress_calls (w_log r) = [n] /\
     forall c, fst (fst first) = 0 -> snd first = Some c ->
       w_ret r = 0 /\ w_error r = xyzpriv_set_error error c /\
       write_calls (w_log r) = [] /\ w_userdata r = ud).
Proof.
  intros Hv Hf Hw Hh n Hm1 Hm2. cbv zeta. subst n.
  rewrite (write_stages img ud wf error) by assumption.
  rewrite Hm1. cbn [negb].
  destruct (compress_func img _ _ (fresh _) _) as [[size1 out1] s1].
  cbn [fst snd]. split.
  - intros ->. cbn [first_code error_eqb]. rewrite Hm2. cbn [negb].
    destruct (compress_func img _ _ (realloc _ _) _) as [[size2 out2] s2].
    cbn [fst snd]. split.
    + rewrite emit_compress_calls. reflexivity.
    + intros c -> ->. rewrite emit_nothing_compressed.
      cbn [w_ret w_error w_log w_userdata write_calls callback_error].
      rewrite set_error_twice. repeat split.
  - intros Hne.
    assert (Hb : error_eqb (first_code s1) XYZIMAGE_ERROR_BUFFER_TOO_SMALL = false).
    { destruct s1 as [[]|]; try reflexivity. contradiction Hne. reflexivity. }
    rewrite Hb. split.
    + rewrite emit_compress_calls. reflexivity.
    + intros c -> ->. rewrite emit_nothing_compressed.
      cbn [w_ret w_error w_log w_userdata write_calls first_code]. repeat split.
Qed.

(** *** The round trip *)

Lemma encode_then_decode img d error error' :
  zlib_contract ->
  xyzimage_is_valid (Some img) = true ->
  format img = XYZIMAGE_FORMAT_DEFAULT ->
  compress_func img = xyzpriv_compress_func ->
  handle_invariant img ->
  data img = Some d ->
  memory_suffices (width img) (height img) ->
  let n := nominal (width img) (height img) in
  let c := snd (compress2 (palette_bytes (palette img) ++ d) (compressBound n)
                          Z_BEST_COMPRESSION) in
  let stream := xyz_magic ++ le16 (width img) ++ le16 (height img) ++ c in
  let wr := xyzimage_write (Some img) (Some (mkFILE [] false false))
              (Some xyzpriv_fwrite_func) error in
  let rd := xyzimage_open (Some (mkFILE stream false false))
              (Some xyzpriv_fread_func) error' in
  w_ret wr = 1 /\
  w_userdata wr = Some (mkFILE stream false false) /\
  o_image rd
  = Some (decoded_image (width img) (height img) (len c) (palette img) d) /\
  o_error rd = xyzpriv_set_error error' XYZIMAGE_ERROR_OK.
Proof.
  intros Hz Hv Hf Hcf Hinv Hd Hmem. cbv zeta.
  pose proof Hinv as (Hw & Hh & Hdl & (d' & Hd' & Hld) & Hp).
  rewrite Hd in Hd'. injection Hd' as <-.
  pose proof Hmem as ((Mi & Mn & M2) & Mb).
  pose proof (nominal_range _ _ Hw Hh) as Hn.
  pose proof (dims_product_range _ _ Hw Hh) as Hwh.
  set (n := nominal (width img) (height img)) in *.
  set (src := palette_bytes (palette img) ++ d).
  assert (Hlen : len src = n).
  { subst src. rewrite len_app, len_palette_bytes by exact Hp.
    subst n. unfold nominal. rewrite Hld, Hdl. reflexivity. }
  pose proof Hz as (Hb & Hc & Hu).
  destruct (Hb n ltac:(lia)) as [Hb0 Hb2].
  destruct (Hc src Z_BEST_COMPRESSION) as [Hok Hcl].
  rewrite Hlen in Hok, Hcl.
  set (c := snd (compress2 src (compressBound n) Z_BEST_COMPRESSION)) in *.
  assert (Hpair : compress2 src (compressBound n) Z_BEST_COMPRESSION = (Z_OK, c)).
  { subst c. rewrite <- Hok. apply surjective_pairing. }
  (* encoding *)
  destruct (write_reaches_emit img d (Some (mkFILE [] false false))
              xyzpriv_fwrite_func error Hz Hv Hf Hcf Hinv Hd Hmem)
    as (compressed & log & E & F).
  fold n src c in E, F. rewrite E.
  destruct (emit_to_file img compressed c error (mkFILE [] false false) log
              Hw Hh eq_refl ltac:(lia) F) as (R1 & _ & _ & R4).
  split; [exact R1|]. split; [exact R4|].
  (* decoding *)
  rewrite (open_reaches_payload xyzpriv_fread_func _ (width img) (height img)
             (Some (mkFILE c false false))); try assumption;
    [| apply (fread_reads_header (mkFILE _ false false)); reflexivity].
  fold n.
  destruct (payload_reaches_inflate xyzpriv_fread_func
              (blank_image (width img) (height img)) n c
              (Some (mkFILE c false false)) (Some (mkFILE [] true false))
              (xyzpriv_set_error error' XYZIMAGE_ERROR_OK)
              [EvRead 4; EvRead 2; EvRead 2;
               EvAlloc compressed_xyz n; EvAlloc decompressed_xyz n])
    as (cbuf & log' & E' & F'); try assumption; try lia.
  { apply double_nominal; assumption. }
  { apply fread_reads_payload. lia. }
  rewrite E'.
  rewrite (inflate_reaches_fill _ _ _ _ _ _ _ src);
    [| rewrite F'; apply (Hu src _ _ c n Hpair); lia | exact Hlen].
  rewrite fill_result with (buf := fresh (width img * height img)).
  - cbn [o_image o_error]. split; [|reflexivity].
    unfold decoded_image. subst src.
    rewrite read_palette_bytes by exact Hp.
    rewrite <- (len_palette_bytes _ Hp), skipn_len_app. reflexivity.
  - reflexivity.
  - reflexivity.
  - cbn [data_len set_data_len_compressed blank_image]. apply len_fresh. lia.
  - cbn [data_len set_data_len_compressed blank_image]. exact Hlen.
Qed.

(** C1. Round trip.  For every live handle with the built-in compression
    function -- any width and height (0 x 0 included), any palette, any
    pixels -- on a platform whose zlib keeps its contract and whose
    allocator grants the requests made: [xyzimage_write] into an empty file
    stream succeeds, and [xyzimage_open] on the bytes it wrote returns a
    handle with the same width, height, palette (all 256 entries) and pixel
    buffer.  In particular the 2 x 2 image with every pixel 5 and palette
    entry 5 = (10, 20, 30) comes back with width 2, height 2, pixels
    [5; 5; 5; 5] and palette entry 5 = (10, 20, 30). *)
Theorem write_then_open_round_trips :
  zlib_contract ->
  (forall img error error',
     xyzimage_is_valid (Some img) = true ->
     format img = XYZIMAGE_FORMAT_DEFAULT ->
     compress_func img = xyzpriv_compress_func ->
     handle_invariant img ->
     memory_suffices (width img) (height img) ->
     let wr := xyzimage_write (Some img) (Some (mkFILE [] false false))
                 (Some xyzpriv_fwrite_func) error in
     w_ret wr = 1 /\
     exists stream img',
       w_userdata wr = Some (mkFILE stream false false) /\
       o_image (xyzimage_open (Some (mkFILE stream false false))
                  (Some xyzpriv_fread_func) error') = Some img' /\
       width img' = width img /\
       height img' = height img /\
       palette img' = palette img /\
       data img' = data img /\
       data_len img' = data_len img) /\
  (memory_suffices 2 2 ->
   forall error error',
     let wr := xyzimage_write (Some Stored.scenario_image)
                 (Some (mkFILE [] false false)) (Some xyzpriv_fwrite_func) error in
     w_ret wr = 1 /\
     exists stream img',
       w_userdata wr = Some (mkFILE stream false false) /\
       o_image (xyzimage_open (Some (mkFILE stream false false))
                  (Some xyzpriv_fread_func) error') = Some img' /\
       width img' = 2 /\
       height img' = 2 /\
       data img' = Some [x05; x05; x05; x05] /\
       nth 5 (entry (palette img')) zero_entry = mkEntry x0a x14 x1e).
Proof.
  intros Hz. split.
  - intros img error error' Hv Hf Hcf Hinv Hmem.
    pose proof Hinv as (Hw & Hh & Hdl & (d & Hd & Hld) & Hp).
    destruct (encode_then_decode img d error error' Hz Hv Hf Hcf Hinv Hd Hmem)
      as (R1 & R2 & R3 & _).
    cbv zeta. split; [exact R1|].
    eexists _, _. split; [exact R2|]. split; [exact R3|].
    cbn [decoded_image width height palette data data_len set_data set_palette
         set_data_len_compressed blank_image].
    repeat split; congruence.
  - intros Hmem error error'.
    assert (Hinv : handle_invariant Stored.scenario_image).
    { unfold handle_invariant. cbn [width height data_len data palette Stored.scenario_image].
      repeat split; try lia; try reflexivity.
      exists [x05; x05; x05; x05]. split; reflexivity. }
    destruct (encode_then_decode Stored.scenario_image [x05; x05; x05; x05]
                error error' Hz eq_refl eq_refl eq_refl Hinv eq_refl Hmem)
      as (R1 & R2 & R3 & _).
    cbv zeta. split; [exact R1|].
    eexists _, _. split; [exact R2|]. split; [exact R3|].
    repeat split.
Qed.

(** *** The handle invariant *)

Lemma blank_image_invariant w h :
  0 <= w < 2 ^ 16 -> 0 <= h < 2 ^ 16 -> handle_invariant (blank_image w h).
Proof.
  intros Hw Hh. pose proof (dims_product_range w h Hw Hh).
  unfold handle_invariant.
  cbn [width height data_len data palette entry blank_image].
  repeat split; try lia.
  exists (fresh (w * h)). split; [reflexivity | apply len_fresh; lia].
Qed.

(** Every handle that leaves the inflate stage is the given one with the
    palette and the pixels of an inflated buffer of the nominal size. *)
Lemma inflate_image {U} img buf n compressed res error (ud : U) log img' :
  xyzimage_is_valid (Some img) = true ->
  data img = Some buf ->
  len buf = data_len img ->
  n = XYZIMAGE_PALETTE_SIZE + data_len img ->
  o_image (xyzimage_open_inflate img n compressed res error ud log) = Some img' ->
  exists out,
    len out = n /\
    img' = set_data (set_palette (set_data_len_compressed img res) (read_palette out))
                    (Some (skipn (Z.to_nat XYZIMAGE_PALETTE_SIZE) out)).
Proof.
  intros Hv Hd Hb Hn. unfold xyzimage_open_inflate.
  destruct (uncompress _ _) as [code out].
  destruct (negb (code =? Z_OK)); [discriminate|].
  destruct (Z.eqb_spec (len out) n) as [Hl | Hl]; cbn [negb]; [|discriminate].
  subst n. rewrite <- Hl.
  rewrite memcpy_whole by (rewrite len_fresh; [reflexivity | apply len_nonneg]).
  rewrite fill_result with (buf := buf); try assumption.
  cbn [o_image]. intros [= <-]. exists out. split; reflexivity.
Qed.

Lemma payload_image {U} (rd : xyzimage_read_func_t U) img buf n error ud log img' :
  xyzimage_is_valid (Some img) = true ->
  data img = Some buf ->
  len buf = data_len img ->
  n = XYZIMAGE_PALETTE_SIZE + data_len img ->
  o_image (xyzimage_open_payload rd img n error ud log) = Some img' ->
  exists res out,
    len out = n /\
    img' = set_data (set_palette (set_data_len_compressed img res) (read_palette out))
                    (Some (skipn (Z.to_nat XYZIMAGE_PALETTE_SIZE) out)).
Proof.
  intros Hv Hd Hb Hn. unfold xyzimage_open_payload.
  destruct (rd ud n) as [[got s] ud1]. cbv beta iota zeta.
  destruct (error_eqb _ XYZIMAGE_ERROR_OK).
  - destruct (negb (malloc_ok _)); [discriminate|].
    destruct (rd ud1 n) as [[got2 s2] ud2]. cbv beta iota zeta.
    destruct (negb (error_eqb _ XYZIMAGE_ERROR_IO_READ_END_OF_FILE)).
    + destruct (error_eqb _ XYZIMAGE_ERROR_OK); discriminate.
    + intros H. eexists. eapply inflate_image; eassumption.
  - destruct (negb (error_eqb _ XYZIMAGE_ERROR_IO_READ_END_OF_FILE)).
    + discriminate.
    + intros H. eexists. eapply inflate_image; eassumption.
Qed.

(** Every handle [xyzimage_open] returns is live and satisfies the
    invariant. *)
Lemma open_image_invariant {U} (ud : U) rd error img :
  o_image (xyzimage_open ud rd error) = Some img ->
  xyzimage_is_valid (Some img) = true /\ handle_invariant img.
Proof.
  unfold xyzimage_open. destruct rd as [rd|]; [|discriminate].
  destruct (rd ud 4) as [[hdr s0] ud1]. cbv beta iota zeta.
  destruct (_ || _); [discriminate|].
  destruct (negb (bytes_eqb _ _)); [discriminate|].
  destruct (rd ud1 2) as [[wb s1] ud2]. cbv beta iota zeta.
  destruct (_ || _); [discriminate|].
  destruct (rd ud2 2) as [[hb s2] ud3]. cbv beta iota zeta.
  destruct (_ || _); [discriminate|].
  pose proof (swapped_load_range wb) as Hw.
  pose proof (swapped_load_range hb) as Hh.
  set (w := xyzpriv_swap_when_big (load_u16 wb)) in *.
  set (h := xyzpriv_swap_when_big (load_u16 hb)) in *.
  pose proof (dims_product_range w h Hw Hh) as Hwh.
  destruct (malloc_ok (w * h)) eqn:Mi.
  - rewrite alloc_blank by assumption.
    destruct (error_is_set _); [discriminate|].
    cbn [width height blank_image].
    rewrite xyz_size_nominal by assumption.
    destruct (negb (malloc_ok (nominal w h))); [discriminate|].
    intros H.
    apply payload_image with (buf := fresh (w * h)) in H;
      [| reflexivity | reflexivity
       | cbn [data_len blank_image]; apply len_fresh; lia | reflexivity].
    destruct H as (res & out & Hl & ->).
    split; [reflexivity|].
    unfold handle_invariant.
    cbn [width height data_len data palette set_data set_palette
         set_data_len_compressed blank_image].
    split; [exact Hw|]. split; [exact Hh|]. split; [reflexivity|]. split.
    + eexists. split; [reflexivity|].
      rewrite len_skipn by (cbv; congruence).
      rewrite Hl. unfold nominal.
      change XYZIMAGE_PALETTE_SIZE with 768. lia.
    + apply len_read_palette.
  - rewrite alloc_refused by assumption. discriminate.
Qed.

(** The emission leaves the handle as it was, possibly with a new
    compressed size. *)
Lemma emit_image {U} wf img compressed size error (ud : U) log :
  w_image (xyzimage_write_emit wf img compressed size error ud log) = Kept (Some img) \/
  w_image (xyzimage_write_emit wf img compressed size error ud log)
  = Kept (Some (set_data_len_compressed img size)).
Proof.
  unfold xyzimage_write_emit.
  destruct (_ || _); [left; reflexivity|].
  destruct (wf ud _) as [[r1 s1] ud1]. cbv beta iota zeta.
  destruct (_ || _); [right; reflexivity|].
  destruct (wf ud1 _) as [[r2 s2] ud2]. cbv beta iota zeta.
  destruct (_ || _); [right; reflexivity|].
  destruct (wf ud2 _) as [[r3 s3] ud3]. cbv beta iota zeta.
  destruct (_ || _); [right; reflexivity|].
  destruct (wf ud3 _) as [[r4 s4] ud4]. cbv beta iota zeta.
  destruct (_ || _); right; reflexivity.
Qed.

Lemma write_image {U} img (ud : U) wf error :
  xyzimage_is_valid (Some img) = true ->
  let after := w_image (xyzimage_write (Some img) ud wf error) in
  (realloc_refused img wf /\ after = snd (xyzimage_free (Some img))) \/
  (~ realloc_refused img wf /\
   (after = Kept (Some img) \/
    exists size, after = Kept (Some (set_data_len_compressed img size)))).
Proof.
  intros Hv. cbv zeta. unfold realloc_refused, xyzimage_write. rewrite Hv. cbn [negb].
  destruct wf as [wf|];
    [|right; split; [intros (H & _); congruence | left; reflexivity]].
  destruct (format img) eqn:Hf;
    [right; split; [intros (_ & H & _); discriminate H | left; reflexivity]|].
  destruct (malloc_ok _) eqn:Hm; cbn [negb];
    [|right; split; [intros (_ & _ & H & _); discriminate H | left; reflexivity]].
  cbn [app].
  destruct (compress_func img _ _ _ _) as [[size1 out1] s1]. cbn [snd].
  destruct (error_eqb _ XYZIMAGE_ERROR_BUFFER_TOO_SMALL) eqn:He.
  - apply error_eqb_eq in He.
    destruct (malloc_ok (usize (_ * 2))) eqn:Hm2; cbn [negb].
    + right. split; [intros (_ & _ & _ & _ & H); discriminate H|].
      destruct (compress_func img _ _ _ _) as [[size2 out2] s2].
      match goal with
      | |- context [xyzimage_write_emit ?a ?b ?c ?d ?e ?f ?g] =>
          destruct (emit_image a b c d e f g) as [E | E]
      end.
      * left. exact E.
      * right. eexists. exact E.
    + left. split; [|reflexivity].
      split; [discriminate|]. split; [reflexivity|]. split; [reflexivity|].
      split; [|reflexivity].
      destruct s1 as [w|]; [rewrite He; reflexivity | discriminate He].
  - right. split.
    + intros (_ & _ & _ & H & _). rewrite H in He. discriminate He.
    + match goal with
      | |- context [xyzimage_write_emit ?a ?b ?c ?d ?e ?f ?g] =>
          destruct (emit_image a b c d e f g) as [E | E]
      end.
      * left. exact E.
      * right. eexists. exact E.
Qed.

(** [xyzimage_free] on a live handle: the struct is scrubbed -- the marker
    no longer passes the check, the buffer pointer is NULL and its length 0
    -- and then the block is freed. *)
Lemma free_live img :
  xyzimage_is_valid (Some img) = true ->
  xyzimage_free (Some img)
  = (1, Freed (set_data_len (set_data (set_header0 img chr_bang) None) 0)) /\
  xyzimage_is_valid
    (Some (set_data_len (set_data (set_header0 img chr_bang) None) 0)) = false.
Proof.
  intros Hv. unfold xyzimage_free. rewrite Hv. cbn [negb].
  split; [reflexivity|].
  unfold xyzimage_is_valid in *. cbn [header set_data_len set_data set_header0 version].
  destruct (header img) as [|b0 hd]; [reflexivity|]. cbn [tl firstn bytes_eqb].
  reflexivity.
Qed.

Lemma free_not_live image :
  xyzimage_is_valid image = false -> xyzimage_free image = (0, Kept image).
Proof. intros Hv. unfold xyzimage_free. rewrite Hv. reflexivity. Qed.

(** *** Claims about the handle and the compression adapter *)

(** C6. The built-in compression function first computes
    [compressBound len_in].  When that bound exceeds the capacity [len_out]
    it returns 0, stores XYZIMAGE_ERROR_BUFFER_TOO_SMALL and leaves the
    output buffer as it was; it reports that code in no other case; the
    output buffer is changed only when the bound fits the capacity, by the
    copy of what [compress2] produced in a scratch buffer of that bound; and
    when [compress2] keeps within the room it was given, the count returned
    is within the capacity. *)
Theorem default_compressor_checks_bound_first buffer_in len_in buffer_out len_out :
  let r := xyzpriv_compress_func buffer_in len_in buffer_out len_out in
  let produced :=
    snd (compress2 (firstn (Z.to_nat len_in) buffer_in) (compressBound len_in)
                   Z_BEST_COMPRESSION) in
  (len_out < compressBound len_in ->
     r = (0, buffer_out, Some XYZIMAGE_ERROR_BUFFER_TOO_SMALL)) /\
  (compressBound len_in <= len_out ->
     snd r <> Some XYZIMAGE_ERROR_BUFFER_TOO_SMALL) /\
  (snd (fst r) <> buffer_out ->
     compressBound len_in <= len_out /\
     r = (len produced, memcpy buffer_out 0 produced (len produced), None)) /\
  (len produced <= compressBound len_in -> 0 <= len_out -> fst (fst r) <= len_out).
Proof.
  cbv zeta. unfold xyzpriv_compress_func.
  destruct (Z.gtb_spec (compressBound len_in) len_out) as [Hgt | Hle].
  - repeat split; try reflexivity; cbn [fst snd]; intros; try lia; try contradiction.
  - destruct (malloc_ok (compressBound len_in)); cbn [negb].
    + destruct (compress2 _ _ _) as [code out]. cbn [snd].
      destruct (code =? Z_OK); cbn [negb fst snd];
        repeat split; intros; try lia; try discriminate; try contradiction.
    + repeat split; cbn [fst snd]; intros; try lia; try discriminate; try contradiction.
Qed.

(** C7, as amended.  The NULL pointer, and every pointer to an allocated
    block whose marker or version fails the check, gets the neutral value
    from every read-only accessor: 0 for the width, height, file size and
    compressed file size, NULL for the buffer (with [*len] untouched) and
    the palette, XYZIMAGE_FORMAT_NONE for the format.  For NULL nothing is
    read: the values are the same in every heap.  For a block the verdict of
    the check is settled by the marker and the version, so nothing else of
    the block bears on the result; the accessors store nothing through the
    handle.  [xyzimage_free] scrubs the marker before it frees the block:
    the struct as it is freed fails the check.  What an accessor finds
    behind a pointer whose block has been freed is not part of the
    statement. *)
Theorem failed_check_gives_neutral_values h image m error lenp :
  Heap.deref h image = Heap.Returns m ->
  xyzimage_is_valid m = false ->
  (Heap.xyzimage_get_width h image = Heap.Returns 0 /\
   Heap.xyzimage_get_height h image = Heap.Returns 0 /\
   Heap.xyzimage_get_buffer h image lenp = Heap.Returns (None, lenp) /\
   Heap.xyzimage_get_palette h image error
     = Heap.Returns (None, xyzpriv_set_error error XYZIMAGE_ERROR_XYZIMAGE_INVALID) /\
   Heap.xyzimage_get_format h image = Heap.Returns XYZIMAGE_FORMAT_NONE /\
   Heap.xyzimage_get_filesize h image = Heap.Returns 0 /\
   Heap.xyzimage_get_compressed_filesize h image = Heap.Returns 0) /\
  (image = None -> forall h', Heap.xyzimage_is_valid h' image = Heap.Returns false) /\
  (forall img img',
     m = Some img ->
     firstn 4 (header img') = firstn 4 (header img) ->
     version img' = version img ->
     xyzimage_is_valid (Some img') = false) /\
  (forall live,
     xyzimage_is_valid (Some live) = true ->
     exists last,
       xyzimage_free (Some live) = (1, Freed last) /\
       xyzimage_is_valid (Some last) = false).
Proof.
  intros Hd Hv. split; [|split; [|split]].
  - unfold Heap.xyzimage_get_width, Heap.xyzimage_get_height,
      Heap.xyzimage_get_buffer, Heap.xyzimage_get_palette,
      Heap.xyzimage_get_format, Heap.xyzimage_get_filesize,
      Heap.xyzimage_get_compressed_filesize, Heap.reading.
    rewrite Hd.
    unfold xyzimage_get_width, xyzimage_get_height, xyzimage_get_buffer,
      xyzimage_get_palette, xyzimage_get_format, xyzimage_get_filesize,
      xyzimage_get_compressed_filesize.
    rewrite Hv. cbn [negb]. rewrite set_error_twice. repeat split.
  - intros -> h'. reflexivity.
  - intros img img' -> Hh Hvs. unfold xyzimage_is_valid in *.
    rewrite Hh, Hvs. exact Hv.
  - intros live Hl. eexists. apply (free_live live Hl).
Qed.

(** C10. On a valid handle [xyzimage_set_compress_func] with a NULL function
    installs the built-in compression function, and with a function installs
    that function, leaving every other field as it was; on an invalid handle
    it changes nothing. *)
Theorem set_compress_func_installs image :
  (xyzimage_is_valid image = false ->
     forall f, xyzimage_set_compress_func image f = image) /\
  (xyzimage_is_valid image = true ->
     exists img, image = Some img /\
       xyzimage_set_compress_func image None
         = Some (set_compress img xyzpriv_compress_func) /\
       compress_func (set_compress img xyzpriv_compress_func) = xyzpriv_compress_func /\
       forall g,
         xyzimage_set_compress_func image (Some g) = Some (set_compress img g) /\
         compress_func (set_compress img g) = g).
Proof.
  unfold xyzimage_set_compress_func. split; intros Hv; rewrite Hv; cbn [negb].
  - reflexivity.
  - destruct image as [img|]; [|discriminate Hv].
    exists img. repeat split.
Qed.

(** ** Further properties of the code *)

(** *** Allocation and release *)

(** X1. A granted [xyzimage_alloc] of the default format returns a black
    image: the error cell holds XYZIMAGE_ERROR_OK, the buffer has
    [width * height] zero bytes (and [*len] reports that size), the palette
    has 256 zero entries, and the accessors report the dimensions, the
    default format and a compressed file size of 8. *)
Theorem alloc_gives_black_image w h error lenp :
  0 <= w < 2 ^ 16 -> 0 <= h < 2 ^ 16 ->
  malloc_ok (w * h) = true ->
  exists img,
    xyzimage_alloc w h XYZIMAGE_FORMAT_DEFAULT error
      = (Some img, xyzpriv_set_error error XYZIMAGE_ERROR_OK) /\
    xyzimage_get_buffer (Some img) (Some lenp)
      = (Some (repeat x00 (Z.to_nat (w * h))), Some (w * h)) /\
    xyzimage_get_palette (Some img) error
      = (Some (mkPalette (repeat zero_entry 256)),
         xyzpriv_set_error error XYZIMAGE_ERROR_OK) /\
    xyzimage_get_width (Some img) = w /\
    xyzimage_get_height (Some img) = h /\
    xyzimage_get_format (Some img) = XYZIMAGE_FORMAT_DEFAULT /\
    xyzimage_get_compressed_filesize (Some img) = 8.
Proof.
  intros Hw Hh Hm. exists (blank_image w h).
  rewrite alloc_blank by assumption. repeat split.
Qed.

(** X2. [xyzimage_alloc] returns a handle exactly when the format is the
    default one and the allocator grants [width * height] bytes, and then
    the error cell holds XYZIMAGE_ERROR_OK whatever it held before; otherwise
    it returns NULL with XYZIMAGE_ERROR_FORMAT_NOT_SUPPORTED for another
    format (whatever the allocator would grant) and
    XYZIMAGE_ERROR_OUT_OF_MEMORY for a refused buffer: never a handle with an
    error, never NULL without one. *)
Theorem alloc_returns_handle_or_error w h fmt error :
  0 <= w < 2 ^ 16 -> 0 <= h < 2 ^ 16 ->
  let r := xyzimage_alloc w h fmt error in
  (fst r <> None <-> fmt = XYZIMAGE_FORMAT_DEFAULT /\ malloc_ok (w * h) = true) /\
  (fst r <> None -> snd r = xyzpriv_set_error error XYZIMAGE_ERROR_OK) /\
  (fmt <> XYZIMAGE_FORMAT_DEFAULT ->
     r = (None, xyzpriv_set_error error XYZIMAGE_ERROR_FORMAT_NOT_SUPPORTED)) /\
  (fmt = XYZIMAGE_FORMAT_DEFAULT -> malloc_ok (w * h) = false ->
     r = (None, xyzpriv_set_error error XYZIMAGE_ERROR_OUT_OF_MEMORY)) /\
  (forall e, error = Some e -> (fst r = None <-> error_is_set (snd r) = true)).
Proof.
  intros Hw Hh. cbv zeta. destruct fmt.
  - unfold xyzimage_alloc. rewrite set_error_twice. cbn [fst snd].
    split; [split; [intros H; contradiction H; reflexivity | intros [H _]; discriminate H]|].
    split; [intros H; contradiction H; reflexivity|].
    split; [reflexivity|]. split; [discriminate|].
    intros e ->. split; reflexivity.
  - destruct (malloc_ok (w * h)) eqn:Hm.
    + rewrite alloc_blank by assumption. cbn [fst snd].
      split; [split; [intros _; split; reflexivity | discriminate]|].
      split; [reflexivity|].
      split; [intros H; contradiction H; reflexivity|]. split; [discriminate|].
      intros e ->. split; discriminate.
    + rewrite alloc_refused by assumption. cbn [fst snd].
      split; [split; [intros H; contradiction H; reflexivity | intros [_ H]; discriminate H]|].
      split; [intros H; contradiction H; reflexivity|].
      split; [intros H; contradiction H; reflexivity|]. split; [reflexivity|].
      intros e ->. split; reflexivity.
Qed.

(** *** The heap *)

Lemma heap_lookup_remove h a : Heap.lookup (Heap.remove h a) a = None.
Proof.
  induction h as [|[b img] h IH]; [reflexivity|]. cbn [Heap.remove].
  destruct (Nat.eqb a b) eqn:E; [exact IH|].
  cbn [Heap.lookup]. rewrite E. exact IH.
Qed.

Lemma heap_lookup_remove_other h a b :
  b <> a -> Heap.lookup (Heap.remove h a) b = Heap.lookup h b.
Proof.
  intros Hne. induction h as [|[c img] h IH]; [reflexivity|]. cbn [Heap.remove].
  destruct (Nat.eqb a c) eqn:E.
  - apply Nat.eqb_eq in E. subst c. cbn [Heap.lookup].
    destruct (Nat.eqb b a) eqn:E'; [apply Nat.eqb_eq in E'; contradiction|].
    exact IH.
  - cbn [Heap.lookup]. rewrite IH. reflexivity.
Qed.

Lemma heap_lookup_store h a img : Heap.lookup (Heap.store h a img) a = Some img.
Proof.
  induction h as [|[b old] h IH]; cbn [Heap.store Heap.lookup].
  - rewrite Nat.eqb_refl. reflexivity.
  - destruct (Nat.eqb a b) eqn:E; cbn [Heap.lookup]; rewrite E; [reflexivity|exact IH].
Qed.

Lemma heap_store_same h a img :
  Heap.lookup h a = Some img -> Heap.store h a img = h.
Proof.
  induction h as [|[b old] h IH]; cbn [Heap.store Heap.lookup]; [discriminate|].
  destruct (Nat.eqb a b) eqn:E.
  - intros [= ->]. reflexivity.
  - intros H. rewrite (IH H). reflexivity.
Qed.

Lemma heap_deref_block h image img :
  Heap.deref h image = Heap.Returns (Some img) ->
  exists a, image = Some a /\ Heap.lookup h a = Some img.
Proof.
  destruct image as [a|]; cbn [Heap.deref]; [|discriminate].
  destruct (Heap.lookup h a) as [x|] eqn:E; [|discriminate].
  intros [= ->]. exists a. split; [reflexivity|exact E].
Qed.

Lemma heap_settle_kept h image m :
  Heap.deref h image = Heap.Returns m -> Heap.settle h image (Kept m) = h.
Proof.
  intros Hd. destruct m as [img|].
  - destruct (heap_deref_block h image img Hd) as (a & -> & Hl).
    cbn [Heap.settle]. apply heap_store_same. exact Hl.
  - destruct image; reflexivity.
Qed.

(** X3. [xyzimage_free] through the NULL pointer or a pointer to an
    allocated block.  When what it finds fails the check it returns 0 and
    the heap is as it was.  When the block passes the check it returns 1 and
    frees this block and no other; the pointer is left dangling, so a second
    [xyzimage_free] through it reads freed memory; and once the allocator has
    handed the address out again for another handle, the second
    [xyzimage_free] returns 1 and frees that handle. *)
Theorem free_releases_exactly_the_block h image m :
  Heap.deref h image = Heap.Returns m ->
  (xyzimage_is_valid m = false ->
     Heap.xyzimage_free h image = Heap.Returns (0, h)) /\
  (xyzimage_is_valid m = true ->
     exists a h',
       image = Some a /\
       Heap.xyzimage_free h image = Heap.Returns (1, h') /\
       Heap.lookup h' a = None /\
       (forall b, b <> a -> Heap.lookup h' b = Heap.lookup h b) /\
       Heap.xyzimage_free h' image = Heap.Undefined /\
       forall next,
         xyzimage_is_valid (Some next) = true ->
         exists h'',
           Heap.xyzimage_free (Heap.store h' a next) image = Heap.Returns (1, h'') /\
           Heap.lookup h'' a = None).
Proof.
  intros Hd. split; intros Hv.
  - unfold Heap.xyzimage_free. rewrite Hd, (free_not_live m Hv).
    rewrite (heap_settle_kept h image m Hd). reflexivity.
  - destruct m as [img|]; [|discriminate Hv].
    destruct (heap_deref_block h image img Hd) as (a & -> & Hl).
    exists a, (Heap.remove h a). split; [reflexivity|].
    split; [|split; [|split; [|split]]].
    + unfold Heap.xyzimage_free. rewrite Hd.
      rewrite (proj1 (free_live img Hv)). reflexivity.
    + apply heap_lookup_remove.
    + intros b Hb. apply heap_lookup_remove_other. exact Hb.
    + unfold Heap.xyzimage_free, Heap.deref. rewrite heap_lookup_remove. reflexivity.
    + intros next Hn. eexists. split.
      * unfold Heap.xyzimage_free, Heap.deref. rewrite heap_lookup_store.
        rewrite (proj1 (free_live next Hn)). reflexivity.
      * cbn [Heap.settle]. apply heap_lookup_remove.
Qed.

(** X8. For a live handle with dimensions in range [xyzimage_get_filesize]
    is [width * height + 8 + 768] -- the nominal size plus the header --
    with no wrap-around in the 32-bit arithmetic of the source. *)
Theorem filesize_is_nominal_plus_header img :
  xyzimage_is_valid (Some img) = true ->
  0 <= width img < 2 ^ 16 -> 0 <= height img < 2 ^ 16 ->
  xyzimage_get_filesize (Some img) = nominal (width img) (height img) + 8.
Proof.
  intros Hv Hw Hh. unfold xyzimage_get_filesize. rewrite Hv. cbn [negb].
  pose proof (dims_product_range _ _ Hw Hh) as Hwh.
  rewrite u32_dims by assumption.
  unfold usize, u32, nominal, XYZPRIV_HEADER_SIZE, XYZIMAGE_PALETTE_SIZE,
    XYZIMAGE_PALETTE_ENTRIES.
  change (2 ^ 32) with 4294967296. change (2 ^ 64) with 18446744073709551616.
  change (256 * 3) with 768.
  rewrite (Z.mod_small (width img * height img + 8)) by lia.
  rewrite (Z.mod_small (width img * height img + 8 + 768) 4294967296) by lia.
  rewrite Z.mod_small by lia. lia.
Qed.

(** *** Decoding *)

Lemma set_error_callback error s which :
  xyzpriv_set_error (callback_error error s) which = xyzpriv_set_error error which.
Proof. destruct s, error; reflexivity. Qed.

Lemma fill_error {U} img out error (ud : U) log :
  o_error (xyzimage_open_fill img out error ud log) = error.
Proof.
  unfold xyzimage_open_fill.
  destruct (xyzimage_get_buffer _ _) as [[buf|] [n|]]; reflexivity.
Qed.

Lemma inflate_success_error {U} img n compressed res error (ud : U) log img' :
  o_image (xyzimage_open_inflate img n compressed res error ud log) = Some img' ->
  o_error (xyzimage_open_inflate img n compressed res error ud log) = error.
Proof.
  unfold xyzimage_open_inflate.
  destruct (uncompress _ _) as [code out].
  destruct (negb (code =? Z_OK)); [discriminate|].
  destruct (negb (len out =? n)); [discriminate|].
  intros _. apply fill_error.
Qed.

Lemma payload_success_error {U} (rd : xyzimage_read_func_t U) img n error ud log img' :
  o_image (xyzimage_open_payload rd img n error ud log) = Some img' ->
  o_error (xyzimage_open_payload rd img n error ud log) = error.
Proof.
  unfold xyzimage_open_payload.
  destruct (rd ud n) as [[got s] ud1]. cbv beta iota zeta.
  destruct (error_eqb _ XYZIMAGE_ERROR_OK).
  - destruct (negb (malloc_ok _)); [discriminate|].
    destruct (rd ud1 n) as [[got2 s2] ud2]. cbv beta iota zeta.
    destruct (negb (error_eqb _ XYZIMAGE_ERROR_IO_READ_END_OF_FILE)).
    + destruct (error_eqb _ XYZIMAGE_ERROR_OK); discriminate.
    + apply inflate_success_error.
  - destruct (negb (error_eqb _ XYZIMAGE_ERROR_IO_READ_END_OF_FILE)).
    + discriminate.
    + apply inflate_success_error.
Qed.

(** The shape of every handle [xyzimage_open] returns, and of the run that
    produced it. *)
Lemma open_image_shape {U} (ud : U) rd error img :
  o_image (xyzimage_open ud rd error) = Some img ->
  exists rdf hdr s0 ud1 wb s1 ud2 hb s2 ud3 res out,
    rd = Some rdf /\
    rdf ud 4 = (hdr, s0, ud1) /\
    rdf ud1 2 = (wb, s1, ud2) /\
    rdf ud2 2 = (hb, s2, ud3) /\
    len out = nominal (xyzpriv_swap_when_big (load_u16 wb))
                      (xyzpriv_swap_when_big (load_u16 hb)) /\
    img = set_data
            (set_palette
               (set_data_len_compressed
                  (blank_image (xyzpriv_swap_when_big (load_u16 wb))
                               (xyzpriv_swap_when_big (load_u16 hb))) res)
               (read_palette out))
            (Some (skipn (Z.to_nat XYZIMAGE_PALETTE_SIZE) out)) /\
    o_error (xyzimage_open ud rd error)
      = xyzpriv_set_error error XYZIMAGE_ERROR_OK.
Proof.
  unfold xyzimage_open. destruct rd as [rd|]; [|discriminate].
  destruct (rd ud 4) as [[hdr s0] ud1] eqn:R0. cbv beta iota zeta.
  destruct (_ || _); [discriminate|].
  destruct (negb (bytes_eqb _ _)); [discriminate|].
  destruct (rd ud1 2) as [[wb s1] ud2] eqn:R1. cbv beta iota zeta.
  destruct (_ || _); [discriminate|].
  destruct (rd ud2 2) as [[hb s2] ud3] eqn:R2. cbv beta iota zeta.
  destruct (_ || _); [discriminate|].
  pose proof (swapped_load_range wb) as Hw.
  pose proof (swapped_load_range hb) as Hh.
  set (w := xyzpriv_swap_when_big (load_u16 wb)) in *.
  set (h := xyzpriv_swap_when_big (load_u16 hb)) in *.
  pose proof (dims_product_range w h Hw Hh) as Hwh.
  destruct (malloc_ok (w * h)) eqn:Mi.
  - rewrite alloc_blank by assumption.
    rewrite !set_error_callback, set_error_twice, error_not_set.
    cbn [width height blank_image].
    rewrite xyz_size_nominal by assumption.
    destruct (negb (malloc_ok (nominal w h))); [discriminate|].
    intros H.
    pose proof (payload_success_error _ _ _ _ _ _ _ H) as He.
    apply payload_image with (buf := fresh (w * h)) in H;
      [| reflexivity | reflexivity
       | cbn [data_len blank_image]; apply len_fresh; lia | reflexivity].
    destruct H as (res & out & Hl & ->).
    exists rd, hdr, s0, ud1, wb, s1, ud2, hb, s2, ud3, res, out.
    repeat split; try assumption; reflexivity.
  - rewrite alloc_refused by assumption. discriminate.
Qed.

(** X4. [xyzimage_open] never returns a handle together with an error:
    whenever it returns a handle, the error cell (when there is one) holds
    XYZIMAGE_ERROR_OK, whatever the read function stored on the way. *)
Theorem open_handle_comes_with_ok {U} (ud : U) rd error img :
  o_image (xyzimage_open ud rd error) = Some img ->
  o_error (xyzimage_open ud rd error) = xyzpriv_set_error error XYZIMAGE_ERROR_OK /\
  error_is_set (o_error (xyzimage_open ud rd error)) = false.
Proof.
  intros H.
  destruct (open_image_shape ud rd error img H)
    as (rdf & hdr & s0 & ud1 & wb & s1 & ud2 & hb & s2 & ud3 & res & out & Hs).
  destruct Hs as (_ & _ & _ & _ & _ & _ & He).
  rewrite He. split; [reflexivity | apply error_not_set].
Qed.

(** X17. The dimensions are read low byte first on either host: the handle
    [xyzimage_open] returns has the width [b0 + 256 * b1] for the two bytes
    [b0 b1] the second read delivered, and the height likewise from the
    third read. *)
Theorem open_reads_dimensions_little_endian {U} (rd : xyzimage_read_func_t U)
    ud error img hdr s0 ud1 wb s1 ud2 hb s2 ud3 :
  rd ud 4 = (hdr, s0, ud1) ->
  rd ud1 2 = (wb, s1, ud2) ->
  rd ud2 2 = (hb, s2, ud3) ->
  o_image (xyzimage_open ud (Some rd) error) = Some img ->
  width img = byte_to_Z (nth 0 wb x00) + 256 * byte_to_Z (nth 1 wb x00) /\
  height img = byte_to_Z (nth 0 hb x00) + 256 * byte_to_Z (nth 1 hb x00).
Proof.
  intros R0 R1 R2 H.
  destruct (open_image_shape ud (Some rd) error img H)
    as (rdf & hdr' & s0' & ud1' & wb' & s1' & ud2' & hb' & s2' & ud3' & res & out & Hs).
  destruct Hs as ([= <-] & R0' & R1' & R2' & _ & -> & _).
  rewrite R0 in R0'. injection R0' as <- <- <-.
  rewrite R1 in R1'. injection R1' as <- <- <-.
  rewrite R2 in R2'. injection R2' as <- <- <-.
  cbn [width height set_data set_palette set_data_len_compressed blank_image].
  rewrite !swapped_load_is_le. split; reflexivity.
Qed.

(** X18. Every handle [xyzimage_open] returns is of the default format with
    the built-in compression function installed; its palette accessor
    succeeds, and its buffer accessor gives the pixel buffer and reports
    [width * height] as its length. *)
Theorem opened_handle_has_defaults {U} (ud : U) rd error img e lenp :
  o_image (xyzimage_open ud rd error) = Some img ->
  xyzimage_get_format (Some img) = XYZIMAGE_FORMAT_DEFAULT /\
  compress_func img = xyzpriv_compress_func /\
  xyzimage_get_palette (Some img) e
    = (Some (palette img), xyzpriv_set_error e XYZIMAGE_ERROR_OK) /\
  xyzimage_get_buffer (Some img) (Some lenp)
    = (data img, Some (width img * height img)) /\
  xyzimage_get_width (Some img) = width img /\
  xyzimage_get_height (Some img) = height img.
Proof.
  intros H.
  destruct (open_image_shape ud rd error img H)
    as (rdf & hdr & s0 & ud1 & wb & s1 & ud2 & hb & s2 & ud3 & res & out & Hs).
  destruct Hs as (_ & _ & _ & _ & _ & -> & _).
  repeat split.
Qed.

(** The decoder on a source that delivers header and payload, when zlib
    inflates the payload to the nominal size. *)
Lemma open_decodes {U} (rd : xyzimage_read_func_t U)
    ud w h ud3 payload ud' out error :
  0 <= w < 2 ^ 16 -> 0 <= h < 2 ^ 16 ->
  reads_header rd ud w h ud3 ->
  decode_memory w h ->
  reads_payload rd ud3 (nominal w h) payload ud' ->
  uncompress payload (nominal w h) = (Z_OK, out) ->
  len out = nominal w h ->
  exists log,
    xyzimage_open ud (Some rd) error
    = mkOpen (Some (decoded_image w h (len payload) (read_palette out)
                      (skipn (Z.to_nat XYZIMAGE_PALETTE_SIZE) out)))
             (xyzpriv_set_error error XYZIMAGE_ERROR_OK) ud' log.
Proof.
  intros Hw Hh Hhd (Mi & Mn & M2) Hp Hu Hl.
  pose proof (nominal_range w h Hw Hh) as Hn.
  pose proof (dims_product_range w h Hw Hh) as Hwh.
  rewrite (open_reaches_payload rd ud w h ud3) by assumption.
  destruct (payload_reaches_inflate rd (blank_image w h) (nominal w h) payload ud3 ud'
              (xyzpriv_set_error error XYZIMAGE_ERROR_OK)
              [EvRead 4; EvRead 2; EvRead 2;
               EvAlloc compressed_xyz (nominal w h);
               EvAlloc decompressed_xyz (nominal w h)])
    as (compressed & log & E & F); try assumption; try lia.
  { apply double_nominal; assumption. }
  rewrite E.
  rewrite (inflate_reaches_fill _ _ _ _ _ _ _ out);
    [| rewrite F; exact Hu | exact Hl].
  rewrite fill_result with (buf := fresh (w * h)).
  - exists log. reflexivity.
  - reflexivity.
  - reflexivity.
  - cbn [data_len set_data_len_compressed blank_image]. apply len_fresh. lia.
  - cbn [data_len set_data_len_compressed blank_image]. exact Hl.
Qed.

Lemma nth_map_seq {A} (f : nat -> A) n i d :
  (i < n)%nat -> nth i (map f (seq 0 n)) d = f i.
Proof.
  intros Hi. rewrite (nth_indep _ d (f 0%nat)) by (rewrite length_map, length_seq; exact Hi).
  rewrite map_nth. rewrite seq_nth by exact Hi. reflexivity.
Qed.

(** X7. What the decoder makes of the inflated bytes: when the source
    delivers header and payload and zlib inflates the payload to [out] of the
    nominal size, [xyzimage_open] returns a handle with the dimensions of the
    header, palette entry [i] = (out[3i], out[3i+1], out[3i+2]) for every
    [i] below 256, the pixels [out[768..]], and the number of payload bytes
    read as compressed size; the error cell holds XYZIMAGE_ERROR_OK. *)
Theorem open_splits_the_inflated_payload {U} (rd : xyzimage_read_func_t U)
    ud w h ud3 payload ud' out error :
  0 <= w < 2 ^ 16 -> 0 <= h < 2 ^ 16 ->
  reads_header rd ud w h ud3 ->
  decode_memory w h ->
  reads_payload rd ud3 (nominal w h) payload ud' ->
  uncompress payload (nominal w h) = (Z_OK, out) ->
  len out = nominal w h ->
  let r := xyzimage_open ud (Some rd) error in
  exists img,
    o_image r = Some img /\
    o_error r = xyzpriv_set_error error XYZIMAGE_ERROR_OK /\
    o_userdata r = ud' /\
    width img = w /\ height img = h /\
    (forall i, (i < 256)%nat ->
       nth i (entry (palette img)) zero_entry
       = mkEntry (nth (i * 3) out x00) (nth (i * 3 + 1) out x00)
                 (nth (i * 3 + 2) out x00)) /\
    data img = Some (skipn 768 out) /\
    data_len img = w * h /\
    data_len_compressed img = len payload.
Proof.
  intros Hw Hh Hhd Hm Hp Hu Hl. cbv zeta.
  destruct (open_decodes rd ud w h ud3 payload ud' out error) as [log E];
    try assumption.
  rewrite E. eexists. split; [reflexivity|].
  cbn [o_error o_userdata decoded_image width height palette data data_len
       data_len_compressed set_data set_palette set_data_len_compressed blank_image].
  do 4 (split; [reflexivity|]). split; [|repeat split].
  intros i Hi. unfold read_palette. cbn [entry].
  rewrite nth_map_seq by exact Hi. reflexivity.
Qed.

(** X9. After a successful decode [xyzimage_get_compressed_filesize] is the
    number of payload bytes read plus the 8 header bytes. *)
Theorem compressed_filesize_after_open {U} (rd : xyzimage_read_func_t U)
    ud w h ud3 payload ud' out error :
  0 <= w < 2 ^ 16 -> 0 <= h < 2 ^ 16 ->
  reads_header rd ud w h ud3 ->
  decode_memory w h ->
  reads_payload rd ud3 (nominal w h) payload ud' ->
  uncompress payload (nominal w h) = (Z_OK, out) ->
  len out = nominal w h ->
  xyzimage_get_compressed_filesize (o_image (xyzimage_open ud (Some rd) error))
  = len payload + 8.
Proof.
  intros Hw Hh Hhd Hm Hp Hu Hl.
  destruct (open_decodes rd ud w h ud3 payload ud' out error) as [log E];
    try assumption.
  rewrite E. cbn [o_image].
  unfold xyzimage_get_compressed_filesize.
  change (xyzimage_is_valid (Some (decoded_image w h (len payload) (read_palette out)
            (skipn (Z.to_nat XYZIMAGE_PALETTE_SIZE) out)))) with true.
  cbn [negb decoded_image data_len_compressed set_data set_palette
       set_data_len_compressed].
  pose proof (nominal_range w h Hw Hh) as Hn.
  pose proof (len_nonneg payload) as H0.
  assert (len payload <= 2 * nominal w h).
  { destruct Hp as [[_ Hle] | (p1 & s & ud1 & p2 & _ & _ & L1 & _ & L2 & ->)].
    - lia.
    - rewrite len_app. lia. }
  unfold usize, XYZPRIV_HEADER_SIZE. apply Z.mod_small.
  change (2 ^ 64) with 18446744073709551616. change (2 ^ 32) with 4294967296 in Hn.
  lia.
Qed.

(** X6. Decompression failure: when the source delivers header and payload
    and zlib's [uncompress] returns a code other than [Z_OK],
    [xyzimage_open] returns NULL with XYZIMAGE_ERROR_ZLIB. *)
Theorem inflate_failure_is_zlib_error {U} (rd : xyzimage_read_func_t U)
    ud w h ud3 payload ud' code out error :
  0 <= w < 2 ^ 16 -> 0 <= h < 2 ^ 16 ->
  reads_header rd ud w h ud3 ->
  decode_memory w h ->
  reads_payload rd ud3 (nominal w h) payload ud' ->
  uncompress payload (nominal w h) = (code, out) ->
  code <> Z_OK ->
  let r := xyzimage_open ud (Some rd) error in
  o_image r = None /\ o_error r = xyzpriv_set_error error XYZIMAGE_ERROR_ZLIB.
Proof.
  intros Hw Hh Hhd (Mi & Mn & M2) Hp Hu Hc. cbv zeta.
  pose proof (nominal_range w h Hw Hh) as Hn.
  rewrite (open_reaches_payload rd ud w h ud3) by assumption.
  destruct (payload_reaches_inflate rd (blank_image w h) (nominal w h) payload ud3 ud'
              (xyzpriv_set_error error XYZIMAGE_ERROR_OK)
              [EvRead 4; EvRead 2; EvRead 2;
               EvAlloc compressed_xyz (nominal w h);
               EvAlloc decompressed_xyz (nominal w h)])
    as (compressed & log & E & F); try assumption; try lia.
  { apply double_nominal; assumption. }
  rewrite E. unfold xyzimage_open_inflate. rewrite F, Hu.
  cbv beta iota zeta.
  apply Z.eqb_neq in Hc. rewrite Hc. cbn [negb o_image o_error].
  rewrite set_error_twice. split; reflexivity.
Qed.

Lemma read_calls_app l1 l2 :
  read_calls (l1 ++ l2) = read_calls l1 ++ read_calls l2.
Proof.
  induction l1 as [| e l1 IH]; [reflexivity|].
  destruct e; cbn [app read_calls]; rewrite IH; reflexivity.
Qed.

Lemma payload_read_calls {U} (rd : xyzimage_read_func_t U) img n error ud log0 :
  let reads := read_calls (o_log (xyzimage_open_payload rd img n error ud log0)) in
  reads = read_calls log0 ++ [n] \/ reads = read_calls log0 ++ [n; n].
Proof.
  unfold xyzimage_open_payload.
  destruct (rd ud n) as [[got s] ud1]. cbv beta iota zeta.
  destruct (error_eqb _ XYZIMAGE_ERROR_OK).
  - destruct (negb (malloc_ok (usize (n * 2)))).
    + left. cbn [o_log]. rewrite !read_calls_app. cbn [read_calls].
      rewrite app_nil_r. reflexivity.
    + right. destruct (rd ud1 n) as [[got2 s2] ud2]. cbv beta iota zeta.
      destruct (negb (error_eqb _ XYZIMAGE_ERROR_IO_READ_END_OF_FILE)).
      * destruct (error_eqb _ XYZIMAGE_ERROR_OK); cbn [o_log];
          rewrite !read_calls_app; cbn [read_calls app];
          rewrite <- !app_assoc; reflexivity.
      * rewrite inflate_log, !read_calls_app. cbn [read_calls app].
        rewrite <- !app_assoc. reflexivity.
  - left. destruct (negb (error_eqb _ XYZIMAGE_ERROR_IO_READ_END_OF_FILE)).
    + cbn [o_log]. rewrite !read_calls_app. reflexivity.
    + rewrite inflate_log, !read_calls_app. reflexivity.
Qed.

(** X5. What the decoder asks of its source: once the header for [w] x [h]
    has been delivered, the read function is called at least three and at
    most five times, for 4, 2, 2, [nominal] and [nominal] bytes in this
    order, whatever it answers -- never for more than
    [8 + 2 * nominal] bytes in all. *)
Theorem open_reads_at_most_twice_nominal {U} (rd : xyzimage_read_func_t U)
    ud w h ud3 error :
  0 <= w < 2 ^ 16 -> 0 <= h < 2 ^ 16 ->
  reads_header rd ud w h ud3 ->
  let reads := read_calls (o_log (xyzimage_open ud (Some rd) error)) in
  reads = [4; 2; 2] \/
  reads = [4; 2; 2; nominal w h] \/
  reads = [4; 2; 2; nominal w h; nominal w h].
Proof.
  intros Hw Hh Hhd. cbv zeta.
  rewrite (open_after_header rd ud w h ud3) by assumption.
  destruct (malloc_ok (w * h)); cbn [negb]; [|left; reflexivity].
  destruct (malloc_ok (nominal w h)); cbn [negb]; [|left; reflexivity].
  destruct (payload_read_calls rd (blank_image w h) (nominal w h)
              (xyzpriv_set_error error XYZIMAGE_ERROR_OK) ud3
              [EvRead 4; EvRead 2; EvRead 2;
               EvAlloc compressed_xyz (nominal w h);
               EvAlloc decompressed_xyz (nominal w h)]) as [E | E];
    rewrite E; [right; left | right; right]; reflexivity.
Qed.

(** *** The file-stream adapters *)

(** X22. [xyzpriv_fread_func] keeps the contract of a read function: on a
    stream it delivers at most [amount] bytes; it stores a code exactly when
    it delivers fewer, and that code is XYZIMAGE_ERROR_IO_READ_END_OF_FILE
    when the end-of-file indicator is set and XYZIMAGE_ERROR_IO_READ_GENERIC
    otherwise; without a stream it delivers nothing and stores
    XYZIMAGE_ERROR_POINTER_BAD. *)
Theorem fread_func_keeps_the_read_contract amount :
  0 <= amount ->
  xyzpriv_fread_func None amount = ([], Some XYZIMAGE_ERROR_POINTER_BAD, None) /\
  forall file,
    let got := fst (fst (xyzpriv_fread_func (Some file) amount)) in
    let stored := snd (fst (xyzpriv_fread_func (Some file) amount)) in
    len got <= amount /\
    (len got = amount <-> stored = None) /\
    (stored = None \/
     stored = Some XYZIMAGE_ERROR_IO_READ_END_OF_FILE \/
     stored = Some XYZIMAGE_ERROR_IO_READ_GENERIC) /\
    (f_fault file = false -> len (f_bytes file) < amount ->
       got = f_bytes file /\ stored = Some XYZIMAGE_ERROR_IO_READ_END_OF_FILE) /\
    (f_fault file = true -> 0 < amount -> f_eof file = false ->
       got = [] /\ stored = Some XYZIMAGE_ERROR_IO_READ_GENERIC).
Proof.
  intros Ha. split; [reflexivity|]. intros file. cbv zeta.
  split; [|split; [|split; [|split]]].
  - unfold xyzpriv_fread_func, fread. destruct (f_fault file).
    + destruct (negb (len [] =? amount)); [destruct (feof file)|]; cbn [fst snd];
        rewrite len_nil; exact Ha.
    + match goal with
      | |- context [negb (?a =? ?b)] => destruct (negb (a =? b))
      end; [match goal with |- context [feof ?f] => destruct (feof f) end|];
        cbn [fst snd]; rewrite len_firstn by exact Ha; lia.
  - unfold xyzpriv_fread_func.
    destruct (fread file amount) as [got file'].
    destruct (Z.eqb_spec (len got) amount) as [E | E]; cbn [negb].
    + cbn [fst snd]. split; [reflexivity | intros _; exact E].
    + destruct (feof file'); cbn [fst snd]; split; try contradiction; discriminate.
  - unfold xyzpriv_fread_func.
    destruct (fread file amount) as [got file'].
    destruct (negb (len got =? amount)); [destruct (feof file')|]; cbn [fst snd];
      [right; left | right; right | left]; reflexivity.
  - intros Hf Hl. rewrite fread_short by assumption. split; reflexivity.
  - intros Hf Hpos He. unfold xyzpriv_fread_func, fread. rewrite Hf.
    change (len (@nil byte)) with 0.
    replace (0 =? amount) with false by (symmetry; apply Z.eqb_neq; lia).
    cbn [negb]. unfold feof. rewrite He. split; reflexivity.
Qed.

(** X19. A file stream too short to hold the 8-byte header never gives a
    handle: [xyzimage_fopen] returns NULL with
    XYZIMAGE_ERROR_IO_READ_END_OF_FILE, or with
    XYZIMAGE_ERROR_IO_READ_BAD_HEADER when its first four bytes are there
    and are not the magic. *)
Theorem truncated_header_is_refused file e :
  f_fault file = false ->
  len (f_bytes file) < 8 ->
  let r := xyzimage_fopen (Some file) (Some e) in
  o_image r = None /\
  (o_error r = Some XYZIMAGE_ERROR_IO_READ_END_OF_FILE \/
   (4 <= len (f_bytes file) /\ firstn 4 (f_bytes file) <> xyz_magic /\
    o_error r = Some XYZIMAGE_ERROR_IO_READ_BAD_HEADER)).
Proof.
  intros Hf Hl. cbv zeta. unfold xyzimage_fopen, xyzimage_open.
  cbn [xyzpriv_set_error].
  pose proof (len_nonneg (f_bytes file)) as H0.
  destruct (Z.lt_ge_cases (len (f_bytes file)) 4) as [H4 | H4].
  - rewrite fread_short by assumption. cbv beta iota zeta.
    replace (len (f_bytes file) =? 4) with false by (symmetry; apply Z.eqb_neq; lia).
    cbn [negb orb o_image o_error callback_error xyzpriv_set_error].
    split; [reflexivity | left; reflexivity].
  - set (a := firstn 4 (f_bytes file)). set (rest := skipn 4 (f_bytes file)).
    assert (La : len a = 4).
    { subst a. change 4%nat with (Z.to_nat 4). rewrite len_firstn; lia. }
    assert (Lr : len rest < 4).
    { subst rest. change 4%nat with (Z.to_nat 4). rewrite len_skipn; lia. }
    assert (Hb : f_bytes file = a ++ rest) by (symmetry; apply firstn_skipn).
    pose proof (fread_exact file a rest Hf Hb) as R0. rewrite La in R0.
    rewrite R0. cbv beta iota zeta. rewrite La.
    cbn [Z.eqb Pos.eqb negb orb callback_error error_is_set error_eqb].
    rewrite (firstn_all2 (n := 4) a) by (unfold len in La; lia).
    destruct (bytes_eqb a xyz_magic) eqn:Em; cbn [negb].
    + pose proof (len_nonneg rest) as Hr0.
      destruct (Z.lt_ge_cases (len rest) 2) as [H2 | H2].
      * rewrite (fread_short (mkFILE rest (f_eof file) false) 2 eq_refl H2).
        cbv beta iota zeta. cbn [f_bytes].
        replace (len rest =? 2) with false by (symmetry; apply Z.eqb_neq; lia).
        cbn [negb orb o_image o_error callback_error xyzpriv_set_error].
        split; [reflexivity | left; reflexivity].
      * set (b := firstn 2 rest). set (rest2 := skipn 2 rest).
        assert (Lb : len b = 2).
        { subst b. change 2%nat with (Z.to_nat 2). rewrite len_firstn; lia. }
        assert (Lr2 : len rest2 < 2).
        { subst rest2. change 2%nat with (Z.to_nat 2). rewrite len_skipn; lia. }
        assert (Hb2 : rest = b ++ rest2) by (symmetry; apply firstn_skipn).
        pose proof (fread_exact (mkFILE rest (f_eof file) false) b rest2 eq_refl Hb2)
          as R1.
        rewrite Lb in R1. rewrite R1. cbv beta iota zeta. rewrite Lb.
        cbn [Z.eqb Pos.eqb negb orb callback_error error_is_set error_eqb f_eof].
        rewrite (fread_short (mkFILE rest2 (f_eof file) false) 2 eq_refl Lr2).
        cbv beta iota zeta. cbn [f_bytes].
        replace (len rest2 =? 2) with false by (symmetry; apply Z.eqb_neq; lia).
        cbn [negb orb o_image o_error callback_error xyzpriv_set_error].
        split; [reflexivity | left; reflexivity].
    + cbn [o_image o_error xyzpriv_set_error].
      split; [reflexivity|]. right. split; [lia|]. split; [|reflexivity].
      intros Heq. apply bytes_eqb_eq in Heq. congruence.
Qed.

(** X20. The threshold of the oversized-stream error for file streams: a
    file whose payload has [2 * nominal] bytes or more is refused with
    XYZIMAGE_ERROR_IO_READ_IMAGE_TOO_BIG, whatever the payload holds. *)
Theorem file_payload_of_twice_nominal_is_too_big file w h payload error :
  0 <= w < 2 ^ 16 -> 0 <= h < 2 ^ 16 ->
  f_fault file = false ->
  f_bytes file = xyz_magic ++ le16 w ++ le16 h ++ payload ->
  2 * nominal w h <= len payload ->
  decode_memory w h ->
  let r := xyzimage_fopen (Some file) error in
  o_image r = None /\
  o_error r = xyzpriv_set_error error XYZIMAGE_ERROR_IO_READ_IMAGE_TOO_BIG.
Proof.
  intros Hw Hh Hf Hb Hl (Mi & Mn & M2). cbv zeta. unfold xyzimage_fopen.
  pose proof (nominal_range w h Hw Hh) as Hn.
  set (n := nominal w h) in *.
  rewrite (open_reaches_payload xyzpriv_fread_func (Some file) w h
             (Some (mkFILE payload (f_eof file) false))); try assumption;
    [| apply fread_reads_header; assumption].
  fold n. unfold xyzimage_open_payload.
  set (p1 := firstn (Z.to_nat n) payload). set (r1 := skipn (Z.to_nat n) payload).
  assert (L1 : len p1 = n) by (subst p1; rewrite len_firstn; lia).
  assert (Lr : n <= len r1) by (subst r1; rewrite len_skipn; lia).
  pose proof (fread_exact (mkFILE payload (f_eof file) false) p1 r1 eq_refl
                (eq_sym (firstn_skipn _ _))) as R1.
  rewrite L1 in R1. rewrite R1. cbv beta iota zeta. cbn [error_eqb f_eof].
  replace (usize (n * 2)) with (2 * n) by (symmetry; apply double_nominal; assumption).
  rewrite M2. cbn [negb].
  set (p2 := firstn (Z.to_nat n) r1). set (r2 := skipn (Z.to_nat n) r1).
  assert (L2 : len p2 = n) by (subst p2; rewrite len_firstn; lia).
  pose proof (fread_exact (mkFILE r1 (f_eof file) false) p2 r2 eq_refl
                (eq_sym (firstn_skipn _ _))) as R2.
  rewrite L2 in R2. rewrite R2. cbv beta iota zeta.
  cbn [error_eqb negb o_image o_error]. rewrite !set_error_twice.
  split; reflexivity.
Qed.

(** *** Encoding *)

(** X21. The built-in compression function keeps the contract of a
    compression callback: whenever it stores a code -- and it stores no
    other than XYZIMAGE_ERROR_BUFFER_TOO_SMALL, XYZIMAGE_ERROR_OUT_OF_MEMORY
    and XYZIMAGE_ERROR_IO_COMPRESS -- it returns 0 and leaves the output
    buffer as it was; when it stores none, [compress2] returned [Z_OK], the
    count is the size of what [compress2] produced, and those bytes are at
    the start of the output buffer if the buffer holds them. *)
Theorem default_compressor_keeps_the_contract buffer_in len_in buffer_out len_out :
  let r := xyzpriv_compress_func buffer_in len_in buffer_out len_out in
  let z := compress2 (firstn (Z.to_nat len_in) buffer_in) (compressBound len_in)
                     Z_BEST_COMPRESSION in
  (forall c, snd r = Some c ->
     fst (fst r) = 0 /\ snd (fst r) = buffer_out /\
     (c = XYZIMAGE_ERROR_BUFFER_TOO_SMALL \/
      c = XYZIMAGE_ERROR_OUT_OF_MEMORY \/
      c = XYZIMAGE_ERROR_IO_COMPRESS)) /\
  (snd r = None ->
     fst z = Z_OK /\
     fst (fst r) = len (snd z) /\
     (len (snd z) <= len buffer_out ->
        firstn (Z.to_nat (fst (fst r))) (snd (fst r)) = snd z)) /\
  (malloc_ok (compressBound len_in) = false -> compressBound len_in <= len_out ->
     snd r = Some XYZIMAGE_ERROR_OUT_OF_MEMORY) /\
  (malloc_ok (compressBound len_in) = true -> compressBound len_in <= len_out ->
     fst z <> Z_OK -> snd r = Some XYZIMAGE_ERROR_IO_COMPRESS).
Proof.
  cbv zeta. unfold xyzpriv_compress_func.
  destruct (Z.gtb_spec (compressBound len_in) len_out) as [Hgt | Hle].
  - cbn [fst snd]. split; [|split; [|split]].
    + intros c [= <-]. split; [reflexivity|]. split; [reflexivity|]. left. reflexivity.
    + discriminate.
    + intros _ H. lia.
    + intros _ H. lia.
  - destruct (malloc_ok (compressBound len_in)); cbn [negb].
    + destruct (compress2 _ _ _) as [code out]. cbn [fst snd].
      destruct (Z.eqb_spec code Z_OK) as [E | E]; cbn [negb fst snd].
      * split; [|split; [|split]].
        -- discriminate.
        -- intros _. split; [exact E|]. split; [reflexivity|].
           intros Ho. apply memcpy_head. exact Ho.
        -- discriminate.
        -- intros _ _ Hne. contradiction.
      * split; [|split; [|split]].
        -- intros c [= <-]. split; [reflexivity|]. split; [reflexivity|].
           right. right. reflexivity.
        -- discriminate.
        -- discriminate.
        -- reflexivity.
    + cbn [fst snd]. split; [|split; [|split]].
      * intros c [= <-]. split; [reflexivity|]. split; [reflexivity|].
        right. left. reflexivity.
      * discriminate.
      * reflexivity.
      * discriminate.
Qed.

(** X16. What [xyzimage_write] does to a live handle.  It frees the handle
    on exactly one path: the one where the first compression call asks for
    more room and the [realloc] of the compressed buffer is refused; there
    the struct is scrubbed and freed with its pixel buffer.  On every other
    path the handle stays as it was, or as it was with a new
    [data_len_compressed]. *)
Theorem write_touches_only_the_compressed_size {U} img (ud : U) wf error :
  xyzimage_is_valid (Some img) = true ->
  let after := w_image (xyzimage_write (Some img) ud wf error) in
  ((exists last, after = Freed last) <-> realloc_refused img wf) /\
  (realloc_refused img wf ->
     after = Freed (set_data_len (set_data (set_header0 img chr_bang) None) 0)) /\
  (~ realloc_refused img wf ->
     after = Kept (Some img) \/
     exists size, after = Kept (Some (set_data_len_compressed img size))).
Proof.
  intros Hv. cbv zeta.
  pose proof (proj1 (free_live img Hv)) as Hfree.
  destruct (write_image img ud wf error Hv) as [[Hr E] | [Hn E]]; cbv zeta in E.
  - rewrite Hfree in E. cbn [snd] in E. split; [|split].
    + split; [intros _; exact Hr | intros _; eexists; exact E].
    + intros _. exact E.
    + intros Hn. contradiction.
  - split; [|split].
    + split; [|intros Hr; contradiction].
      intros [last Hl]. rewrite Hl in E.
      destruct E as [E | [size E]]; discriminate E.
    + intros Hr. contradiction.
    + intros _. exact E.
Qed.

(** X14. When the first compression call asks for more room and the
    [realloc] to [2 * nominal] bytes is refused, [xyzimage_write] returns 0
    with XYZIMAGE_ERROR_OUT_OF_MEMORY and has called [xyzimage_free] on the
    caller's handle: the struct is scrubbed and freed with its pixel buffer,
    and in the heap the handle's block is gone.  Nothing was written and the
    compression function was called once. *)
Theorem write_releases_the_handle_when_realloc_is_refused {U} img (ud : U) wf error :
  xyzimage_is_valid (Some img) = true ->
  format img = XYZIMAGE_FORMAT_DEFAULT ->
  0 <= width img < 2 ^ 16 -> 0 <= height img < 2 ^ 16 ->
  let n := nominal (width img) (height img) in
  malloc_ok n = true ->
  malloc_ok (2 * n) = false ->
  snd (compress_func img (xyzimage_write_fill img n) n (fresh n) n)
    = Some XYZIMAGE_ERROR_BUFFER_TOO_SMALL ->
  let r := xyzimage_write (Some img) ud (Some wf) error in
  w_ret r = 0 /\
  w_error r = xyzpriv_set_error error XYZIMAGE_ERROR_OUT_OF_MEMORY /\
  w_image r = Freed (set_data_len (set_data (set_header0 img chr_bang) None) 0) /\
  (forall h a,
     Heap.lookup h a = Some img ->
     Heap.xyzimage_write h (Some a) ud (Some wf) error
     = Heap.Returns (r, Heap.remove h a)) /\
  write_calls (w_log r) = [] /\
  compress_calls (w_log r) = [n] /\
  w_userdata r = ud.
Proof.
  intros Hv Hf Hw Hh n Hm1 Hm2 Hs. cbv zeta. subst n.
  assert (Hi : w_image (xyzimage_write (Some img) ud (Some wf) error)
               = Freed (set_data_len (set_data (set_header0 img chr_bang) None) 0)).
  { rewrite (write_stages img ud wf error) by assumption.
    rewrite Hm1. cbn [negb].
    destruct (compress_func img _ _ (fresh _) _) as [[size1 out1] s1].
    cbn [snd] in Hs. subst s1. cbn [first_code error_eqb].
    rewrite Hm2. cbn [negb w_image].
    rewrite (proj1 (free_live img Hv)). reflexivity. }
  split; [|split; [|split; [exact Hi|split]]].
  - rewrite (write_stages img ud wf error) by assumption.
    rewrite Hm1. cbn [negb].
    destruct (compress_func img _ _ (fresh _) _) as [[size1 out1] s1].
    cbn [snd] in Hs. subst s1. cbn [first_code error_eqb].
    rewrite Hm2. reflexivity.
  - rewrite (write_stages img ud wf error) by assumption.
    rewrite Hm1. cbn [negb].
    destruct (compress_func img _ _ (fresh _) _) as [[size1 out1] s1].
    cbn [snd] in Hs. subst s1. cbn [first_code error_eqb].
    rewrite Hm2. reflexivity.
  - intros h a Hl. unfold Heap.xyzimage_write, Heap.deref. rewrite Hl.
    cbv zeta. rewrite Hi. reflexivity.
  - rewrite (write_stages img ud wf error) by assumption.
    rewrite Hm1. cbn [negb].
    destruct (compress_func img _ _ (fresh _) _) as [[size1 out1] s1].
    cbn [snd] in Hs. subst s1. cbn [first_code error_eqb].
    rewrite Hm2. repeat split.
Qed.

Lemma valid_by_marker_and_version img img' :
  header img' = header img -> version img' = version img ->
  xyzimage_is_valid (Some img') = xyzimage_is_valid (Some img).
Proof. intros Hh Hvs. unfold xyzimage_is_valid. rewrite Hh, Hvs. reflexivity. Qed.

(** X26. The invariant -- the pixel buffer has [data_len = width * height]
    bytes and the palette 256 entries, that is 768 bytes -- holds for every
    handle [xyzimage_alloc] and [xyzimage_open] return.  A public operation
    on a live handle either leaves it live, with the invariant, the width,
    the height, the buffer and its length as they were, or frees it; the
    handle is freed by [xyzimage_free], and by [xyzimage_write] and
    [xyzimage_fwrite] on the path where the [realloc] of the compressed
    buffer is refused, and by nothing else. *)
Theorem handle_invariant_lasts_until_the_handle_is_freed :
  (forall w h fmt error img,
     0 <= w < 2 ^ 16 -> 0 <= h < 2 ^ 16 ->
     fst (xyzimage_alloc w h fmt error) = Some img ->
     xyzimage_is_valid (Some img) = true /\ handle_invariant img /\
     width img = w /\ height img = h) /\
  (forall U (ud : U) rd error img,
     o_image (xyzimage_open ud rd error) = Some img ->
     xyzimage_is_valid (Some img) = true /\ handle_invariant img) /\
  (forall img,
     handle_invariant img ->
     len (palette_bytes (palette img)) = 768 /\
     exists d, data img = Some d /\ len d = width img * height img) /\
  (forall U (c : public_call U) img,
     xyzimage_is_valid (Some img) = true ->
     handle_invariant img ->
     (exists img',
        after_call c (Some img) = Kept (Some img') /\
        xyzimage_is_valid (Some img') = true /\
        handle_invariant img' /\
        width img' = width img /\ height img' = height img /\
        data_len img' = data_len img /\ data img' = data img) \/
     (after_call c (Some img)
      = Freed (set_data_len (set_data (set_header0 img chr_bang) None) 0) /\
      (c = call_free \/
       (exists ud wf error, c = call_write ud wf error /\ realloc_refused img wf) \/
       (exists file error,
          c = call_fwrite file error /\ file <> None /\
          realloc_refused img (Some xyzpriv_fwrite_func))))).
Proof.
  split; [|split; [|split]].
  - intros w h fmt error img Hw Hh.
    destruct fmt; [cbn; discriminate|].
    destruct (malloc_ok (w * h)) eqn:Mi.
    + rewrite alloc_blank by assumption. cbn [fst]. intros [= <-].
      split; [reflexivity|]. split; [apply blank_image_invariant; assumption|].
      split; reflexivity.
    + rewrite alloc_refused by assumption. discriminate.
  - intros U ud rd error img. apply open_image_invariant.
  - intros img (Hw & Hh & Hdl & (d & Hd & Hld) & Hp). split.
    + apply (len_palette_bytes _ Hp).
    + exists d. split; [exact Hd | congruence].
  - intros U c img Hv Hinv.
    pose proof (proj1 (free_live img Hv)) as Hfree.
    assert (Hkept : forall b img',
              b = Kept (Some img') ->
              header img' = header img -> version img' = version img ->
              width img' = width img -> height img' = height img ->
              data_len img' = data_len img -> data img' = data img ->
              palette img' = palette img ->
              exists img'',
                b = Kept (Some img'') /\
                xyzimage_is_valid (Some img'') = true /\
                handle_invariant img'' /\
                width img'' = width img /\ height img'' = height img /\
                data_len img'' = data_len img /\ data img'' = data img).
    { intros b img' -> H1 H2 H3 H4 H5 H6 H7. exists img'.
      split; [reflexivity|].
      split; [rewrite (valid_by_marker_and_version img img' H1 H2); exact Hv|].
      split; [|repeat split; assumption].
      unfold handle_invariant in *. rewrite H3, H4, H5, H6, H7. exact Hinv. }
    assert (Hwrite : forall V (ud : V) wf error,
              (exists img',
                 w_image (xyzimage_write (Some img) ud wf error) = Kept (Some img') /\
                 xyzimage_is_valid (Some img') = true /\
                 handle_invariant img' /\
                 width img' = width img /\ height img' = height img /\
                 data_len img' = data_len img /\ data img' = data img) \/
              (w_image (xyzimage_write (Some img) ud wf error)
               = Freed (set_data_len (set_data (set_header0 img chr_bang) None) 0) /\
               realloc_refused img wf)).
    { intros V ud wf error.
      destruct (write_image img ud wf error Hv) as [[Hr E] | [_ [E | [size E]]]];
        cbv zeta in E.
      - right. split; [|exact Hr]. rewrite E, Hfree. reflexivity.
      - left. apply (Hkept _ img E); reflexivity.
      - left. apply (Hkept _ _ E); reflexivity. }
    destruct c as [ | | | e | | lenp | | | f | ud wf e | file e | ];
      cbn [after_call];
      try (left; apply (Hkept _ img eq_refl); reflexivity).
    + left. unfold xyzimage_set_compress_func. rewrite Hv. cbn [negb].
      destruct f; apply (Hkept _ _ eq_refl); reflexivity.
    + destruct (Hwrite U ud wf e) as [H | [H Hr]]; [left; exact H|].
      right. split; [exact H|]. right. left. exists ud, wf, e. split; [reflexivity|exact Hr].
    + unfold xyzimage_fwrite. rewrite Hv. cbn [negb].
      destruct file as [file|].
      * destruct (Hwrite (option FILE) (Some file) (Some xyzpriv_fwrite_func)
                    (xyzpriv_set_error e XYZIMAGE_ERROR_OK))
          as [H | [H Hr]]; [left; exact H|].
        right. split; [exact H|]. right. right. exists (Some file), e.
        split; [reflexivity|]. split; [discriminate|exact Hr].
      * left. apply (Hkept _ img eq_refl); reflexivity.
    + right. rewrite Hfree. split; [reflexivity|]. left. reflexivity.
Qed.

(** X15. With the built-in compression function the first call can never
    succeed when [compressBound nominal] exceeds [nominal] (as zlib's does):
    it is refused on the bound alone, so every write that gets its buffers
    makes exactly two compression calls, with capacities [nominal] and
    [2 * nominal]. *)
Theorem default_compressor_always_needs_the_retry {U} img (ud : U) wf error :
  xyzimage_is_valid (Some img) = true ->
  format img = XYZIMAGE_FORMAT_DEFAULT ->
  compress_func img = xyzpriv_compress_func ->
  0 <= width img < 2 ^ 16 -> 0 <= height img < 2 ^ 16 ->
  let n := nominal (width img) (height img) in
  malloc_ok n = true ->
  malloc_ok (2 * n) = true ->
  n < compressBound n ->
  compress_calls (w_log (xyzimage_write (Some img) ud (Some wf) error)) = [n; 2 * n].
Proof.
  intros Hv Hf Hc Hw Hh n Hm1 Hm2 Hb. subst n.
  rewrite (write_stages img ud wf error) by assumption.
  rewrite Hm1. cbn [negb]. rewrite Hc.
  rewrite default_compress_too_small by exact Hb.
  cbn [first_code error_eqb]. rewrite Hm2. cbn [negb].
  destruct (xyzpriv_compress_func _ _ _ _) as [[size2 out2] s2].
  rewrite emit_compress_calls. reflexivity.
Qed.

Lemma emit_write_prefix {U} wf img compressed size error (ud : U) log :
  exists rest,
    write_calls (w_log (xyzimage_write_emit wf img compressed size error ud log)) ++ rest
    = write_calls log ++
        [xyz_magic;
         store_u16 (xyzpriv_swap_when_big (width img));
         store_u16 (xyzpriv_swap_when_big (height img));
         firstn (Z.to_nat size) compressed].
Proof.
  unfold xyzimage_write_emit.
  destruct ((size =? 0) || error_is_set error); [eexists; reflexivity|].
  destruct (wf ud _) as [[r1 s1] ud1]. cbv beta iota zeta.
  cbn [width height set_data_len_compressed].
  destruct (_ || _);
    [eexists; cbn [w_log]; rewrite !write_calls_app; cbn [write_calls];
     rewrite <- !app_assoc; cbn [app]; reflexivity|].
  destruct (wf ud1 _) as [[r2 s2] ud2]. cbv beta iota zeta.
  destruct (_ || _);
    [eexists; cbn [w_log]; rewrite !write_calls_app; cbn [write_calls];
     rewrite <- !app_assoc; cbn [app]; reflexivity|].
  destruct (wf ud2 _) as [[r3 s3] ud3]. cbv beta iota zeta.
  destruct (_ || _);
    [eexists; cbn [w_log]; rewrite !write_calls_app; cbn [write_calls];
     rewrite <- !app_assoc; cbn [app]; reflexivity|].
  destruct (wf ud3 _) as [[r4 s4] ud4]. cbv beta iota zeta.
  destruct (_ || _);
    exists []; rewrite app_nil_r; cbn [w_log]; rewrite !write_calls_app;
    cbn [write_calls]; rewrite <- !app_assoc; reflexivity.
Qed.

(** X11. Whatever the compression and write functions do, the buffers
    [xyzimage_write] hands to the write function are an initial part of
    the sequence magic, width (low byte first), height (low byte first),
    payload: it never writes anything else, nor any part twice or out of
    order. *)
Theorem write_calls_are_a_prefix_of_the_container {U} img (ud : U) wf error :
  0 <= width img < 2 ^ 16 -> 0 <= height img < 2 ^ 16 ->
  exists payload rest,
    write_calls (w_log (xyzimage_write (Some img) ud wf error)) ++ rest
    = [xyz_magic; le16 (width img); le16 (height img); payload].
Proof.
  intros Hw Hh. unfold xyzimage_write.
  destruct (negb (xyzimage_is_valid (Some img))); [eexists [], _; reflexivity|].
  destruct wf as [wf|]; [|eexists [], _; reflexivity].
  destruct (format img); [eexists [], _; reflexivity|].
  destruct (negb (malloc_ok _)); [eexists [], _; reflexivity|].
  cbn [app].
  destruct (compress_func img _ _ _ _) as [[size1 out1] s1].
  destruct (error_eqb _ XYZIMAGE_ERROR_BUFFER_TOO_SMALL).
  - destruct (negb (malloc_ok _)); [eexists [], _; reflexivity|].
    destruct (compress_func img _ _ _ _) as [[size2 out2] s2].
    match goal with
    | |- context [xyzimage_write_emit ?a ?b ?c ?d ?e ?f ?g] =>
        destruct (emit_write_prefix a b c d e f g) as [rest E]
    end.
    rewrite !store_swapped_is_le16 in E by assumption.
    eexists _, rest. exact E.
  - match goal with
    | |- context [xyzimage_write_emit ?a ?b ?c ?d ?e ?f ?g] =>
        destruct (emit_write_prefix a b c d e f g) as [rest E]
    end.
    rewrite !store_swapped_is_le16 in E by assumption.
    eexists _, rest. exact E.
Qed.

(** X10. The container a write produces: for a live handle with the
    built-in compression function, on a working file stream,
    [xyzimage_write] returns 1 with XYZIMAGE_ERROR_OK and appends exactly
    the magic, the width and the height low byte first, and the stream
    [compress2] makes of the 256 palette entries as red, green, blue bytes
    followed by the pixel bytes; afterwards
    [xyzimage_get_compressed_filesize] is the number of bytes appended. *)
Theorem write_appends_the_container img d file error :
  zlib_contract ->
  xyzimage_is_valid (Some img) = true ->
  format img = XYZIMAGE_FORMAT_DEFAULT ->
  compress_func img = xyzpriv_compress_func ->
  handle_invariant img ->
  data img = Some d ->
  memory_suffices (width img) (height img) ->
  f_fault file = false ->
  let n := nominal (width img) (height img) in
  let c := snd (compress2 (flat_map triple (entry (palette img)) ++ d)
                          (compressBound n) Z_BEST_COMPRESSION) in
  let container := xyz_magic ++ le16 (width img) ++ le16 (height img) ++ c in
  let r := xyzimage_write (Some img) (Some file) (Some xyzpriv_fwrite_func) error in
  w_ret r = 1 /\
  w_error r = xyzpriv_set_error error XYZIMAGE_ERROR_OK /\
  w_userdata r = Some (mkFILE (f_bytes file ++ container) (f_eof file) false) /\
  w_image r = Kept (Some (set_data_len_compressed img (len c))) /\
  xyzimage_get_compressed_filesize (Some (set_data_len_compressed img (len c)))
  = len container.
Proof.
  intros Hz Hv Hf Hcf Hinv Hd Hmem Hff. cbv zeta.
  pose proof Hinv as (Hw & Hh & Hdl & (d' & Hd' & Hld) & Hp).
  rewrite Hd in Hd'. injection Hd' as <-.
  pose proof (nominal_range _ _ Hw Hh) as Hn.
  rewrite <- palette_bytes_flat by exact Hp.
  set (n := nominal (width img) (height img)) in *.
  set (src := palette_bytes (palette img) ++ d).
  assert (Hlen : len src = n).
  { subst src. rewrite len_app, len_palette_bytes by exact Hp.
    subst n. unfold nominal. rewrite Hld, Hdl. reflexivity. }
  pose proof Hz as (Hb & Hc & Hu).
  destruct (Hb n ltac:(lia)) as [Hb0 Hb2].
  destruct (Hc src Z_BEST_COMPRESSION) as [Hok Hcl].
  rewrite Hlen in Hok, Hcl.
  destruct (write_reaches_emit img d (Some file) xyzpriv_fwrite_func error
              Hz Hv Hf Hcf Hinv Hd Hmem) as (compressed & log & E & F).
  fold n src in E, F.
  set (c := snd (compress2 src (compressBound n) Z_BEST_COMPRESSION)) in *.
  rewrite E.
  destruct (emit_to_file img compressed c error file log Hw Hh Hff ltac:(lia) F)
    as (R1 & R2 & R3 & R4).
  split; [exact R1|]. split; [exact R3|]. split; [exact R4|].
  split; [exact R2|]. unfold xyzimage_get_compressed_filesize.
  replace (xyzimage_is_valid (Some (set_data_len_compressed img (len c)))) with true
    by (symmetry; exact Hv).
  cbn [negb data_len_compressed set_data_len_compressed].
  rewrite !len_app.
  change (len xyz_magic) with 4. change (len (le16 (width img))) with 2.
  change (len (le16 (height img))) with 2.
  unfold usize, XYZPRIV_HEADER_SIZE. rewrite Z.mod_small; [lia|].
  change (2 ^ 64) with 18446744073709551616. change (2 ^ 32) with 4294967296 in Hn.
  lia.
Qed.

Lemma fwrite_refused file buffer :
  f_fault file = true ->
  0 < len buffer ->
  xyzpriv_fwrite_func (Some file) buffer
  = (0, Some XYZIMAGE_ERROR_IO_WRITE, Some file).
Proof.
  intros Hf Hl. unfold xyzpriv_fwrite_func, fwrite. rewrite Hf.
  replace (0 =? len buffer) with false by (symmetry; apply Z.eqb_neq; lia).
  reflexivity.
Qed.

(** X12. A file stream that takes no bytes makes the write fail at its first
    write call: [xyzimage_write] returns 0 with XYZIMAGE_ERROR_IO_WRITE and
    the stream is as it was. *)
Theorem write_to_a_failing_stream img file error :
  zlib_contract ->
  xyzimage_is_valid (Some img) = true ->
  format img = XYZIMAGE_FORMAT_DEFAULT ->
  compress_func img = xyzpriv_compress_func ->
  handle_invariant img ->
  memory_suffices (width img) (height img) ->
  f_fault file = true ->
  let r := xyzimage_write (Some img) (Some file) (Some xyzpriv_fwrite_func) error in
  w_ret r = 0 /\
  w_error r = xyzpriv_set_error error XYZIMAGE_ERROR_IO_WRITE /\
  w_userdata r = Some file.
Proof.
  intros Hz Hv Hf Hcf Hinv Hmem Hff. cbv zeta.
  pose proof Hinv as (Hw & Hh & Hdl & (d & Hd & Hld) & Hp).
  pose proof (nominal_range _ _ Hw Hh) as Hn.
  destruct (write_reaches_emit img d (Some file) xyzpriv_fwrite_func error
              Hz Hv Hf Hcf Hinv Hd Hmem) as (compressed & log & E & F).
  rewrite E. unfold xyzimage_write_emit.
  rewrite error_not_set.
  destruct Hz as (_ & Hc & _).
  destruct (Hc (palette_bytes (palette img) ++ d) Z_BEST_COMPRESSION) as [_ Hcl].
  assert (Hlen : len (palette_bytes (palette img) ++ d)
                 = nominal (width img) (height img)).
  { rewrite len_app, len_palette_bytes by exact Hp.
    unfold nominal. rewrite Hld, Hdl. reflexivity. }
  rewrite Hlen in Hcl.
  match goal with
  | |- context [(?x =? 0) || false] =>
      replace (x =? 0) with false by (symmetry; apply Z.eqb_neq; lia)
  end.
  cbn [orb].
  rewrite (fwrite_refused file [chr_X; chr_Y; chr_Z; chr_1] Hff)
    by (cbv; reflexivity).
  cbv beta iota zeta.
  cbn [negb orb Z.eqb w_ret w_error w_userdata].
  split; [reflexivity|]. split; [|reflexivity].
  destruct error; reflexivity.
Qed.

(** X23. The round trip through the file-stream entry points: for a live
    handle with the built-in compression function, [xyzimage_fwrite] into an
    empty stream returns 1 and [xyzimage_fopen] on the bytes written returns
    a handle with the same width, height, palette and pixels; with a NULL
    stream both refuse with XYZIMAGE_ERROR_POINTER_BAD without any call of
    the adapters. *)
Theorem fwrite_then_fopen_round_trips img error error' :
  zlib_contract ->
  xyzimage_is_valid (Some img) = true ->
  format img = XYZIMAGE_FORMAT_DEFAULT ->
  compress_func img = xyzpriv_compress_func ->
  handle_invariant img ->
  memory_suffices (width img) (height img) ->
  let wr := xyzimage_fwrite (Some img) (Some (mkFILE [] false false)) error in
  (w_ret wr = 1 /\
   exists stream img',
     w_userdata wr = Some (mkFILE stream false false) /\
     o_image (xyzimage_fopen (Some (mkFILE stream false false)) error') = Some img' /\
     width img' = width img /\
     height img' = height img /\
     palette img' = palette img /\
     data img' = data img) /\
  xyzimage_fwrite (Some img) None error
    = mkWrite 0 (Kept (Some img)) (xyzpriv_set_error error XYZIMAGE_ERROR_POINTER_BAD) None [] /\
  xyzimage_fopen None error'
    = mkOpen None (xyzpriv_set_error error' XYZIMAGE_ERROR_POINTER_BAD) None [].
Proof.
  intros Hz Hv Hf Hcf Hinv Hmem. cbv zeta.
  pose proof Hinv as (Hw & Hh & Hdl & (d & Hd & Hld) & Hp).
  unfold xyzimage_fwrite, xyzimage_fopen. rewrite Hv. cbn [negb].
  rewrite !set_error_twice.
  split; [|split; reflexivity].
  destruct (encode_then_decode img d (xyzpriv_set_error error XYZIMAGE_ERROR_OK)
              (xyzpriv_set_error error' XYZIMAGE_ERROR_OK) Hz Hv Hf Hcf Hinv Hd Hmem)
    as (R1 & R2 & R3 & _).
  split; [exact R1|].
  eexists _, _. split; [exact R2|]. split; [exact R3|].
  cbn [decoded_image width height palette data set_data set_palette
       set_data_len_compressed blank_image].
  repeat split; congruence.
Qed.

Lemma decoded_image_invariant w h csize p d :
  0 <= w < 2 ^ 16 -> 0 <= h < 2 ^ 16 ->
  len d = w * h ->
  len (entry p) = XYZIMAGE_PALETTE_ENTRIES ->
  handle_invariant (decoded_image w h csize p d).
Proof.
  intros Hw Hh Hd Hp. unfold handle_invariant.
  cbn [decoded_image width height data_len data palette set_data set_palette
       set_data_len_compressed blank_image].
  split; [exact Hw|]. split; [exact Hh|]. split; [reflexivity|]. split; [|exact Hp].
  exists d. split; [reflexivity | exact Hd].
Qed.

(** X24. Re-encoding what was decoded reproduces the file byte for byte:
    for a live handle with the built-in compression function, the stream
    [xyzimage_write] produces is decoded by [xyzimage_open] into a handle
    whose own [xyzimage_write] produces the same stream again. *)
Theorem reencoding_reproduces_the_stream img error :
  zlib_contract ->
  xyzimage_is_valid (Some img) = true ->
  format img = XYZIMAGE_FORMAT_DEFAULT ->
  compress_func img = xyzpriv_compress_func ->
  handle_invariant img ->
  memory_suffices (width img) (height img) ->
  exists stream,
    w_userdata (xyzimage_write (Some img) (Some (mkFILE [] false false))
                  (Some xyzpriv_fwrite_func) error)
      = Some (mkFILE stream false false) /\
    w_ret (xyzimage_write
             (o_image (xyzimage_open (Some (mkFILE stream false false))
                         (Some xyzpriv_fread_func) error))
             (Some (mkFILE [] false false)) (Some xyzpriv_fwrite_func) error) = 1 /\
    w_userdata (xyzimage_write
                  (o_image (xyzimage_open (Some (mkFILE stream false false))
                              (Some xyzpriv_fread_func) error))
                  (Some (mkFILE [] false false)) (Some xyzpriv_fwrite_func) error)
      = Some (mkFILE stream false false).
Proof.
  intros Hz Hv Hf Hcf Hinv Hmem.
  pose proof Hinv as (Hw & Hh & Hdl & (d & Hd & Hld) & Hp).
  destruct (encode_then_decode img d error error Hz Hv Hf Hcf Hinv Hd Hmem)
    as (_ & R2 & R3 & _).
  eexists. split; [exact R2|]. rewrite R3.
  destruct (encode_then_decode
              (decoded_image (width img) (height img)
                 (len (snd (compress2 (palette_bytes (palette img) ++ d)
                              (compressBound (nominal (width img) (height img)))
                              Z_BEST_COMPRESSION)))
                 (palette img) d)
              d error error Hz eq_refl eq_refl eq_refl)
    as (S1 & S2 & _).
  - apply decoded_image_invariant; try assumption. congruence.
  - reflexivity.
  - exact Hmem.
  - split; [exact S1|]. exact S2.
Qed.

(** *** The older compression function *)

(** X25. The older revision's compression function judges the size
    [compress2] actually produced: with the scratch buffer granted and
    [compress2] successful it stores XYZIMAGE_ERROR_BUFFER_TOO_SMALL exactly
    when that size exceeds the capacity, so it succeeds with any capacity
    that holds the stream -- also one below [compressBound], which the
    current revision refuses; whenever it stores a code it returns 0 and
    leaves the output buffer as it was. *)
Theorem legacy_compressor_judges_the_actual_size buffer_in len_in buffer_out len_out :
  let r := Legacy.xyzpriv_compress_func buffer_in len_in buffer_out len_out in
  let z := compress2 (firstn (Z.to_nat len_in) buffer_in) (compressBound len_in)
                     Z_BEST_COMPRESSION in
  (forall c, snd r = Some c -> fst (fst r) = 0 /\ snd (fst r) = buffer_out) /\
  (malloc_ok (compressBound len_in) = true -> fst z = Z_OK ->
     (snd r = Some XYZIMAGE_ERROR_BUFFER_TOO_SMALL <-> len_out < len (snd z)) /\
     (len (snd z) <= len_out ->
        r = (len (snd z), memcpy buffer_out 0 (snd z) (len (snd z)), None)) /\
     (len (snd z) <= len_out < compressBound len_in ->
        snd r = None /\
        snd (xyzpriv_compress_func buffer_in len_in buffer_out len_out)
          = Some XYZIMAGE_ERROR_BUFFER_TOO_SMALL)).
Proof.
  cbv zeta. unfold Legacy.xyzpriv_compress_func.
  destruct (malloc_ok (compressBound len_in)); cbn [negb].
  - destruct (compress2 _ _ _) as [code out]. cbn [fst snd].
    destruct (Z.eqb_spec code Z_OK) as [E | E]; cbn [negb].
    + destruct (Z.gtb_spec (len out) len_out) as [Hgt | Hle]; cbn [fst snd].
      * split; [intros c _; split; reflexivity|].
        intros _ _. split; [split; [intros _; lia | reflexivity]|].
        split; intros H; lia.
      * split; [discriminate|].
        intros _ _. split; [split; [discriminate | intros H; lia]|].
        split; [reflexivity|].
        intros [_ Hb]. split; [reflexivity|].
        rewrite default_compress_too_small by exact Hb. reflexivity.
    + cbn [fst snd]. split; [intros c _; split; reflexivity|].
      intros _ H. contradiction.
  - cbn [fst snd]. split; [intros c _; split; reflexivity | discriminate].
Qed.

End Properties.

(** * The stand-in for zlib keeps the contract *)

Lemma stored_bound_below_double n :
  768 <= n -> 0 <= Stored.stored_compressBound n < 2 * n.
Proof.
  intros Hn. unfold Stored.stored_compressBound.
  rewrite !Z.shiftr_div_pow2 by lia.
  change (2 ^ 12) with 4096. change (2 ^ 14) with 16384.
  change (2 ^ 25) with 33554432.
  Z.div_mod_to_equations. lia.
Qed.

Lemma stored_bound_above n : 0 <= n -> n + 1 <= Stored.stored_compressBound n.
Proof.
  intros Hn. unfold Stored.stored_compressBound.
  rewrite !Z.shiftr_div_pow2 by lia.
  change (2 ^ 12) with 4096. change (2 ^ 14) with 16384.
  change (2 ^ 25) with 33554432.
  Z.div_mod_to_equations. lia.
Qed.

Lemma stored_zlib_contract (big_endian : bool) (grant : Z -> bool) :
  zlib_contract (P := {| host_is_big := big_endian;
                         malloc_ok := grant;
                         compressBound := Stored.stored_compressBound;
                         compress2 := Stored.stored_compress2;
                         uncompress := Stored.stored_uncompress |}).
Proof.
  unfold zlib_contract. cbn [compressBound compress2 uncompress].
  split; [|split].
  - apply stored_bound_below_double.
  - intros src lvl. unfold Stored.stored_compress2.
    pose proof (stored_bound_above (len src) (len_nonneg src)) as Hb.
    apply Z.leb_le in Hb as Hb'. rewrite Hb'. cbn [fst snd].
    rewrite len_cons. pose proof (len_nonneg src).
    split; [reflexivity | lia].
  - intros src cap lvl out room. unfold Stored.stored_compress2.
    destruct (len src + 1 <=? cap); [|discriminate].
    intros [= <-] Hroom. unfold Stored.stored_uncompress.
    apply Z.leb_le in Hroom. rewrite Hroom. reflexivity.
Qed.

(** * The theorems at concrete inputs *)

Lemma bad_magic_witness :
  let r := xyzimage_open (P := Stored.little) (Some Stored.bad_magic_file)
             (Some xyzpriv_fread_func) (Some XYZIMAGE_ERROR_OK) in
  o_image r = None /\
  o_error r = Some XYZIMAGE_ERROR_IO_READ_BAD_HEADER /\
  o_log r = [EvRead 4].
Proof.
  apply (bad_magic_is_malformed_header (P := Stored.little) xyzpriv_fread_func
           (Some Stored.bad_magic_file) (Some XYZIMAGE_ERROR_OK)
           [x41; x42; x43; x44] None (Some (mkFILE [] false false))).
  - reflexivity.
  - reflexivity.
  - left. reflexivity.
  - discriminate.
Defined.

Lemma size_mismatch_witness :
  uncompress (Platform := Stored.little) Stored.short_payload (nominal 2 2)
    = (Z_OK, repeat x00 770) /\
  let r := xyzimage_open (P := Stored.little) (Some Stored.short_payload_file)
             (Some xyzpriv_fread_func) (Some XYZIMAGE_ERROR_OK) in
  o_image r = None /\
  o_error r = Some XYZIMAGE_ERROR_IO_READ_IMAGE_TOO_SMALL.
Proof.
  split; [reflexivity|].
  apply (size_mismatch_is_too_small (P := Stored.little) xyzpriv_fread_func
           (Some Stored.short_payload_file) 2 2
           (Some (mkFILE Stored.short_payload false false))
           Stored.short_payload (Some (mkFILE [] true false))
           (repeat x00 770) (Some XYZIMAGE_ERROR_OK)).
  - lia.
  - lia.
  - apply (fread_reads_header Stored.short_payload_file 2 2 Stored.short_payload);
      reflexivity.
  - repeat split; reflexivity.
  - apply fread_reads_payload. vm_compute. reflexivity.
  - reflexivity.
  - vm_compute. discriminate.
Defined.

Lemma oversized_stream_witness :
  let r := xyzimage_open (P := Stored.little) (Some Stored.oversized_file)
             (Some xyzpriv_fread_func) (Some XYZIMAGE_ERROR_OK) in
  o_image r = None /\
  o_error r = Some XYZIMAGE_ERROR_IO_READ_IMAGE_TOO_BIG /\
  alloc_sizes compressed_xyz (o_log r) = [768; 1536].
Proof.
  destruct (oversized_stream_is_too_big (P := Stored.little) xyzpriv_fread_func
              (Some Stored.oversized_file) 0 0
              (Some (mkFILE (repeat x00 1600) false false))
              (Some XYZIMAGE_ERROR_OK)) as [_ H].
  - lia.
  - lia.
  - apply (fread_reads_header Stored.oversized_file 0 0 (repeat x00 1600));
      reflexivity.
  - apply (H (repeat x00 768) None (Some (mkFILE (repeat x00 832) false false))
             (repeat x00 768) None (Some (mkFILE (repeat x00 64) false false))).
    + repeat split; reflexivity.
    + reflexivity.
    + left. reflexivity.
    + reflexivity.
    + left. reflexivity.
Defined.

Lemma default_compressor_witness :
  xyzpriv_compress_func (P := Stored.little) [x01; x02; x03] 3 (repeat x00 3) 3
  = (0, repeat x00 3, Some XYZIMAGE_ERROR_BUFFER_TOO_SMALL).
Proof.
  apply (default_compressor_checks_bound_first (P := Stored.little)
           [x01; x02; x03] 3 (repeat x00 3) 3).
  vm_compute. reflexivity.
Defined.

Lemma failed_check_witness :
  Heap.xyzimage_get_width
    [(0%nat, Stored.not_a_handle (P := Stored.little))] (Some 0%nat)
    = Heap.Returns 0 /\
  Heap.xyzimage_get_height
    [(0%nat, Stored.not_a_handle (P := Stored.little))] (Some 0%nat)
    = Heap.Returns 0 /\
  Heap.xyzimage_get_buffer
    [(0%nat, Stored.not_a_handle (P := Stored.little))] (Some 0%nat) (Some 7)
    = Heap.Returns (None, Some 7) /\
  Heap.xyzimage_get_palette
    [(0%nat, Stored.not_a_handle (P := Stored.little))] (Some 0%nat)
    (Some XYZIMAGE_ERROR_OK)
    = Heap.Returns (None, Some XYZIMAGE_ERROR_XYZIMAGE_INVALID) /\
  Heap.xyzimage_get_format
    [(0%nat, Stored.not_a_handle (P := Stored.little))] (Some 0%nat)
    = Heap.Returns XYZIMAGE_FORMAT_NONE /\
  Heap.xyzimage_get_filesize
    [(0%nat, Stored.not_a_handle (P := Stored.little))] (Some 0%nat)
    = Heap.Returns 0 /\
  Heap.xyzimage_get_compressed_filesize
    [(0%nat, Stored.not_a_handle (P := Stored.little))] (Some 0%nat)
    = Heap.Returns 0.
Proof.
  destruct (failed_check_gives_neutral_values
              [(0%nat, Stored.not_a_handle (P := Stored.little))] (Some 0%nat)
              (Some (Stored.not_a_handle (P := Stored.little)))
              (Some XYZIMAGE_ERROR_OK) (Some 7) eq_refl eq_refl) as [H _].
  exact H.
Defined.

(** A released pointer and the accessors: the handle of a 2 x 2 image is
    allocated at address 0 and released; [xyzimage_get_width] through the
    stale pointer then reads freed memory; and once a 3 x 1 image has been
    allocated at the same address the stale pointer passes the check and
    [xyzimage_get_width] returns 3, not 0.  And the marker is read: of two
    blocks that differ in the first marker byte only, one gives the width 2
    and the other 0. *)
Lemma released_pointer_reaches_the_next_handle :
  Heap.xyzimage_alloc (P := Stored.little) [] 0%nat 2 2 XYZIMAGE_FORMAT_DEFAULT None
    = (Some 0%nat, None, [(0%nat, blank_image (P := Stored.little) 2 2)]) /\
  Heap.xyzimage_free [(0%nat, blank_image (P := Stored.little) 2 2)] (Some 0%nat)
    = Heap.Returns (1, []) /\
  Heap.xyzimage_get_width [] (Some 0%nat) = Heap.Undefined /\
  Heap.xyzimage_alloc (P := Stored.little) [] 0%nat 3 1 XYZIMAGE_FORMAT_DEFAULT None
    = (Some 0%nat, None, [(0%nat, blank_image (P := Stored.little) 3 1)]) /\
  Heap.xyzimage_is_valid [(0%nat, blank_image (P := Stored.little) 3 1)] (Some 0%nat)
    = Heap.Returns true /\
  Heap.xyzimage_get_width [(0%nat, blank_image (P := Stored.little) 3 1)] (Some 0%nat)
    = Heap.Returns 3 /\
  Heap.xyzimage_get_width [(0%nat, blank_image (P := Stored.little) 3 1)] (Some 0%nat)
    <> Heap.Returns 0 /\
  Stored.not_a_handle (P := Stored.little)
    = set_header0 (Stored.scenario_image (P := Stored.little)) chr_question /\
  Heap.xyzimage_get_width
    [(0%nat, Stored.scenario_image (P := Stored.little))] (Some 0%nat)
    = Heap.Returns 2 /\
  Heap.xyzimage_get_width
    [(0%nat, Stored.not_a_handle (P := Stored.little))] (Some 0%nat)
    = Heap.Returns 0.
Proof.
  split; [reflexivity|]. split; [reflexivity|]. split; [reflexivity|].
  split; [reflexivity|]. split; [reflexivity|]. split; [reflexivity|].
  split; [discriminate|]. split; [reflexivity|]. split; reflexivity.
Qed.

Lemma set_compress_func_witness :
  xyzimage_set_compress_func (P := Stored.little)
    (Some (Stored.stubborn_image (P := Stored.little))) None
  = Some (set_compress (Stored.stubborn_image (P := Stored.little))
                       (xyzpriv_compress_func (P := Stored.little))) /\
  xyzimage_set_compress_func (P := Stored.little)
    (Some (Stored.not_a_handle (P := Stored.little)))
    (Some Stored.stubborn_compress)
  = Some (Stored.not_a_handle (P := Stored.little)).
Proof.
  split.
  - destruct (set_compress_func_installs (P := Stored.little)
                (Some (Stored.stubborn_image (P := Stored.little)))) as [_ H].
    destruct (H eq_refl) as (img & Himg & Hnone & _).
    injection Himg as <-. exact Hnone.
  - apply (set_compress_func_installs (P := Stored.little)). reflexivity.
Defined.

Lemma round_trip_witness :
  let wr := xyzimage_write (P := Stored.little) (Some (Stored.scenario_image (P := Stored.little)))
              (Some (mkFILE [] false false)) (Some xyzpriv_fwrite_func)
              (Some XYZIMAGE_ERROR_ZLIB) in
  w_ret wr = 1 /\
  exists stream img',
    w_userdata wr = Some (mkFILE stream false false) /\
    o_image (xyzimage_open (P := Stored.little) (Some (mkFILE stream false false))
               (Some xyzpriv_fread_func) (Some XYZIMAGE_ERROR_ZLIB)) = Some img' /\
    width img' = 2 /\
    height img' = 2 /\
    palette img' = Stored.scenario_palette /\
    data img' = Some [x05; x05; x05; x05] /\
    data_len img' = 4.
Proof.
  destruct (write_then_open_round_trips (P := Stored.little)
              (stored_zlib_contract false (fun _ => true))) as [H _].
  apply (H (Stored.scenario_image (P := Stored.little)) (Some XYZIMAGE_ERROR_ZLIB) (Some XYZIMAGE_ERROR_ZLIB)).
  - reflexivity.
  - reflexivity.
  - reflexivity.
  - unfold handle_invariant.
    cbn [width height data_len data palette Stored.scenario_image].
    split; [lia|]. split; [lia|]. split; [reflexivity|]. split; [|reflexivity].
    exists [x05; x05; x05; x05]. split; reflexivity.
  - repeat split; reflexivity.
Defined.

Lemma compression_retry_witness :
  let r := xyzimage_write (P := Stored.little) (Some (Stored.stubborn_image (P := Stored.little)))
             (Some Stored.empty_file) (Some xyzpriv_fwrite_func)
             (Some XYZIMAGE_ERROR_OK) in
  compress_calls (w_log r) = [772; 1544] /\
  w_ret r = 0 /\
  w_error r = Some XYZIMAGE_ERROR_IO_COMPRESS /\
  write_calls (w_log r) = [] /\
  w_userdata r = Some Stored.empty_file.
Proof.
  destruct (compression_retried_once_with_double_capacity (P := Stored.little)
              (Stored.stubborn_image (P := Stored.little)) (Some Stored.empty_file) xyzpriv_fwrite_func
              (Some XYZIMAGE_ERROR_OK))
    as [HA _].
  - reflexivity.
  - reflexivity.
  - cbn. lia.
  - cbn. lia.
  - reflexivity.
  - reflexivity.
  - destruct (HA eq_refl) as [Hcalls Hfail].
    split; [exact Hcalls|].
    exact (Hfail XYZIMAGE_ERROR_IO_COMPRESS eq_refl eq_refl).
Defined.

Lemma little_endian_witness :
  exists payload,
    write_calls
      (w_log (xyzimage_write (P := Stored.big) (Some (Stored.wide_image (P := Stored.big)))
                (Some Stored.empty_file) (Some xyzpriv_fwrite_func)
                (Some XYZIMAGE_ERROR_OK)))
    = [[chr_X; chr_Y; chr_Z; chr_1]; [x02; x01]; [x01; x00]; payload].
Proof.
  destruct (dimensions_are_little_endian_on_the_wire (P := Stored.big)
              (Stored.wide_image (P := Stored.big)) (Some Stored.empty_file) xyzpriv_fwrite_func
              (Some XYZIMAGE_ERROR_OK)) as [H _].
  - reflexivity.
  - cbn. lia.
  - cbn. lia.
  - apply H. vm_compute. reflexivity.
Defined.

(** C8.  The invariant is not kept by every public operation.  On a host
    whose allocator grants 1000 bytes at most, the handle [xyzimage_alloc]
    returns for a 2 x 2 image satisfies the invariant, with a buffer of 4
    bytes.  [xyzimage_write] on it gets its two scratch buffers of 772 bytes,
    the first compression call asks for more room, the [realloc] to 1544
    bytes is refused, and the call returns 0 with
    XYZIMAGE_ERROR_OUT_OF_MEMORY after it has called [xyzimage_free] on the
    caller's handle: the marker is scrubbed, the pixel buffer freed and its
    length set to 0, the struct freed; the heap is empty and the caller's
    pointer dangles.  Where a scratch buffer itself is refused (a 258 x 1
    image on the same host) the call returns the same error and the handle
    is as it was. *)
Theorem refused_realloc_frees_the_callers_handle :
  Heap.xyzimage_alloc (P := Stored.tight) [] 0%nat 2 2 XYZIMAGE_FORMAT_DEFAULT
    (Some XYZIMAGE_ERROR_ZLIB)
    = (Some 0%nat, Some XYZIMAGE_ERROR_OK,
       [(0%nat, blank_image (P := Stored.tight) 2 2)]) /\
  handle_invariant (blank_image (P := Stored.tight) 2 2) /\
  data (blank_image (P := Stored.tight) 2 2) = Some [x00; x00; x00; x00] /\
  Heap.xyzimage_write (P := Stored.tight)
    [(0%nat, blank_image (P := Stored.tight) 2 2)] (Some 0%nat)
    (Some Stored.empty_file) (Some xyzpriv_fwrite_func) (Some XYZIMAGE_ERROR_OK)
    = Heap.Returns
        (mkWrite 0
           (Freed (set_data_len
                     (set_data (set_header0 (blank_image (P := Stored.tight) 2 2)
                                            chr_bang) None) 0))
           (Some XYZIMAGE_ERROR_OUT_OF_MEMORY) (Some Stored.empty_file)
           [EvAlloc decompressed_xyz 772; EvAlloc compressed_xyz 772;
            EvCompress 772; EvAlloc compressed_xyz 1544],
         []) /\
  Heap.xyzimage_get_buffer [] (Some 0%nat) None = Heap.Undefined /\
  Heap.xyzimage_write (P := Stored.tight)
    [(0%nat, blank_image (P := Stored.tight) 258 1)] (Some 0%nat)
    (Some Stored.empty_file) (Some xyzpriv_fwrite_func) (Some XYZIMAGE_ERROR_OK)
    = Heap.Returns
        (mkWrite 0 (Kept (Some (blank_image (P := Stored.tight) 258 1)))
           (Some XYZIMAGE_ERROR_OUT_OF_MEMORY) (Some Stored.empty_file)
           [EvAlloc decompressed_xyz 1026],
         [(0%nat, blank_image (P := Stored.tight) 258 1)]).
Proof.
  split; [reflexivity|].
  split; [apply blank_image_invariant; lia|].
  split; [reflexivity|]. split; [reflexivity|]. split; reflexivity.
Qed.

(** * Further concrete runs *)

(** The 0 x 0 image: encoded into 8 header bytes and a payload, and decoded
    back with no pixels and the palette it had. *)
Example round_trip_of_the_empty_image :
  let wr := xyzimage_write (P := Stored.little)
              (Some (blank_image (P := Stored.little) 0 0))
              (Some Stored.empty_file) (Some xyzpriv_fwrite_func)
              (Some XYZIMAGE_ERROR_OK) in
  let rd := xyzimage_open (P := Stored.little)
              (option_map (fun f => Stored.file_of (f_bytes f)) (w_userdata wr))
              (Some xyzpriv_fread_func) (Some XYZIMAGE_ERROR_OK) in
  w_ret wr = 1 /\
  option_map width (o_image rd) = Some 0 /\
  option_map height (o_image rd) = Some 0 /\
  option_map data (o_image rd) = Some (Some []) /\
  option_map palette (o_image rd) = Some (mkPalette (repeat zero_entry 256)) /\
  o_error rd = Some XYZIMAGE_ERROR_OK.
Proof. vm_compute. repeat split. Qed.

(** The same stream leaves a little-endian and a big-endian host. *)
Example wire_bytes_do_not_depend_on_the_host :
  option_map f_bytes
    (w_userdata (xyzimage_write (P := Stored.little)
                   (Some (Stored.wide_image (P := Stored.little)))
                   (Some Stored.empty_file) (Some xyzpriv_fwrite_func) None))
  = option_map f_bytes
      (w_userdata (xyzimage_write (P := Stored.big)
                     (Some (Stored.wide_image (P := Stored.big)))
                     (Some Stored.empty_file) (Some xyzpriv_fwrite_func) None)).
Proof. vm_compute. reflexivity. Qed.

(** A stream of exactly [2 * nominal] payload bytes is already refused. *)
Example exactly_twice_nominal_is_too_big :
  o_error (xyzimage_open (P := Stored.little)
             (Some (Stored.file_of (xyz_magic ++ le16 0 ++ le16 0 ++ repeat x00 1536)))
             (Some xyzpriv_fread_func) (Some XYZIMAGE_ERROR_OK))
  = Some XYZIMAGE_ERROR_IO_READ_IMAGE_TOO_BIG.
Proof. vm_compute. reflexivity. Qed.

(** * Further theorems at concrete inputs *)

Lemma alloc_black_witness :
  exists img,
    xyzimage_alloc (P := Stored.little) 2 2 XYZIMAGE_FORMAT_DEFAULT
      (Some XYZIMAGE_ERROR_ZLIB) = (Some img, Some XYZIMAGE_ERROR_OK) /\
    xyzimage_get_buffer (Some img) (Some 99)
      = (Some [x00; x00; x00; x00], Some 4) /\
    xyzimage_get_palette (Some img) (Some XYZIMAGE_ERROR_ZLIB)
      = (Some (mkPalette (repeat zero_entry 256)), Some XYZIMAGE_ERROR_OK) /\
    xyzimage_get_width (Some img) = 2 /\
    xyzimage_get_height (Some img) = 2 /\
    xyzimage_get_format (Some img) = XYZIMAGE_FORMAT_DEFAULT /\
    xyzimage_get_compressed_filesize (Some img) = 8.
Proof.
  apply (alloc_gives_black_image (P := Stored.little) 2 2
           (Some XYZIMAGE_ERROR_ZLIB) 99); [lia | lia | reflexivity].
Defined.

Lemma alloc_handle_or_error_witness :
  xyzimage_alloc (P := Stored.tight) 100 100 XYZIMAGE_FORMAT_NONE
    (Some XYZIMAGE_ERROR_OK)
    = (None, Some XYZIMAGE_ERROR_FORMAT_NOT_SUPPORTED) /\
  xyzimage_alloc (P := Stored.tight) 100 100 XYZIMAGE_FORMAT_DEFAULT
    (Some XYZIMAGE_ERROR_OK)
    = (None, Some XYZIMAGE_ERROR_OUT_OF_MEMORY).
Proof.
  split.
  - destruct (alloc_returns_handle_or_error (P := Stored.tight) 100 100 XYZIMAGE_FORMAT_NONE
                (Some XYZIMAGE_ERROR_OK) ltac:(lia) ltac:(lia))
      as (_ & _ & H & _).
    apply H. discriminate.
  - destruct (alloc_returns_handle_or_error (P := Stored.tight) 100 100 XYZIMAGE_FORMAT_DEFAULT
                (Some XYZIMAGE_ERROR_OK) ltac:(lia) ltac:(lia))
      as (_ & _ & _ & H & _).
    apply H; reflexivity.
Defined.

Lemma filesize_witness :
  xyzimage_get_filesize (Some (Stored.scenario_image (P := Stored.little))) = 780.
Proof.
  apply (filesize_is_nominal_plus_header
           (Stored.scenario_image (P := Stored.little)));
    [reflexivity | cbn; lia | cbn; lia].
Defined.

Lemma open_ok_witness :
  o_error (xyzimage_open (P := Stored.little)
             (Some (Stored.file_of Stored.scenario_stream))
             (Some xyzpriv_fread_func) (Some XYZIMAGE_ERROR_ZLIB))
    = Some XYZIMAGE_ERROR_OK /\
  error_is_set (o_error (xyzimage_open (P := Stored.little)
                           (Some (Stored.file_of Stored.scenario_stream))
                           (Some xyzpriv_fread_func) (Some XYZIMAGE_ERROR_ZLIB)))
    = false.
Proof.
  apply (open_handle_comes_with_ok (P := Stored.little)
           (Some (Stored.file_of Stored.scenario_stream))
           (Some xyzpriv_fread_func) (Some XYZIMAGE_ERROR_ZLIB)
           (decoded_image (P := Stored.little) 2 2 773 Stored.scenario_palette
              [x05; x05; x05; x05])).
  vm_compute. reflexivity.
Defined.

Lemma open_dimensions_witness :
  width (decoded_image (P := Stored.big) 2 2 773 Stored.scenario_palette
           [x05; x05; x05; x05]) = 2 /\
  height (decoded_image (P := Stored.big) 2 2 773 Stored.scenario_palette
            [x05; x05; x05; x05]) = 2.
Proof.
  apply (open_reads_dimensions_little_endian (P := Stored.big) xyzpriv_fread_func
           (Some (Stored.file_of Stored.scenario_stream)) (Some XYZIMAGE_ERROR_OK)
           _ xyz_magic None
           (Some (Stored.file_of (skipn 4 Stored.scenario_stream)))
           [x02; x00] None
           (Some (Stored.file_of (skipn 6 Stored.scenario_stream)))
           [x02; x00] None
           (Some (Stored.file_of (skipn 8 Stored.scenario_stream)))).
  - reflexivity.
  - reflexivity.
  - reflexivity.
  - vm_compute. reflexivity.
Defined.

Lemma opened_defaults_witness :
  xyzimage_get_format
    (Some (decoded_image (P := Stored.little) 2 2 773 Stored.scenario_palette
             [x05; x05; x05; x05])) = XYZIMAGE_FORMAT_DEFAULT /\
  xyzimage_get_buffer
    (Some (decoded_image (P := Stored.little) 2 2 773 Stored.scenario_palette
             [x05; x05; x05; x05])) (Some 0)
    = (Some [x05; x05; x05; x05], Some 4).
Proof.
  destruct (opened_handle_has_defaults (P := Stored.little)
              (Some (Stored.file_of Stored.scenario_stream))
              (Some xyzpriv_fread_func) (Some XYZIMAGE_ERROR_ZLIB)
              (decoded_image (P := Stored.little) 2 2 773 Stored.scenario_palette
                 [x05; x05; x05; x05])
              None 0) as (Hf & _ & _ & Hb & _).
  - vm_compute. reflexivity.
  - split; [exact Hf | exact Hb].
Defined.

Lemma scenario_stream_reads :
  reads_header xyzpriv_fread_func (Some (Stored.file_of Stored.scenario_stream)) 2 2
    (Some (mkFILE (skipn 8 Stored.scenario_stream) false false)) /\
  reads_payload xyzpriv_fread_func
    (Some (mkFILE (skipn 8 Stored.scenario_stream) false false)) (nominal 2 2)
    (skipn 8 Stored.scenario_stream) (Some (mkFILE [] true false)).
Proof.
  split.
  - apply (fread_reads_header (Stored.file_of Stored.scenario_stream) 2 2
             (skipn 8 Stored.scenario_stream)); reflexivity.
  - apply fread_reads_payload. vm_compute. reflexivity.
Qed.

Lemma open_splits_witness :
  exists img,
    o_image (xyzimage_open (P := Stored.little)
               (Some (Stored.file_of Stored.scenario_stream))
               (Some xyzpriv_fread_func) (Some XYZIMAGE_ERROR_ZLIB)) = Some img /\
    width img = 2 /\ height img = 2 /\
    nth 5 (entry (palette img)) zero_entry = mkEntry x0a x14 x1e /\
    data img = Some [x05; x05; x05; x05] /\
    data_len_compressed img = 773.
Proof.
  destruct scenario_stream_reads as [Hh Hp].
  destruct (open_splits_the_inflated_payload (P := Stored.little) xyzpriv_fread_func
              (Some (Stored.file_of Stored.scenario_stream)) 2 2 _
              (skipn 8 Stored.scenario_stream) _
              (skipn 9 Stored.scenario_stream) (Some XYZIMAGE_ERROR_ZLIB)
              ltac:(lia) ltac:(lia) Hh
              (conj eq_refl (conj eq_refl eq_refl)) Hp eq_refl eq_refl)
    as (img & Hi & _ & _ & Hw & Hhh & Hpal & Hd & _ & Hc).
  exists img. split; [exact Hi|]. split; [exact Hw|]. split; [exact Hhh|].
  split; [exact (Hpal 5%nat ltac:(lia))|]. split; [exact Hd | exact Hc].
Defined.

Lemma compressed_filesize_witness :
  xyzimage_get_compressed_filesize
    (o_image (xyzimage_open (P := Stored.little)
                (Some (Stored.file_of Stored.scenario_stream))
                (Some xyzpriv_fread_func) (Some XYZIMAGE_ERROR_ZLIB)))
  = 781.
Proof.
  destruct scenario_stream_reads as [Hh Hp].
  apply (compressed_filesize_after_open (P := Stored.little) xyzpriv_fread_func
           (Some (Stored.file_of Stored.scenario_stream)) 2 2 _
           (skipn 8 Stored.scenario_stream) _
           (skipn 9 Stored.scenario_stream) (Some XYZIMAGE_ERROR_ZLIB)
           ltac:(lia) ltac:(lia) Hh
           (conj eq_refl (conj eq_refl eq_refl)) Hp eq_refl eq_refl).
Defined.

Lemma inflate_failure_witness :
  let r := xyzimage_open (P := Stored.little) (Some Stored.garbage_file)
             (Some xyzpriv_fread_func) (Some XYZIMAGE_ERROR_OK) in
  o_image r = None /\ o_error r = Some XYZIMAGE_ERROR_ZLIB.
Proof.
  apply (inflate_failure_is_zlib_error (P := Stored.little) xyzpriv_fread_func
           (Some Stored.garbage_file) 2 2
           (Some (mkFILE [x00; x01; x02] false false))
           [x00; x01; x02] (Some (mkFILE [] true false))
           Stored.Z_DATA_ERROR [] (Some XYZIMAGE_ERROR_OK)).
  - lia.
  - lia.
  - apply (fread_reads_header Stored.garbage_file 2 2 [x00; x01; x02]); reflexivity.
  - repeat split; reflexivity.
  - apply fread_reads_payload. vm_compute. reflexivity.
  - reflexivity.
  - discriminate.
Defined.

Lemma open_reads_witness :
  read_calls (o_log (xyzimage_open (P := Stored.little)
                       (Some (Stored.file_of Stored.scenario_stream))
                       (Some xyzpriv_fread_func) None))
  = [4; 2; 2; 772; 772].
Proof.
  destruct scenario_stream_reads as [Hh _].
  destruct (open_reads_at_most_twice_nominal (P := Stored.little) xyzpriv_fread_func
              (Some (Stored.file_of Stored.scenario_stream)) 2 2 _ None
              ltac:(lia) ltac:(lia) Hh) as [H | [H | H]].
  - vm_compute in H. discriminate H.
  - vm_compute in H. discriminate H.
  - exact H.
Defined.

Lemma fread_contract_witness :
  fst (fst (xyzpriv_fread_func (Some Stored.truncated_file) 8))
    = xyz_magic ++ [x02] /\
  snd (fst (xyzpriv_fread_func (Some Stored.truncated_file) 8))
    = Some XYZIMAGE_ERROR_IO_READ_END_OF_FILE.
Proof.
  destruct (fread_func_keeps_the_read_contract 8 ltac:(lia)) as [_ H].
  destruct (H Stored.truncated_file) as (_ & _ & _ & Hshort & _).
  apply Hshort; [reflexivity | vm_compute; reflexivity].
Defined.

Lemma truncated_header_witness :
  let r := xyzimage_fopen (P := Stored.little) (Some Stored.truncated_file)
             (Some XYZIMAGE_ERROR_OK) in
  o_image r = None /\ o_error r = Some XYZIMAGE_ERROR_IO_READ_END_OF_FILE.
Proof.
  destruct (truncated_header_is_refused (P := Stored.little) Stored.truncated_file
              XYZIMAGE_ERROR_OK eq_refl ltac:(vm_compute; reflexivity))
    as [Hi [He | (_ & Hne & _)]].
  - split; [exact Hi | exact He].
  - exfalso. apply Hne. reflexivity.
Defined.

Lemma twice_nominal_witness :
  let r := xyzimage_fopen (P := Stored.little)
             (Some (Stored.file_of
                      (xyz_magic ++ le16 0 ++ le16 0 ++ repeat x00 1536)))
             (Some XYZIMAGE_ERROR_OK) in
  o_image r = None /\ o_error r = Some XYZIMAGE_ERROR_IO_READ_IMAGE_TOO_BIG.
Proof.
  apply (file_payload_of_twice_nominal_is_too_big (P := Stored.little)
           (Stored.file_of (xyz_magic ++ le16 0 ++ le16 0 ++ repeat x00 1536))
           0 0 (repeat x00 1536) (Some XYZIMAGE_ERROR_OK)).
  - lia.
  - lia.
  - reflexivity.
  - reflexivity.
  - vm_compute. discriminate.
  - repeat split; reflexivity.
Defined.

Lemma compressor_contract_witness :
  snd (xyzpriv_compress_func (P := Stored.tight) (repeat x01 1000) 1000
         (repeat x00 2000) 2000)
  = Some XYZIMAGE_ERROR_OUT_OF_MEMORY.
Proof.
  destruct (default_compressor_keeps_the_contract (P := Stored.tight)
              (repeat x01 1000) 1000 (repeat x00 2000) 2000) as (_ & _ & H & _).
  apply H; [reflexivity | vm_compute; discriminate].
Defined.

Lemma write_touches_witness :
  (realloc_refused (P := Stored.tight) (Stored.scenario_image (P := Stored.tight))
     (Some xyzpriv_fwrite_func) ->
   w_image (xyzimage_write (P := Stored.tight)
              (Some (Stored.scenario_image (P := Stored.tight)))
              (Some Stored.empty_file) (Some xyzpriv_fwrite_func) None)
   = Freed (set_data_len
              (set_data (set_header0 (Stored.scenario_image (P := Stored.tight))
                                     chr_bang) None) 0)) /\
  (~ realloc_refused (P := Stored.little) (Stored.scenario_image (P := Stored.little))
       (Some xyzpriv_fwrite_func) ->
   w_image (xyzimage_write (P := Stored.little)
              (Some (Stored.scenario_image (P := Stored.little)))
              (Some Stored.empty_file) (Some xyzpriv_fwrite_func) None)
   = Kept (Some (Stored.scenario_image (P := Stored.little))) \/
   exists size,
     w_image (xyzimage_write (P := Stored.little)
                (Some (Stored.scenario_image (P := Stored.little)))
                (Some Stored.empty_file) (Some xyzpriv_fwrite_func) None)
     = Kept (Some (set_data_len_compressed
                     (Stored.scenario_image (P := Stored.little)) size))).
Proof.
  split.
  - apply (proj1 (proj2 (write_touches_only_the_compressed_size (P := Stored.tight)
                           (Stored.scenario_image (P := Stored.tight))
                           (Some Stored.empty_file) (Some xyzpriv_fwrite_func) None
                           eq_refl))).
  - apply (proj2 (proj2 (write_touches_only_the_compressed_size (P := Stored.little)
                           (Stored.scenario_image (P := Stored.little))
                           (Some Stored.empty_file) (Some xyzpriv_fwrite_func) None
                           eq_refl))).
Defined.

Lemma write_releases_witness :
  let r := xyzimage_write (P := Stored.tight)
             (Some (Stored.scenario_image (P := Stored.tight)))
             (Some Stored.empty_file) (Some xyzpriv_fwrite_func)
             (Some XYZIMAGE_ERROR_OK) in
  w_ret r = 0 /\
  w_error r = Some XYZIMAGE_ERROR_OUT_OF_MEMORY /\
  w_image r
  = Freed (set_data_len
             (set_data (set_header0 (Stored.scenario_image (P := Stored.tight))
                                    chr_bang) None) 0) /\
  (forall h a,
     Heap.lookup h a = Some (Stored.scenario_image (P := Stored.tight)) ->
     Heap.xyzimage_write (P := Stored.tight) h (Some a) (Some Stored.empty_file)
       (Some xyzpriv_fwrite_func) (Some XYZIMAGE_ERROR_OK)
     = Heap.Returns (r, Heap.remove h a)) /\
  write_calls (w_log r) = [] /\
  compress_calls (w_log r) = [772] /\
  w_userdata r = Some Stored.empty_file.
Proof.
  apply (write_releases_the_handle_when_realloc_is_refused (P := Stored.tight)
           (Stored.scenario_image (P := Stored.tight))
           (Some Stored.empty_file) xyzpriv_fwrite_func (Some XYZIMAGE_ERROR_OK)).
  - reflexivity.
  - reflexivity.
  - cbn. lia.
  - cbn. lia.
  - reflexivity.
  - reflexivity.
  - reflexivity.
Defined.

Lemma retry_always_witness :
  compress_calls
    (w_log (xyzimage_write (P := Stored.little)
              (Some (Stored.scenario_image (P := Stored.little)))
              (Some Stored.empty_file) (Some xyzpriv_fwrite_func) None))
  = [772; 1544].
Proof.
  apply (default_compressor_always_needs_the_retry (P := Stored.little)
           (Stored.scenario_image (P := Stored.little))
           (Some Stored.empty_file) xyzpriv_fwrite_func None).
  - reflexivity.
  - reflexivity.
  - reflexivity.
  - cbn. lia.
  - cbn. lia.
  - reflexivity.
  - reflexivity.
  - vm_compute. reflexivity.
Defined.

Lemma write_prefix_witness :
  exists payload rest,
    write_calls
      (w_log (xyzimage_write (P := Stored.little)
                (Some (Stored.scenario_image (P := Stored.little)))
                (Some Stored.faulty_file) (Some xyzpriv_fwrite_func) None)) ++ rest
    = [xyz_magic; le16 2; le16 2; payload].
Proof.
  apply (write_calls_are_a_prefix_of_the_container (P := Stored.little)
           (Stored.scenario_image (P := Stored.little))
           (Some Stored.faulty_file) (Some xyzpriv_fwrite_func) None);
    cbn; lia.
Defined.

Lemma scenario_invariant (P : Platform) :
  handle_invariant (Stored.scenario_image (P := P)).
Proof.
  unfold handle_invariant.
  cbn [width height data_len data palette Stored.scenario_image].
  split; [lia|]. split; [lia|]. split; [reflexivity|]. split; [|reflexivity].
  exists [x05; x05; x05; x05]. split; reflexivity.
Qed.

Lemma write_container_witness :
  let r := xyzimage_write (P := Stored.little)
             (Some (Stored.scenario_image (P := Stored.little)))
             (Some Stored.empty_file) (Some xyzpriv_fwrite_func)
             (Some XYZIMAGE_ERROR_ZLIB) in
  w_ret r = 1 /\
  w_error r = Some XYZIMAGE_ERROR_OK /\
  w_userdata r = Some (mkFILE Stored.scenario_stream false false) /\
  w_image r
  = Kept (Some (set_data_len_compressed
                  (Stored.scenario_image (P := Stored.little)) 773)) /\
  xyzimage_get_compressed_filesize
    (Some (set_data_len_compressed
             (Stored.scenario_image (P := Stored.little)) 773)) = 781.
Proof.
  apply (write_appends_the_container (P := Stored.little)
           (Stored.scenario_image (P := Stored.little)) [x05; x05; x05; x05]
           Stored.empty_file (Some XYZIMAGE_ERROR_ZLIB)
           (stored_zlib_contract false (fun _ => true))
           eq_refl eq_refl eq_refl (scenario_invariant Stored.little) eq_refl
           (conj (conj eq_refl (conj eq_refl eq_refl)) eq_refl) eq_refl).
Defined.

Lemma failing_stream_witness :
  let r := xyzimage_write (P := Stored.little)
             (Some (Stored.scenario_image (P := Stored.little)))
             (Some Stored.faulty_file) (Some xyzpriv_fwrite_func)
             (Some XYZIMAGE_ERROR_OK) in
  w_ret r = 0 /\
  w_error r = Some XYZIMAGE_ERROR_IO_WRITE /\
  w_userdata r = Some Stored.faulty_file.
Proof.
  apply (write_to_a_failing_stream (P := Stored.little)
           (Stored.scenario_image (P := Stored.little))
           Stored.faulty_file (Some XYZIMAGE_ERROR_OK)
           (stored_zlib_contract false (fun _ => true))
           eq_refl eq_refl eq_refl (scenario_invariant Stored.little)
           (conj (conj eq_refl (conj eq_refl eq_refl)) eq_refl) eq_refl).
Defined.

Lemma file_round_trip_witness :
  let wr := xyzimage_fwrite (P := Stored.big)
              (Some (Stored.scenario_image (P := Stored.big)))
              (Some (mkFILE [] false false)) None in
  w_ret wr = 1 /\
  exists stream img',
    w_userdata wr = Some (mkFILE stream false false) /\
    o_image (xyzimage_fopen (P := Stored.big)
               (Some (mkFILE stream false false)) None) = Some img' /\
    width img' = 2 /\
    height img' = 2 /\
    palette img' = Stored.scenario_palette /\
    data img' = Some [x05; x05; x05; x05].
Proof.
  destruct (fwrite_then_fopen_round_trips (P := Stored.big)
              (Stored.scenario_image (P := Stored.big)) None None
              (stored_zlib_contract true (fun _ => true))
              eq_refl eq_refl eq_refl (scenario_invariant Stored.big)
              (conj (conj eq_refl (conj eq_refl eq_refl)) eq_refl)) as [H _].
  exact H.
Defined.

Lemma reencoding_witness :
  exists stream,
    w_userdata (xyzimage_write (P := Stored.little)
                  (Some (Stored.scenario_image (P := Stored.little)))
                  (Some (mkFILE [] false false))
                  (Some xyzpriv_fwrite_func) None)
      = Some (mkFILE stream false false) /\
    w_ret (xyzimage_write (P := Stored.little)
             (o_image (xyzimage_open (P := Stored.little)
                         (Some (mkFILE stream false false))
                         (Some xyzpriv_fread_func) None))
             (Some (mkFILE [] false false)) (Some xyzpriv_fwrite_func) None) = 1 /\
    w_userdata (xyzimage_write (P := Stored.little)
                  (o_image (xyzimage_open (P := Stored.little)
                              (Some (mkFILE stream false false))
                              (Some xyzpriv_fread_func) None))
                  (Some (mkFILE [] false false)) (Some xyzpriv_fwrite_func) None)
      = Some (mkFILE stream false false).
Proof.
  apply (reencoding_reproduces_the_stream (P := Stored.little)
           (Stored.scenario_image (P := Stored.little)) None
           (stored_zlib_contract false (fun _ => true))
           eq_refl eq_refl eq_refl (scenario_invariant Stored.little)
           (conj (conj eq_refl (conj eq_refl eq_refl)) eq_refl)).
Defined.

Lemma legacy_compressor_witness :
  snd (Legacy.xyzpriv_compress_func (P := Stored.little) [x01; x02; x03] 3
         (repeat x00 4) 4) = None /\
  snd (xyzpriv_compress_func (P := Stored.little) [x01; x02; x03] 3
         (repeat x00 4) 4) = Some XYZIMAGE_ERROR_BUFFER_TOO_SMALL.
Proof.
  destruct (legacy_compressor_judges_the_actual_size (P := Stored.little)
              [x01; x02; x03] 3 (repeat x00 4) 4) as [_ H].
  destruct (H eq_refl eq_refl) as (_ & _ & Hfit).
  apply Hfit. vm_compute. split; [discriminate | reflexivity].
Defined.

Lemma free_guard_witness :
  Heap.xyzimage_free
    [(0%nat, Stored.scenario_image (P := Stored.little));
     (1%nat, Stored.not_a_handle (P := Stored.little))] (Some 1%nat)
  = Heap.Returns
      (0, [(0%nat, Stored.scenario_image (P := Stored.little));
           (1%nat, Stored.not_a_handle (P := Stored.little))]) /\
  exists a h',
    Some 0%nat = Some a /\
    Heap.xyzimage_free
      [(0%nat, Stored.scenario_image (P := Stored.little));
       (1%nat, Stored.not_a_handle (P := Stored.little))] (Some 0%nat)
    = Heap.Returns (1, h') /\
    Heap.lookup h' a = None /\
    (forall b, b <> a ->
       Heap.lookup h' b
       = Heap.lookup [(0%nat, Stored.scenario_image (P := Stored.little));
                      (1%nat, Stored.not_a_handle (P := Stored.little))] b) /\
    Heap.xyzimage_free h' (Some 0%nat) = Heap.Undefined /\
    forall next,
      xyzimage_is_valid (Some next) = true ->
      exists h'',
        Heap.xyzimage_free (Heap.store h' a next) (Some 0%nat) = Heap.Returns (1, h'') /\
        Heap.lookup h'' a = None.
Proof.
  split.
  - apply (proj1 (free_releases_exactly_the_block
                    [(0%nat, Stored.scenario_image (P := Stored.little));
                     (1%nat, Stored.not_a_handle (P := Stored.little))]
                    (Some 1%nat) (Some (Stored.not_a_handle (P := Stored.little)))
                    eq_refl)).
    reflexivity.
  - apply (proj2 (free_releases_exactly_the_block
                    [(0%nat, Stored.scenario_image (P := Stored.little));
                     (1%nat, Stored.not_a_handle (P := Stored.little))]
                    (Some 0%nat) (Some (Stored.scenario_image (P := Stored.little)))
                    eq_refl)).
    reflexivity.
Defined.

Lemma invariant_until_freed_witness :
  (exists img',
     after_call (P := Stored.little) (U := option FILE)
       (call_set_compress_func (Some Stored.stubborn_compress))
       (Some (Stored.scenario_image (P := Stored.little))) = Kept (Some img') /\
     xyzimage_is_valid (Some img') = true /\
     handle_invariant img' /\
     width img' = 2 /\ height img' = 2 /\
     data_len img' = 4 /\ data img' = Some [x05; x05; x05; x05]) \/
  (after_call (P := Stored.little) (U := option FILE)
     (call_set_compress_func (Some Stored.stubborn_compress))
     (Some (Stored.scenario_image (P := Stored.little)))
   = Freed (set_data_len
              (set_data (set_header0 (Stored.scenario_image (P := Stored.little))
                                     chr_bang) None) 0) /\
   (call_set_compress_func (U := option FILE) (Some Stored.stubborn_compress) = call_free \/
    (exists ud wf error,
       call_set_compress_func (U := option FILE) (Some Stored.stubborn_compress)
       = call_write ud wf error /\
       realloc_refused (P := Stored.little)
         (Stored.scenario_image (P := Stored.little)) wf) \/
    (exists file error,
       call_set_compress_func (U := option FILE) (Some Stored.stubborn_compress)
       = call_fwrite file error /\ file <> None /\
       realloc_refused (P := Stored.little)
         (Stored.scenario_image (P := Stored.little)) (Some xyzpriv_fwrite_func)))).
Proof.
  apply (proj2 (proj2 (proj2 (handle_invariant_lasts_until_the_handle_is_freed
                                (P := Stored.little))))
           (option FILE) (call_set_compress_func (Some Stored.stubborn_compress))
           (Stored.scenario_image (P := Stored.little)) eq_refl
           (scenario_invariant Stored.little)).
Defined.
